(** * Switched residual generator (SwitchedResidualGenerator_arch.py)

    A shallow embedding of the switching layer and of the generator that
    stacks it, with the schedule that anneals the switch temperature.

    Conventions of the embedding:
    - Python numbers that are only compared and counted (training steps,
      step limits, channel counts, upsample factors) are [Z];
    - Python numbers that go through true division [/] (temperatures) are
      exact rationals [Q]: the embedding idealises floating point, it has
      no rounding, no infinities and no NaN;
    - a Python exception is a value of [PyExc]; code that may raise returns
      a [result];
    - [self] is a record that is passed in and returned (state passing). *)

From Stdlib Require Import ZArith QArith Qminmax Lia Lqa.
From stdpp Require Import base option list gmap strings pretty.

Open Scope Z_scope.

(** ** Python results and exceptions *)

Inductive PyExc : Type :=
| AssertionError
| ZeroDivisionError
| IndexError
| TypeError (msg : string)
| NameError (name : string)
| KeyError (key : string)
| RuntimeError (msg : string).

Inductive result (A : Type) : Type :=
| Ok (a : A)
| Raise (e : PyExc).
Arguments Ok {A} a.
Arguments Raise {A} e.

#[export] Instance result_ret : MRet result := fun A a => Ok a.
#[export] Instance result_bind : MBind result := fun A B k r =>
  match r with
  | Ok a => k a
  | Raise e => Raise e
  end.

Definition is_ok {A : Type} (r : result A) : bool :=
  match r with Ok _ => true | Raise _ => false end.

(** [a / b] on Python numbers: true division, raising on a zero divisor. *)
Definition py_div (a b : Q) : result Q :=
  if Qeq_bool b 0 then Raise ZeroDivisionError else Ok (a / b)%Q.

(** [a % b == 0] for integers. *)
Definition py_mod_is_zero (a b : Z) : bool := (a mod b =? 0).

(** Sequential evaluation of a list of fallible computations. *)
Fixpoint mapM {A B : Type} (f : A -> result B) (l : list A) : result (list B) :=
  match l with
  | [] => Ok []
  | a :: l' => b ← f a; bs ← mapM f l'; Ok (b :: bs)
  end.

(** ** Tensors seen by the generator

    What is stated about the generator concerns shapes, so the tensors
    that flow through it are represented by their shape [(batch, channels,
    height, width)]. *)

Record Tensor4D : Type := mkTensor4D {
  batch : Z;
  channels : Z;
  height : Z;
  width : Z
}.

(** Modelled from the spec: the basis convolutional block [ConvBnLelu]
    (models.arch_util, not in the sources) is a black box with known
    input/output channel semantics: it accepts a feature map with
    [conv_in] channels and returns one with [conv_out] channels and the
    same batch and spatial dimensions. *)
Record ConvBnLelu : Type := mkConvBnLelu {
  conv_in : Z;
  conv_out : Z;
  conv_kernel_size : Z
}.

Definition ConvBnLelu_forward (c : ConvBnLelu) (x : Tensor4D) : result Tensor4D :=
  if channels x =? conv_in c
  then Ok (mkTensor4D (batch x) (conv_out c) (height x) (width x))
  else Raise (RuntimeError "channel mismatch").

(** [F.interpolate(x, scale_factor=2, mode="nearest")]. *)
Definition F_interpolate (x : Tensor4D) (scale_factor : Z) : Tensor4D :=
  mkTensor4D (batch x) (channels x) (height x * scale_factor) (width x * scale_factor).

(** ** Tensors seen by one switching layer

    Inside a switching layer the values matter, so a tensor is the list
    of its entries (row-major); two tensors of one shape have the same
    length. A learned scalar parameter (a one-element tensor) and a
    Python number are rationals that scale every entry. Addition is
    modelled between tensors of one shape only; the embedding does not
    model broadcasting between feature maps and raises instead. *)

Definition Tensor : Type := list Q.

Definition tensor_eq (a b : Tensor) : Prop := Forall2 Qeq a b.

Definition tensor_scale (a : Tensor) (s : Q) : Tensor := map (fun v => (v * s)%Q) a.

Fixpoint tensor_zip_add (a b : Tensor) : Tensor :=
  match a, b with
  | v :: a', w :: b' => (v + w)%Q :: tensor_zip_add a' b'
  | _, _ => []
  end.

(** [a + b] on two tensors of one shape. A tensor is its list of entries
    here, so the broadcasting torch applies to operands of different
    shapes is not expressed: unequal lengths are reported as a mismatch,
    and the properties below are stated for operands of equal shape. *)
Definition tensor_add (a b : Tensor) : result Tensor :=
  if (length a =? length b)%nat
  then Ok (tensor_zip_add a b)
  else Raise (RuntimeError "shape mismatch").

(** A positional argument that is either one tensor or a tuple of them. *)
Inductive PyArg : Type :=
| Single (x : Tensor)
| Tuple (xs : list Tensor).

(** [if not isinstance(x, tuple): x = (x,)]. *)
Definition as_tuple (x : PyArg) : list Tensor :=
  match x with
  | Single x0 => [x0]
  | Tuple xs => xs
  end.

(** The trace of one pass through a switching layer: the calls to its
    sub-modules with their arguments, and the residual addition
    [identity + update], in the order in which they happen. *)
Inductive Call : Type :=
| CallPreTransform (args : list Tensor)
| CallTransform (i : nat) (args : list Tensor)
| CallMultiplexer (args : list Tensor)
| CallSwitch (xformed : list Tensor) (m : Tensor)
| CallPostTransformBlock (x : Tensor)
| ResidualAdd (identity update : Tensor)
| CallPostSwitchConv (x : Tensor).

(** A computation that leaves a trace and returns or raises; the trace is
    kept when it raises. *)
Definition Traced (A : Type) : Type := (list Call * result A)%type.

Definition tell (cs : list Call) : Traced unit := (cs, Ok tt).

Definition lift {A : Type} (r : result A) : Traced A := ([], r).

#[export] Instance traced_ret : MRet Traced := fun A a => ([], Ok a).
#[export] Instance traced_bind : MBind Traced := fun A B k m =>
  match m with
  | (l, Ok a) => let '(l', r) := k a in (l ++ l', r)
  | (l, Raise e) => (l, Raise e)
  end.

(** What [ConfigurableSwitchComputer.forward] returns, by its two output
    flags. *)
Inductive SwitchOutput : Type :=
| Outputs (outputs : Tensor)
| OutputsAttention (outputs attention : Tensor)
| OutputsAttentionLogits (outputs attention att_logits : Tensor).

Definition outputs_of (r : SwitchOutput) : Tensor :=
  match r with
  | Outputs o => o
  | OutputsAttention o _ => o
  | OutputsAttentionLogits o _ _ => o
  end.

(** ** The switch core's temperature *)

(** Modelled from the spec: [BareConvSwitch] (models.switched_conv, not in
    the sources) owns the temperature: it is set at construction
    ([initial_temperature]) and changed by [set_attention_temperature]. *)
Module BareConvSwitch.
Record t : Type := mk { temperature : Q }.

Definition __init__ (initial_temperature : Q) : t := mk initial_temperature.

Definition set_attention_temperature (self : t) (temp : Q) : t := mk temp.
End BareConvSwitch.

(** ** ConfigurableSwitchComputer: construction and temperature *)

Module ConfigurableSwitchComputer.

Record t : Type := mk {
  has_pre_transform : bool;
  transform_count : nat;
  add_noise : bool;
  feed_transforms_into_multiplexer : bool;
  noise_scale : Q;
  switch : BareConvSwitch.t;
  switch_scale : Q;
  has_post_transform_block : bool;
  has_post_switch_conv : bool;
  psc_scale : Q;
  update_norm : bool
}.

(** [__init__]: the learned scalars start at 1e-3 (noise), 1 (switch) and
    .1 (post-switch convolution). *)
Definition __init__ (has_pre_transform_block : bool) (transform_count : nat)
    (has_post_transform_block : bool) (init_temp : Q)
    (add_scalable_noise_to_transforms feed_transforms_into_multiplexer
     post_switch_conv : bool) : t :=
  {| has_pre_transform := has_pre_transform_block;
     transform_count := transform_count;
     add_noise := add_scalable_noise_to_transforms;
     feed_transforms_into_multiplexer := feed_transforms_into_multiplexer;
     noise_scale := 1 # 1000;
     switch := BareConvSwitch.__init__ init_temp;
     switch_scale := 1;
     has_post_transform_block := has_post_transform_block;
     has_post_switch_conv := post_switch_conv;
     psc_scale := 1 # 10;
     update_norm := true |}.

Definition set_update_attention_norm (self : t) (set_val : bool) : t :=
  {| has_pre_transform := has_pre_transform self;
     transform_count := transform_count self;
     add_noise := add_noise self;
     feed_transforms_into_multiplexer := feed_transforms_into_multiplexer self;
     noise_scale := noise_scale self;
     switch := switch self;
     switch_scale := switch_scale self;
     has_post_transform_block := has_post_transform_block self;
     has_post_switch_conv := has_post_switch_conv self;
     psc_scale := psc_scale self;
     update_norm := set_val |}.

Definition set_temperature (self : t) (temp : Q) : t :=
  {| has_pre_transform := has_pre_transform self;
     transform_count := transform_count self;
     add_noise := add_noise self;
     feed_transforms_into_multiplexer := feed_transforms_into_multiplexer self;
     noise_scale := noise_scale self;
     switch := BareConvSwitch.set_attention_temperature (switch self) temp;
     switch_scale := switch_scale self;
     has_post_transform_block := has_post_transform_block self;
     has_post_switch_conv := has_post_switch_conv self;
     psc_scale := psc_scale self;
     update_norm := update_norm self |}.

Definition temperature (self : t) : Q := BareConvSwitch.temperature (switch self).

(** The sub-modules of a switching layer. They are built by factories
    passed to the constructor and defined outside the sources, so they
    are parameters of [forward]: the multiplexer, the pre-transform, the
    [i]-th branch transform, the switch core (which reads its
    temperature and returns the mixed output, the attention map and the
    logits), the post-transform block, the post-switch convolution,
    [torch.stack(_, dim=1)], and the samples drawn by
    [torch.randn_like]. *)
Record Modules : Type := mkModules {
  multiplexer : list Tensor -> Tensor;
  pre_transform : list Tensor -> PyArg;
  transform : nat -> list Tensor -> Tensor;
  switch_core : BareConvSwitch.t -> list Tensor -> Tensor -> bool -> Tensor * Tensor * Tensor;
  post_transform_block : Tensor -> Tensor;
  post_switch_conv : Tensor -> Tensor;
  torch_stack : list Tensor -> Tensor;
  randn : nat -> Q
}.

Definition randn_like (M : Modules) (x : Tensor) : Tensor :=
  map (randn M) (seq 0 (length x)).

(** [x[0]] when [x] is a tuple, [x] otherwise. *)
Definition first_element (x : PyArg) : result Tensor :=
  match x with
  | Tuple [] => Raise IndexError
  | Tuple (x0 :: _) => Ok x0
  | Single x0 => Ok x0
  end.

(** [forward]. [checkpoint(f, args)] computes [f(args)], so
    [do_checkpointing] does not change what is computed. *)
Definition forward (M : Modules) (self : t) (x : PyArg) (att_in : option PyArg)
    (identity : option Tensor) (output_attention_weights : bool)
    (fixed_scale : Q) (do_checkpointing output_att_logits : bool)
    : Traced SwitchOutput :=
  x1 ← lift (first_element x);
  let att_in := match att_in with None => x | Some a => a end in
  let identity := match identity with None => x1 | Some i => i end in
  x ← lift (if add_noise self then
              let rand_feature := tensor_scale (randn_like M x1) (noise_scale self) in
              xn ← tensor_add x1 rand_feature;
              match x with
              | Tuple xs => Ok (Tuple (xn :: tail xs))
              | Single _ => Ok (Single xn)
              end
            else Ok x);
  let x := as_tuple x in
  x ← (if has_pre_transform self
       then _ ← tell [CallPreTransform x]; mret (as_tuple (pre_transform M x))
       else mret x);
  _ ← tell (map (fun i => CallTransform i x) (seq 0 (transform_count self)));
  let xformed := map (fun i => transform M i x) (seq 0 (transform_count self)) in
  let att_in := as_tuple att_in in
  let att_in :=
    if feed_transforms_into_multiplexer self
    then att_in ++ [torch_stack M xformed]
    else att_in in
  _ ← tell [CallMultiplexer att_in];
  let m := multiplexer M att_in in
  _ ← tell [CallSwitch xformed m];
  let '(outputs, attention, att_logits) :=
    switch_core M (switch self) xformed m (update_norm self) in
  outputs ← (if has_post_transform_block self
             then _ ← tell [CallPostTransformBlock outputs];
                  mret (post_transform_block M outputs)
             else mret outputs);
  let update := tensor_scale (tensor_scale outputs (switch_scale self)) fixed_scale in
  _ ← tell [ResidualAdd identity update];
  outputs ← lift (tensor_add identity update);
  outputs ← (if has_post_switch_conv self then
               _ ← tell [CallPostSwitchConv outputs];
               lift (tensor_add outputs
                       (tensor_scale
                          (tensor_scale (post_switch_conv M outputs) (psc_scale self))
                          fixed_scale))
             else mret outputs);
  mret (if output_attention_weights then
          if output_att_logits
          then OutputsAttentionLogits outputs attention att_logits
          else OutputsAttention outputs attention
        else Outputs outputs).

End ConfigurableSwitchComputer.

(** ** Truthiness of the attributes tested by [forward]

    Modelled from PyTorch's [nn.Module] (a library, not this repository):
    [training] is the boolean mode flag, [train] is the method
    [train(mode=True)] that sets it. Reading [self.train] yields the bound
    method; Python's truth test of a bound method is [True]. *)
Inductive PyAttr : Type :=
| AttrBool (b : bool)
| AttrBoundMethod (name : string).

Definition truthy (v : PyAttr) : bool :=
  match v with
  | AttrBool b => b
  | AttrBoundMethod _ => true
  end.

(** What the step hook hands to the visualisation sink. *)
Inductive Export : Type :=
| SaveAttentionImage (att : Tensor4D) (step : Z) (i : nat)
| SaveBaseImage (lr : Tensor4D) (step : Z).

(** A value of the debug mapping. *)
Inductive DebugValue : Type :=
| DebugScalar (q : Q)
| DebugHistogram (h : list Z).

(** ** ConfigurableSwitchedResidualGenerator2

    The file defines the class twice; the second definition rebinds the
    name and is the one embedded here. *)

Module ConfigurableSwitchedResidualGenerator2.

Record t : Type := mk {
  initial_conv : ConvBnLelu;
  upconv1 : ConvBnLelu;
  upconv2 : ConvBnLelu;
  hr_conv : ConvBnLelu;
  final_conv : ConvBnLelu;
  switches : list ConfigurableSwitchComputer.t;
  transformation_counts : Z;
  init_temperature : Q;
  final_temperature_step : Z;
  heightened_temp_min : Q;
  heightened_final_step : Z;
  attentions : option (list Tensor4D);
  upsample_factor : Z;
  lr : option Tensor4D;
  training : bool
}.

(** [nn.Module.train] and [nn.Module.training] as attributes of [self]. *)
Definition attr_train (self : t) : PyAttr := AttrBoundMethod "train".
Definition attr_training (self : t) : PyAttr := AttrBool (training self).

(** [nn.Module.eval()] / [nn.Module.train(mode)]: set the mode flag. *)
Definition set_training (self : t) (mode : bool) : t :=
  mk (initial_conv self) (upconv1 self) (upconv2 self) (hr_conv self)
     (final_conv self) (switches self) (transformation_counts self)
     (init_temperature self) (final_temperature_step self)
     (heightened_temp_min self) (heightened_final_step self)
     (attentions self) (upsample_factor self) (lr self) mode.

Definition set_switches (self : t) (sws : list ConfigurableSwitchComputer.t) : t :=
  mk (initial_conv self) (upconv1 self) (upconv2 self) (hr_conv self)
     (final_conv self) sws (transformation_counts self)
     (init_temperature self) (final_temperature_step self)
     (heightened_temp_min self) (heightened_final_step self)
     (attentions self) (upsample_factor self) (lr self) (training self).

Definition set_attentions (self : t) (atts : option (list Tensor4D)) : t :=
  mk (initial_conv self) (upconv1 self) (upconv2 self) (hr_conv self)
     (final_conv self) (switches self) (transformation_counts self)
     (init_temperature self) (final_temperature_step self)
     (heightened_temp_min self) (heightened_final_step self)
     atts (upsample_factor self) (lr self) (training self).

Definition set_lr (self : t) (x : option Tensor4D) : t :=
  mk (initial_conv self) (upconv1 self) (upconv2 self) (hr_conv self)
     (final_conv self) (switches self) (transformation_counts self)
     (init_temperature self) (final_temperature_step self)
     (heightened_temp_min self) (heightened_final_step self)
     (attentions self) (upsample_factor self) x (training self).

(** [__init__]. The arguments that only shape the multiplexer and the
    branch transforms ([switch_filters], [switch_reductions],
    [switch_processing_layers], [trans_kernel_sizes], [trans_layers],
    [attention_norm]) go to constructors outside the sources and leave
    no trace in the fields modelled here. The assertion on
    [upsample_factor] is the last statement. *)
Definition __init__ (switch_depth switch_filters switch_reductions
    switch_processing_layers trans_counts trans_kernel_sizes trans_layers
    transformation_filters : Z) (attention_norm : bool) (initial_temp : Q)
    (final_temperature_step : Z) (heightened_temp_min : Q)
    (heightened_final_step upsample_factor : Z)
    (add_scalable_noise_to_transforms : bool) : result t :=
  let switches :=
    replicate (Z.to_nat switch_depth)
      (ConfigurableSwitchComputer.__init__ true (Z.to_nat trans_counts) false
         initial_temp add_scalable_noise_to_transforms false true) in
  let self :=
    {| initial_conv := mkConvBnLelu 3 transformation_filters 7;
       upconv1 := mkConvBnLelu transformation_filters transformation_filters 3;
       upconv2 := mkConvBnLelu transformation_filters transformation_filters 3;
       hr_conv := mkConvBnLelu transformation_filters transformation_filters 3;
       final_conv := mkConvBnLelu transformation_filters 3 3;
       switches := switches;
       transformation_counts := trans_counts;
       init_temperature := initial_temp;
       final_temperature_step := final_temperature_step;
       heightened_temp_min := heightened_temp_min;
       heightened_final_step := heightened_final_step;
       attentions := None;
       upsample_factor := upsample_factor;
       lr := None;
       training := true |} in
  if (upsample_factor =? 2) || (upsample_factor =? 4)
  then Ok self
  else Raise AssertionError.

(** [set_temperature]: one call per switch. *)
Definition set_temperature (self : t) (temp : Q) : t :=
  set_switches self
    (map (fun sw => ConfigurableSwitchComputer.set_temperature sw temp)
         (switches self)).

(** Truth value of [self.attentions]: [None] and the empty list are
    false. *)
Definition attentions_truthy (self : t) : bool :=
  match attentions self with
  | None => false
  | Some [] => false
  | Some (_ :: _) => true
  end.

(** The temperature computed by [update_for_step] (the body of its
    [if self.attentions:] up to the call of [set_temperature]). *)
Definition scheduled_temperature (self : t) (step : Z) : result Q :=
  q ← py_div (init_temperature self * inject_Z (final_temperature_step self - step))
             (inject_Z (final_temperature_step self));
  let temp := Qmax 1 (1 + q) in
  if Qeq_bool temp 1
     && negb (heightened_final_step self =? 0)
     && (final_temperature_step self <? step)
     && negb (heightened_final_step self =? 1)
  then
    let h_steps_total := heightened_final_step self - final_temperature_step self in
    let h_steps_current := Z.min (step - final_temperature_step self) h_steps_total in
    h_gap ← py_div 1 (heightened_temp_min self);
    temp ← py_div (h_gap * inject_Z h_steps_current) (inject_Z h_steps_total);
    py_div 1 temp
  else Ok temp.

(** The diagnostics written every 100 steps. *)
Definition exports (self : t) (step : Z) : list Export :=
  if py_mod_is_zero step 100 then
    match attentions self with
    | Some atts =>
        imap (fun i att => SaveAttentionImage att step i) atts
        ++ match lr self with
           | Some x => [SaveBaseImage x step]
           | None => []
           end
    | None => []
    end
  else [].

Definition update_for_step (self : t) (step : Z) : result (t * list Export) :=
  if attentions_truthy self then
    temp ← scheduled_temperature self step;
    let self := set_temperature self temp in
    Ok (self, exports self step)
  else Ok (self, []).

Section Forward.

(** The call [checkpoint(sw, x)] of one switch computer, on shapes: it
    returns the layer's output and its attention map. Its parts (branch
    transforms, multiplexer, switch core) are outside the sources, so it
    is a parameter here. The attention-norm accumulator that the switch
    core updates on every pass belongs to those parts and is not part of
    the state threaded here. *)
Variable switch_forward :
  ConfigurableSwitchComputer.t -> Tensor4D -> result (Tensor4D * Tensor4D).

(** Modelled from the spec: [compute_attention_specificity]
    (models.switched_conv, not in the sources) returns a specificity
    scalar and an occupancy histogram for one attention map. *)
Variable compute_attention_specificity : Tensor4D -> Z -> Q * list Z.

(** The statement
    [if not self.train: assert self.switches[0].switch.temperature == 1]. *)
Definition eval_temperature_guard (self : t) : result unit :=
  if negb (truthy (attr_train self)) then
    match switches self with
    | [] => Raise IndexError
    | sw0 :: _ =>
        if Qeq_bool (ConfigurableSwitchComputer.temperature sw0) 1
        then Ok tt
        else Raise AssertionError
    end
  else Ok tt.

(** The loop over the switches: [self.attentions] grows by one map per
    layer, and keeps what it has when a layer raises. *)
Fixpoint run_switches (sws : list ConfigurableSwitchComputer.t)
    (x : Tensor4D) (atts : list Tensor4D) : list Tensor4D * result Tensor4D :=
  match sws with
  | [] => (atts, Ok x)
  | sw :: rest =>
      match switch_forward sw x with
      | Ok (x', att) => run_switches rest x' (atts ++ [att])
      | Raise e => (atts, Raise e)
      end
  end.

(** The tail of [forward]: upsampling and output convolutions. *)
Definition upsample_tail (self : t) (x : Tensor4D) : result Tensor4D :=
  x ← ConvBnLelu_forward (upconv1 self) (F_interpolate x 2);
  let x := if 2 <? upsample_factor self then F_interpolate x 2 else x in
  x ← ConvBnLelu_forward (upconv2 self) x;
  x ← ConvBnLelu_forward (hr_conv self) x;
  ConvBnLelu_forward (final_conv self) x.

(** [forward]: returns the mutated [self] together with the output or
    the exception. *)
Definition forward (self : t) (x : Tensor4D) : t * result Tensor4D :=
  let self := set_lr self (Some x) in
  match eval_temperature_guard self with
  | Raise e => (self, Raise e)
  | Ok _ =>
      match ConvBnLelu_forward (initial_conv self) x with
      | Raise e => (self, Raise e)
      | Ok x =>
          let '(atts, r) := run_switches (switches self) x [] in
          let self := set_attentions self (Some atts) in
          (self, x ← r; upsample_tail self x)
      end
  end.

(** [get_debug_values(step, net_name)]. *)
Definition get_debug_values (self : t) (step : Z) (net_name : string)
    : result (gmap string DebugValue) :=
  temp ← match switches self with
         | [] => Raise IndexError
         | sw0 :: _ => Ok (ConfigurableSwitchComputer.temperature sw0)
         end;
  mean_hists ← match attentions self with
               | None => Raise (TypeError "'NoneType' object is not iterable")
               | Some atts => Ok (map (fun att => compute_attention_specificity att 2) atts)
               end;
  let means := map fst mean_hists in
  let hists := map snd mean_hists in
  let val : gmap string DebugValue := {[ "switch_temperature" := DebugScalar temp ]} in
  Ok (foldl (fun (val : gmap string DebugValue) i =>
               match means !! i, hists !! i with
               | Some m, Some h =>
                   <[ "switch_" +:+ pretty i +:+ "_histogram" := DebugHistogram h ]>
                     (<[ "switch_" +:+ pretty i +:+ "_specificity" := DebugScalar m ]> val)
               | _, _ => val
               end)
            val (seq 0 (length means))).

End Forward.

End ConfigurableSwitchedResidualGenerator2.

(** ** Query/key multiplexers

    A feature map of one batch sample is an element of an abstract type
    [Feat]; a 4-D tensor is the list of its samples, a 5-D tensor
    [(b, t, f, h, w)] is [b] rows of [t] samples. *)

Module QueryKey.
Section Blocks.

(** Modelled from the spec: the basis block [ConvGnSilu] (convolution,
    optional group normalisation, activation; models.arch_util, not in the
    sources) is a deterministic function that treats every sample of the
    batch on its own, so a block is given by its action on one sample of
    type [Feat] and is applied to a batch sample by sample.
    [HalvingProcessingBlock] is built from two such blocks;
    [ExpansionBlock2] takes the running tensor and a skip tensor. *)
Variable Feat : Type.

Definition Batch : Type := list Feat.

Record Tensor5D : Type := mkTensor5D {
  dim_b : nat;
  dim_t : nat;
  rows : list (list Feat)
}.

(** A 5-D tensor is rectangular. *)
Definition wf5 (T : Tensor5D) : Prop :=
  length (rows T) = dim_b T /\ Forall (fun r => length r = dim_t T) (rows T).

(** [torch.cat([a, b], dim=1)]: channel concatenation, sample by sample;
    [cat1] joins the channels of two samples. *)
Variable cat1 : Feat -> Feat -> Feat.

Definition torch_cat (a b : Batch) : result Batch :=
  if (length a =? length b)%nat
  then Ok (zip_with cat1 a b)
  else Raise (RuntimeError "Sizes of tensors must match except in dimension 1").

(** [T.view(b * t, f, h, w)]. *)
Definition view_flat (T : Tensor5D) : Batch := concat (rows T).

(** [q.view(b, 1, f, h, w).repeat(1, t, 1, 1, 1).view(b * t, f, h, w)]
    for a [q] whose samples have the shape [(f, h, w)]: the first view
    then needs [q] to have [b] samples. (torch compares element counts
    only; a [q] of another batch size whose samples are as much larger is
    regrouped by the view, which abstract samples cannot express.) *)
Definition view_repeat (q : Batch) (b t : nat) : result Batch :=
  if (length q =? b)%nat
  then Ok (flat_map (replicate t) q)
  else Raise (RuntimeError "shape is invalid for input size").

(** [v.view(b, t, h, w)]: [b] rows of [t] entries. *)
Fixpoint view_rows (b t : nat) (v : Batch) : list (list Feat) :=
  match b with
  | O => []
  | S b' => take t v :: view_rows b' t (drop t v)
  end.

Definition view_bt (v : Batch) (b t : nat) : result Tensor5D :=
  if (length v =? b * t)%nat
  then Ok (mkTensor5D b t (view_rows b t v))
  else Raise (RuntimeError "shape is invalid for input size").

(** The loop that records the skip tensors:
    [for b in reduction_blocks: reduction_identities.append(q); q = b(q)]. *)
Fixpoint reduce (blocks : list (Feat -> Feat)) (q : Batch)
    (reduction_identities : list Batch) : Batch * list Batch :=
  match blocks with
  | [] => (q, reduction_identities)
  | b :: rest => reduce rest (map b q) (reduction_identities ++ [q])
  end.

(** [reduction_identities[-i - 1]]. *)
Definition from_end (ids : list Batch) (i : nat) : result Batch :=
  match rev ids !! i with
  | Some s => Ok s
  | None => Raise IndexError
  end.

(** An expansion block on a batch: sample by sample on the running
    tensor and its skip tensor. *)
Definition expansion_apply (b : Feat -> Feat -> Feat) (q skip : Batch) : result Batch :=
  if (length q =? length skip)%nat
  then Ok (zip_with b q skip)
  else Raise (RuntimeError "batch mismatch").

(** [for i, b in enumerate(expansion_blocks):
       q = b(q, reduction_identities[-i - 1])]. *)
Fixpoint expand (blocks : list (Feat -> Feat -> Feat)) (i : nat) (q : Batch)
    (ids : list Batch) : result Batch :=
  match blocks with
  | [] => Ok q
  | b :: rest =>
      skip ← from_end ids i;
      q ← expansion_apply b q skip;
      expand rest (S i) q ids
  end.

Record QueryKeyMultiplexer : Type := mkQueryKeyMultiplexer {
  qk_input_process : Feat -> Feat;
  qk_embedding_process : Feat -> Feat;
  qk_reduction_blocks : list (Feat -> Feat);
  qk_processing_blocks : Feat -> Feat;
  qk_expansion_blocks : list (Feat -> Feat -> Feat);
  qk_key_process : Feat -> Feat;
  qk_query_key_combine : Feat -> Feat;
  qk_cbl1 : Feat -> Feat;
  qk_cbl2 : Feat -> Feat
}.

Definition QueryKeyMultiplexer_forward (self : QueryKeyMultiplexer)
    (x embedding : Batch) (transformations : Tensor5D) : result Tensor5D :=
  let q := map (qk_input_process self) x in
  let embedding := map (qk_embedding_process self) embedding in
  let '(q, reduction_identities) := reduce (qk_reduction_blocks self) q [] in
  qe ← torch_cat q embedding;
  let q := map (qk_processing_blocks self) qe in
  q ← expand (qk_expansion_blocks self) 0 q reduction_identities;
  let b := dim_b transformations in
  let t := dim_t transformations in
  let k := view_flat transformations in
  let k := map (qk_key_process self) k in
  q ← view_repeat q b t;
  qk ← torch_cat q k;
  let v := map (qk_query_key_combine self) qk in
  let v := map (qk_cbl1 self) v in
  let v := map (qk_cbl2 self) v in
  view_bt v b t.

Record QueryKeyPyramidMultiplexer : Type := mkQueryKeyPyramidMultiplexer {
  qkp_input_process : Feat -> Feat;
  qkp_reduction_blocks : list (Feat -> Feat);
  qkp_processing_blocks : Feat -> Feat;
  qkp_expansion_blocks : list (Feat -> Feat -> Feat);
  qkp_key_process : Feat -> Feat;
  qkp_query_key_combine : Feat -> Feat;
  qkp_cbl0 : Feat -> Feat;
  qkp_cbl1 : Feat -> Feat;
  qkp_cbl2 : Feat -> Feat
}.

Definition QueryKeyPyramidMultiplexer_forward (self : QueryKeyPyramidMultiplexer)
    (x : Batch) (transformations : Tensor5D) : result Tensor5D :=
  let q := map (qkp_input_process self) x in
  let '(q, reduction_identities) := reduce (qkp_reduction_blocks self) q [] in
  let q := map (qkp_processing_blocks self) q in
  q ← expand (qkp_expansion_blocks self) 0 q reduction_identities;
  let b := dim_b transformations in
  let t := dim_t transformations in
  let k := view_flat transformations in
  let k := map (qkp_key_process self) k in
  q ← view_repeat q b t;
  qk ← torch_cat q k;
  let v := map (qkp_query_key_combine self) qk in
  let v := map (qkp_cbl0 self) v in
  let v := map (qkp_cbl1 self) v in
  let v := map (qkp_cbl2 self) v in
  view_bt v b t.

(** Reordering the branch axis: entry [j] of every row of the result is
    entry [p !! j] of the row it comes from. *)
Definition select (p : list nat) (row : list Feat) : list Feat :=
  omap (fun j => row !! j) p.

Definition permute_branches (p : list nat) (T : Tensor5D) : Tensor5D :=
  mkTensor5D (dim_b T) (dim_t T) (map (select p) (rows T)).

(** The logits of one row: the query of the sample against each of its
    branches, through a key block [key] and a head [g]. *)
Definition row_scores (g : Feat -> Feat) (key : Feat -> Feat) (qi : Feat)
    (row : list Feat) : list Feat :=
  map (fun k => g (cat1 qi (key k))) row.

(** The part of both [forward]s after the query is built, with the head
    of blocks [F] applied to the concatenated batch. *)
Definition score_tail (F : Batch -> Batch) (key : Feat -> Feat)
    (q : Batch) (T : Tensor5D) : result Tensor5D :=
  q ← view_repeat q (dim_b T) (dim_t T);
  qk ← torch_cat q (map key (view_flat T));
  view_bt (F qk) (dim_b T) (dim_t T).

End Blocks.

Arguments mkTensor5D {Feat} dim_b dim_t rows.
Arguments dim_b {Feat} t.
Arguments dim_t {Feat} t.
Arguments rows {Feat} t.
Arguments wf5 {Feat} T.
Arguments torch_cat {Feat} cat1 a b.
Arguments view_flat {Feat} T.
Arguments view_repeat {Feat} q b t.
Arguments view_rows {Feat} b t v.
Arguments view_bt {Feat} v b t.
Arguments reduce {Feat} blocks q reduction_identities.
Arguments expand {Feat} blocks i q ids.
Arguments select {Feat} p row.
Arguments permute_branches {Feat} p T.
Arguments row_scores {Feat} cat1 g key qi row.
Arguments score_tail {Feat} cat1 F key q T.
Arguments QueryKeyMultiplexer_forward {Feat} cat1 self x embedding transformations.
Arguments QueryKeyPyramidMultiplexer_forward {Feat} cat1 self x transformations.

End QueryKey.

(** ** The registration entry point

    [register_ConfigurableSwitchedResidualGenerator2(opt_net, opt)] is one
    call expression with keyword arguments. Python evaluates the argument
    expressions from left to right, then binds the keywords to the
    parameters of [__init__], then runs [__init__]. *)

Module Registration.

Inductive PyVal : Type :=
| VNone
| VBool (b : bool)
| VInt (z : Z)
| VFloat (q : Q)
| VStr (s : string).

(** The two forms of argument expression in the call. *)
Inductive Expr : Type :=
| Subscript (key : string)      (* opt_net[key] *)
| Name (name : string).         (* a bare name *)

(** The names bound at module level by the imports and definitions of
    the file. *)
Definition module_names : list string :=
  [ "functools"; "os"; "OrderedDict"; "torch"; "F"; "torchvision"; "nn";
    "ConvBnLelu"; "ConvGnSilu"; "ExpansionBlock"; "ExpansionBlock2";
    "MultiConvBlock"; "BareConvSwitch"; "compute_attention_specificity";
    "AttentionNorm"; "save_attention_to_image_rgb"; "register_model";
    "checkpoint"; "HalvingProcessingBlock"; "ConvBasisMultiplexer";
    "gather_2d"; "ConfigurableSwitchComputer";
    "ConfigurableSwitchedResidualGenerator2"; "ReferenceImageBranch";
    "EmbeddingMultiplexer"; "QueryKeyMultiplexer";
    "QueryKeyPyramidMultiplexer"; "SwitchModelBase";
    "register_ConfigurableSwitchedResidualGenerator2" ].

(** The parameters of the registration function. *)
Definition local_names : list string := [ "opt_net"; "opt" ].

(** The names a bare name in the body can resolve to. *)
Definition names_in_scope : list string := local_names ++ module_names.

(** The keyword arguments of the call, in source order. *)
Definition call_keywords : list (string * Expr) :=
  [ ("switch_depth", Subscript "switch_depth");
    ("switch_filters", Subscript "switch_filters");
    ("switch_reductions", Subscript "switch_reductions");
    ("switch_processing_layers", Subscript "switch_processing_layers");
    ("trans_counts", Subscript "trans_counts");
    ("trans_kernel_sizes", Subscript "trans_kernel_sizes");
    ("trans_layers", Subscript "trans_layers");
    ("transformation_filters", Subscript "transformation_filters");
    ("attention_norm", Subscript "attention_norm");
    ("initial_temp", Subscript "temperature");
    ("final_temperature_step", Subscript "temperature_final_step");
    ("heightened_temp_min", Subscript "heightened_temp_min");
    ("heightened_final_step", Subscript "heightened_final_step");
    ("upsample_factor", Name "scale");
    ("add_scalable_noise_to_transforms", Subscript "add_noise");
    ("for_video", Subscript "for_video") ].

(** The parameters of [__init__] after [self], with their defaults. *)
Definition init_params : list (string * option PyVal) :=
  [ ("switch_depth", None);
    ("switch_filters", None);
    ("switch_reductions", None);
    ("switch_processing_layers", None);
    ("trans_counts", None);
    ("trans_kernel_sizes", None);
    ("trans_layers", None);
    ("transformation_filters", None);
    ("attention_norm", None);
    ("initial_temp", Some (VInt 20));
    ("final_temperature_step", Some (VInt 50000));
    ("heightened_temp_min", Some (VInt 1));
    ("heightened_final_step", Some (VInt 50000));
    ("upsample_factor", Some (VInt 1));
    ("add_scalable_noise_to_transforms", Some (VBool false)) ].

Definition param_names : list string := map fst init_params.

(** Evaluation of one argument expression. [globals] holds the values of
    the bare names that are bound when the function runs. *)
Definition eval_expr (globals opt_net : gmap string PyVal) (e : Expr) : result PyVal :=
  match e with
  | Subscript key =>
      match opt_net !! key with
      | Some v => Ok v
      | None => Raise (KeyError key)
      end
  | Name name =>
      match globals !! name with
      | Some v => Ok v
      | None => Raise (NameError name)
      end
  end.

Definition eval_keywords (globals opt_net : gmap string PyVal)
    (kws : list (string * Expr)) : result (list (string * PyVal)) :=
  mapM (fun kw => v ← eval_expr globals opt_net (snd kw); Ok (fst kw, v)) kws.

(** Binding keywords to parameters: a keyword that names no parameter is
    a [TypeError]; so is a parameter without default that gets no
    value. *)
Fixpoint check_keywords (kws : list (string * PyVal)) : result unit :=
  match kws with
  | [] => Ok tt
  | (k, _) :: rest =>
      if bool_decide (k ∈ param_names)
      then check_keywords rest
      else Raise (TypeError ("__init__() got an unexpected keyword argument " +:+ k))
  end.

Definition bind_param (kws : list (string * PyVal)) (p : string * option PyVal)
    : result (string * PyVal) :=
  match list_find (fun kw => fst kw = fst p) kws with
  | Some (_, (_, v)) => Ok (fst p, v)
  | None =>
      match snd p with
      | Some d => Ok (fst p, d)
      | None => Raise (TypeError ("__init__() missing required argument " +:+ fst p))
      end
  end.

Definition bind_keywords (kws : list (string * PyVal)) : result (gmap string PyVal) :=
  _ ← check_keywords kws;
  bound ← mapM (bind_param kws) init_params;
  Ok (list_to_map bound).

(** Numbers and flags as [__init__] uses them. *)
Definition as_int (v : PyVal) : result Z :=
  match v with
  | VInt z => Ok z
  | VBool b => Ok (if b then 1 else 0)
  | _ => Raise (TypeError "an integer is required")
  end.

Definition as_number (v : PyVal) : result Q :=
  match v with
  | VInt z => Ok (inject_Z z)
  | VFloat q => Ok q
  | VBool b => Ok (if b then 1 else 0)%Q
  | _ => Raise (TypeError "a number is required")
  end.

Definition as_bool (v : PyVal) : bool :=
  match v with
  | VNone => false
  | VBool b => b
  | VInt z => negb (z =? 0)
  | VFloat q => negb (Qeq_bool q 0)
  | VStr s => negb (String.eqb s "")
  end.

Definition arg (bound : gmap string PyVal) (name : string) : result PyVal :=
  match bound !! name with
  | Some v => Ok v
  | None => Raise (TypeError ("unbound parameter " +:+ name))
  end.

Definition construct (bound : gmap string PyVal)
    : result ConfigurableSwitchedResidualGenerator2.t :=
  switch_depth ← arg bound "switch_depth" ≫= as_int;
  switch_filters ← arg bound "switch_filters" ≫= as_int;
  switch_reductions ← arg bound "switch_reductions" ≫= as_int;
  switch_processing_layers ← arg bound "switch_processing_layers" ≫= as_int;
  trans_counts ← arg bound "trans_counts" ≫= as_int;
  trans_kernel_sizes ← arg bound "trans_kernel_sizes" ≫= as_int;
  trans_layers ← arg bound "trans_layers" ≫= as_int;
  transformation_filters ← arg bound "transformation_filters" ≫= as_int;
  attention_norm ← arg bound "attention_norm";
  initial_temp ← arg bound "initial_temp" ≫= as_number;
  final_temperature_step ← arg bound "final_temperature_step" ≫= as_int;
  heightened_temp_min ← arg bound "heightened_temp_min" ≫= as_number;
  heightened_final_step ← arg bound "heightened_final_step" ≫= as_int;
  upsample_factor ← arg bound "upsample_factor" ≫= as_int;
  add_noise ← arg bound "add_scalable_noise_to_transforms";
  ConfigurableSwitchedResidualGenerator2.__init__ switch_depth switch_filters
    switch_reductions switch_processing_layers trans_counts trans_kernel_sizes
    trans_layers transformation_filters (as_bool attention_norm) initial_temp
    final_temperature_step heightened_temp_min heightened_final_step
    upsample_factor (as_bool add_noise).

Definition register_ConfigurableSwitchedResidualGenerator2
    (globals opt_net opt : gmap string PyVal)
    : result ConfigurableSwitchedResidualGenerator2.t :=
  kws ← eval_keywords globals opt_net call_keywords;
  bound ← bind_keywords kws;
  construct bound.

End Registration.

(** ** SwitchModelBase *)

Module SwitchModelBase.

Record t : Type := mk {
  switches : list ConfigurableSwitchComputer.t;
  attentions : list Tensor4D;
  lr : option Tensor4D;
  init_temperature : Q;
  final_temperature_step : Z
}.

Definition __init__ (init_temperature : Q) (final_temperature_step : Z) : t :=
  {| switches := [];
     attentions := [];
     lr := None;
     init_temperature := init_temperature;
     final_temperature_step := final_temperature_step |}.

Definition set_temperature (self : t) (temp : Q) : t :=
  {| switches := map (fun sw => ConfigurableSwitchComputer.set_temperature sw temp)
                     (switches self);
     attentions := attentions self;
     lr := lr self;
     init_temperature := init_temperature self;
     final_temperature_step := final_temperature_step self |}.

(** [update_for_step]. The all-reduce [sw.switch.reduce_norm_params()]
    that opens it works on the accumulator of the attention norm, which
    is outside the sources and not part of the state modelled here. *)
Definition update_for_step (self : t) (step : Z) : result (t * list Export) :=
  q ← py_div (init_temperature self * inject_Z (final_temperature_step self - step))
             (inject_Z (final_temperature_step self));
  let temp := Qmax 1 (1 + q) in
  let self := set_temperature self temp in
  Ok (self,
      if py_mod_is_zero step 100 then
        imap (fun i att => SaveAttentionImage att step i) (attentions self)
        ++ match lr self with
           | Some x => [SaveBaseImage x step]
           | None => []
           end
      else []).

(** [tensor.long()] on one entry: truncation towards zero. *)
Definition to_long (q : Q) : Z := Z.quot (Qnum q) (Zpos (Qden q)).

(** [bins.repeat_interleave(repeats, 0)]: entry [i] of [bins] repeated
    [repeats[i]] times; a negative count is an error. *)
Definition repeat_interleave (bins : list nat) (repeats : list Z) : result (list nat) :=
  if forallb (fun r => 0 <=? r) repeats
  then Ok (concat (zip_with (fun b r => replicate (Z.to_nat r) b) bins repeats))
  else Raise (RuntimeError "repeats can not be negative").

(** The body of the loop of [compute_anorm_histogram] for one intensity
    tensor. *)
Definition anorm_histogram (intensity : list Q) : result (list nat) :=
  let intensity := map (fun v => v * 10)%Q intensity in
  let bins := seq 0 (length intensity) in
  let intensity := map to_long intensity in
  repeat_interleave bins intensity.

Section Norm.

(** Modelled from the spec: [attention_norm.compute_buffer_norm()]
    (models.switched_conv, not in the sources) returns the per-branch
    occupancy kept by the attention normalizer of a switch. *)
Variable compute_buffer_norm : ConfigurableSwitchComputer.t -> list Q.

Definition compute_anorm_histogram (self : t) : result (list (list nat)) :=
  mapM (fun sw => anorm_histogram (compute_buffer_norm sw)) (switches self).

End Norm.

End SwitchModelBase.

(** ** ConvBasisMultiplexer and EmbeddingMultiplexer

    Same representation as for the query/key multiplexers: a block is
    given by its action on one sample, a batch is the list of its
    samples. *)

Module Multiplexers.
Section Blocks.

Variable Feat : Type.
Variable cat1 : Feat -> Feat -> Feat.

Record ConvBasisMultiplexer : Type := mkConvBasisMultiplexer {
  cb_filter_conv : Feat -> Feat;
  cb_reduction_blocks : list (Feat -> Feat);
  cb_processing_blocks : Feat -> Feat;
  cb_expansion_blocks : list (Feat -> Feat -> Feat);
  cb_cbl1 : Feat -> Feat;
  cb_cbl2 : Feat -> Feat;
  cb_cbl3 : Feat -> Feat
}.

Definition ConvBasisMultiplexer_forward (self : ConvBasisMultiplexer)
    (x : list Feat) : result (list Feat) :=
  let x := map (cb_filter_conv self) x in
  let '(x, reduction_identities) := QueryKey.reduce (cb_reduction_blocks self) x [] in
  let x := map (cb_processing_blocks self) x in
  x ← QueryKey.expand (cb_expansion_blocks self) 0 x reduction_identities;
  let x := map (cb_cbl1 self) x in
  let x := map (cb_cbl2 self) x in
  let x := map (cb_cbl3 self) x in
  Ok x.

Record EmbeddingMultiplexer : Type := mkEmbeddingMultiplexer {
  em_embedding_process : Feat -> Feat;
  em_filter_conv : Feat -> Feat;
  em_reduction_blocks : list (Feat -> Feat);
  em_processing_blocks : Feat -> Feat;
  em_expansion_blocks : list (Feat -> Feat -> Feat);
  em_cbl1 : Feat -> Feat;
  em_cbl2 : Feat -> Feat;
  em_cbl3 : Feat -> Feat
}.

Definition EmbeddingMultiplexer_forward (self : EmbeddingMultiplexer)
    (x embedding : list Feat) : result (list Feat) :=
  let x := map (em_filter_conv self) x in
  let embedding := map (em_embedding_process self) embedding in
  let '(x, reduction_identities) := QueryKey.reduce (em_reduction_blocks self) x [] in
  xe ← QueryKey.torch_cat cat1 x embedding;
  let x := map (em_processing_blocks self) xe in
  x ← QueryKey.expand (em_expansion_blocks self) 0 x reduction_identities;
  let x := map (em_cbl1 self) x in
  let x := map (em_cbl2 self) x in
  let x := map (em_cbl3 self) x in
  Ok x.

(** The encoder on one sample: the reduction blocks one after the
    other. *)
Definition descend (reds : list (Feat -> Feat)) (v : Feat) : Feat :=
  fold_left (fun acc r => r acc) reds v.

(** The skip tensors the encoder records, outermost first. *)
Fixpoint skips (reds : list (Feat -> Feat)) (x : list Feat) : list (list Feat) :=
  match reds with
  | [] => []
  | r :: reds' => x :: skips reds' (map r x)
  end.

(** The decoder on one sample, as a nest: [bottom] is the bottleneck
    value, [v] the input of the encoder; the expansion block that is
    paired with the outermost reduction block is applied last, on that
    block's input. [exps_rev] lists the expansion blocks last first. *)
Fixpoint climb (reds : list (Feat -> Feat)) (exps_rev : list (Feat -> Feat -> Feat))
    (v bottom : Feat) : Feat :=
  match reds, exps_rev with
  | r :: reds', e :: exps' => e (climb reds' exps' (r v) bottom) v
  | _, _ => bottom
  end.

(** The U-net on one sample with [core] at the bottleneck. *)
Definition unet (reds : list (Feat -> Feat)) (exps : list (Feat -> Feat -> Feat))
    (core : Feat -> Feat) (v : Feat) : Feat :=
  climb reds (rev exps) v (core (descend reds v)).

End Blocks.

Arguments mkConvBasisMultiplexer {Feat}.
Arguments ConvBasisMultiplexer_forward {Feat}.
Arguments mkEmbeddingMultiplexer {Feat}.
Arguments EmbeddingMultiplexer_forward {Feat}.
Arguments descend {Feat}.
Arguments skips {Feat}.
Arguments climb {Feat}.
Arguments unet {Feat}.

End Multiplexers.

(** ** Channel counts fixed by the constructors

    Modelled from the spec: the basis block [ConvGnSilu] (models.arch_util,
    not in the sources) has known input/output channel semantics: built
    for [gn_in] input channels, it returns [gn_out] channels and rejects
    any other input. *)

Module Channels.

Record ConvGnSilu : Type := mkConvGnSilu {
  gn_in : Z;
  gn_out : Z
}.

Definition ConvGnSilu_forward (c : ConvGnSilu) (channels : Z) : result Z :=
  if channels =? gn_in c
  then Ok (gn_out c)
  else Raise (RuntimeError "channel mismatch").

(** [HalvingProcessingBlock]: a stride-2 block that doubles the filter
    count, then a block that keeps it. *)
Record HalvingProcessingBlock : Type := mkHalvingProcessingBlock {
  bnconv1 : ConvGnSilu;
  bnconv2 : ConvGnSilu
}.

Definition HalvingProcessingBlock_init (filters : Z) : HalvingProcessingBlock :=
  {| bnconv1 := mkConvGnSilu filters (filters * 2);
     bnconv2 := mkConvGnSilu (filters * 2) (filters * 2) |}.

Definition HalvingProcessingBlock_forward (self : HalvingProcessingBlock)
    (x : Z) : result Z :=
  x ← ConvGnSilu_forward (bnconv1 self) x;
  ConvGnSilu_forward (bnconv2 self) x.

(** A layer of an [nn.Sequential] stack. *)
Inductive Layer : Type :=
| Conv (c : ConvGnSilu)
| Halving (h : HalvingProcessingBlock).

Definition Layer_forward (l : Layer) (x : Z) : result Z :=
  match l with
  | Conv c => ConvGnSilu_forward c x
  | Halving h => HalvingProcessingBlock_forward h x
  end.

(** [nn.Sequential]: the layers one after the other. *)
Fixpoint Sequential_forward (layers : list Layer) (x : Z) : result Z :=
  match layers with
  | [] => Ok x
  | l :: rest => y ← Layer_forward l x; Sequential_forward rest y
  end.

(** The [features] stack built by [ReferenceImageBranch.__init__]. *)
Definition ReferenceImageBranch_features (base_filters : Z) : list Layer :=
  [ Conv (mkConvGnSilu 4 base_filters);
    Halving (HalvingProcessingBlock_init base_filters);
    Conv (mkConvGnSilu (base_filters * 2) (base_filters * 2));
    Halving (HalvingProcessingBlock_init (base_filters * 2));
    Conv (mkConvGnSilu (base_filters * 4) (base_filters * 4));
    Halving (HalvingProcessingBlock_init (base_filters * 4));
    Conv (mkConvGnSilu (base_filters * 8) (base_filters * 8));
    Conv (mkConvGnSilu (base_filters * 8) (base_filters * 8)) ].

(** What [ConvBasisMultiplexer.__init__] builds, by channel counts;
    [expansion_filters] are the arguments given to the expansion blocks.
    [reductions] and [processing_depth] are the lengths of two [range]s. *)
Record ConvBasisMultiplexer : Type := mkConvBasisMultiplexer {
  filter_conv : ConvGnSilu;
  reduction_blocks : list HalvingProcessingBlock;
  processing_blocks : list ConvGnSilu;
  expansion_filters : list Z;
  cbl1 : ConvGnSilu;
  cbl2 : ConvGnSilu;
  cbl3 : ConvGnSilu
}.

Definition ConvBasisMultiplexer_init (input_channels base_filters : Z)
    (reductions processing_depth : nat) (multiplexer_channels : Z)
    : ConvBasisMultiplexer :=
  let reduction_filters := base_filters * 2 ^ Z.of_nat reductions in
  let gap := base_filters - multiplexer_channels in
  let cbl1_out := ((base_filters - (gap / 2)) / 4) * 4 in
  let cbl2_out := ((base_filters - (3 * gap / 4)) / 4) * 4 in
  {| filter_conv := mkConvGnSilu input_channels base_filters;
     reduction_blocks :=
       map (fun i => HalvingProcessingBlock_init (base_filters * 2 ^ Z.of_nat i))
           (seq 0 reductions);
     processing_blocks :=
       map (fun _ => mkConvGnSilu reduction_filters reduction_filters)
           (seq 0 processing_depth);
     expansion_filters :=
       map (fun i => reduction_filters / 2 ^ Z.of_nat i) (seq 0 reductions);
     cbl1 := mkConvGnSilu base_filters cbl1_out;
     cbl2 := mkConvGnSilu cbl1_out cbl2_out;
     cbl3 := mkConvGnSilu cbl2_out multiplexer_channels |}.

(** The encoder half of [ConvBasisMultiplexer.forward] on channel counts:
    stem, reduction blocks, processing blocks. *)
Definition encoder_forward (self : ConvBasisMultiplexer) (x : Z) : result Z :=
  x ← ConvGnSilu_forward (filter_conv self) x;
  x ← Sequential_forward (map Halving (reduction_blocks self)) x;
  Sequential_forward (map Conv (processing_blocks self)) x.

End Channels.

(** ** gather_2d and ReferenceImageBranch

    A 4-D tensor [(b, c, h, w)] with its entries in row-major order, and a
    tensor of any rank as a shape with its entries. [index] is a [(n, 2)]
    integer tensor, one [(row, column)] pair per sample. *)

Module Gather.
Section Elements.

Variable A : Type.

Record Image : Type := mkImage {
  img_b : nat;
  img_c : nat;
  img_h : nat;
  img_w : nat;
  img_data : list A
}.

Definition image_wf (t : Image) : Prop :=
  length (img_data t) = (img_b t * img_c t * img_h t * img_w t)%nat.

(** [t[i, j, y, x]]. *)
Definition at4 (t : Image) (i j y x : nat) : option A :=
  img_data t !! (((i * img_c t + j) * img_h t + y) * img_w t + x)%nat.

Record NDArray : Type := mkNDArray {
  nd_shape : list nat;
  nd_data : list A
}.

(** [index[:, 0] * w + index[:, 1]] for one row of [index], as an
    integer: it is the value torch computes whenever it fits in 64 bits
    (torch's [int64] arithmetic wraps around beyond that). *)
Definition flat_index (w : nat) (yx : Z * Z) : Z := fst yx * Z.of_nat w + snd yx.

(** One row of [torch.gather(nodim, dim=2, index=ind_nd)]: sample [i],
    every channel [j], position [k] of the flattened image; a position
    outside [0, h * w) is an error. *)
Definition gather_row (t : Image) (i : nat) (k : Z) : result (list A) :=
  if (0 <=? k) && (k <? Z.of_nat (img_h t * img_w t)) then
    mapM (fun j =>
            match img_data t !! ((i * img_c t + j) * (img_h t * img_w t) + Z.to_nat k)%nat with
            | Some v => Ok v
            | None => Raise (RuntimeError "storage out of range")
            end)
         (seq 0 (img_c t))
  else Raise (RuntimeError "index out of bounds for dimension 2").

(** [torch.gather(nodim, dim=2, index=ind_nd)] with [ind_nd] of shape
    [(n, c, 1)]: the index may not have more samples than the input. *)
Definition torch_gather (t : Image) (ind_nd : list Z) : result (list A) :=
  if (length ind_nd <=? img_b t)%nat then
    rows ← mapM (fun ik => gather_row t (fst ik) (snd ik)) (imap pair ind_nd);
    Ok (concat rows)
  else Raise (RuntimeError "index is larger than the input").

(** [tensor.squeeze()] on a shape: every axis of size 1 goes. *)
Definition squeeze (shape : list nat) : list nat :=
  filter (fun d => d <> 1%nat) shape.

Definition gather_2d (input : Image) (index : list (Z * Z)) : result NDArray :=
  let ind_nd := map (flat_index (img_w input)) index in
  data ← torch_gather input ind_nd;
  let shape := squeeze [length index; img_c input; 1%nat] in
  let shape := if (img_b input =? 1)%nat then 1%nat :: shape else shape in
  Ok (mkNDArray shape data).

(** [ReferenceImageBranch.forward]: the feature stack, then the features
    at the centre point scaled down by 8. The stack [features] is built
    from blocks outside the sources and is a parameter. *)
Definition ReferenceImageBranch_forward (features : Image -> Image) (x : Image)
    (center_point : list (Z * Z)) : result NDArray :=
  let x := features x in
  gather_2d x (map (fun yx => (fst yx / 8, snd yx / 8)) center_point).

End Elements.

Arguments mkImage {A}.
Arguments img_b {A}.
Arguments img_c {A}.
Arguments img_h {A}.
Arguments img_w {A}.
Arguments img_data {A}.
Arguments image_wf {A}.
Arguments at4 {A}.
Arguments mkNDArray {A}.
Arguments nd_shape {A}.
Arguments nd_data {A}.
Arguments gather_row {A}.
Arguments torch_gather {A}.
Arguments gather_2d {A}.
Arguments ReferenceImageBranch_forward {A}.

End Gather.

Module G := ConfigurableSwitchedResidualGenerator2.
Module SC := ConfigurableSwitchComputer.

(** The linear part of the schedule, as the spec writes it. *)
Definition linear_anneal (T0 : Q) (S_final s : Z) : Q :=
  Qmax 1 (1 + T0 * inject_Z (S_final - s) / inject_Z S_final).

(** ** Concrete instances

    Small generators and layers on which the definitions are evaluated. *)

(** A switching layer on shapes that keeps the shape of its input and
    returns an attention map with one channel per branch. *)
Definition shape_preserving_switch (sw : SC.t) (x : Tensor4D)
    : result (Tensor4D * Tensor4D) :=
  Ok (x, mkTensor4D (batch x) (Z.of_nat (SC.transform_count sw)) (height x) (width x)).

Definition constant_specificity (att : Tensor4D) (n : Z) : Q * list Z := (1, [])%Q.

(** [ConfigurableSwitchedResidualGenerator2(switch_depth=2, switch_filters=16,
    switch_reductions=2, switch_processing_layers=2, trans_counts=4,
    trans_kernel_sizes=3, trans_layers=3, transformation_filters=16,
    attention_norm=True, initial_temp=20, final_temperature_step=8,
    heightened_temp_min=0.5, heightened_final_step=16, upsample_factor=2,
    add_scalable_noise_to_transforms=False)]. *)
Definition construct_example : result G.t :=
  G.__init__ 2 16 2 2 4 3 3 16 true 20 8 (1 # 2) 16 2 false.

(** The same generator, written out field by field, as it is right after
    construction. *)
Definition fresh_generator : G.t :=
  let sw := SC.__init__ true 4 false 20 false false true in
  {| G.initial_conv := mkConvBnLelu 3 16 7;
     G.upconv1 := mkConvBnLelu 16 16 3;
     G.upconv2 := mkConvBnLelu 16 16 3;
     G.hr_conv := mkConvBnLelu 16 16 3;
     G.final_conv := mkConvBnLelu 16 3 3;
     G.switches := [sw; sw];
     G.transformation_counts := 4;
     G.init_temperature := 20;
     G.final_temperature_step := 8;
     G.heightened_temp_min := 1 # 2;
     G.heightened_final_step := 16;
     G.attentions := None;
     G.upsample_factor := 2;
     G.lr := None;
     G.training := true |}.

Definition example_input : Tensor4D := mkTensor4D 1 3 32 32.

(** The generator after one forward pass on [example_input]. *)
Definition trained_generator : G.t :=
  fst (G.forward shape_preserving_switch fresh_generator example_input).

(** The generator switched to evaluation mode ([eval()]) with its
    temperature still at the initial 20. *)
Definition eval_generator : G.t := G.set_training fresh_generator false.

(** The generator built with a negative initial temperature
    ([initial_temp=-1], [final_temperature_step=8]), after one forward
    pass on [example_input]. *)
Definition negative_start_generator : result G.t :=
  g ← G.__init__ 2 16 2 2 4 3 3 16 true (-1) 8 (1 # 2) 16 2 false;
  Ok (fst (G.forward shape_preserving_switch g example_input)).

(** The sub-modules of a layer agree on shapes when the switch core
    returns a mixed output of [n] entries and the post-transform block and
    the post-switch convolution keep the number of entries. *)
Definition shapes_agree (M : SC.Modules) (n : nat) : Prop :=
  (forall sw xformed m u, length (fst (fst (SC.switch_core M sw xformed m u))) = n) /\
  (forall o, length (SC.post_transform_block M o) = length o) /\
  (forall o, length (SC.post_switch_conv M o) = length o).

(** The identity that [forward] resolves: the [identity] argument when it
    is given, the first element of [x] otherwise. *)
Definition resolved_identity (x1 : Tensor) (identity : option Tensor) : Tensor :=
  match identity with
  | None => x1
  | Some i => i
  end.

(** A layer on tensors of two entries with small sub-modules: branch [i]
    scales its input by [i + 1], the multiplexer adds up its arguments
    entry by entry, the switch core returns the first branch (laid out on
    two entries), the refinements add 1 and 2 to every entry, and every
    noise sample is 1. *)
Definition example_modules : SC.Modules :=
  {| SC.multiplexer := fun args => foldr tensor_zip_add (hd [] args) (tail args);
     SC.pre_transform := fun args => Single (hd [] args);
     SC.transform := fun i args => tensor_scale (hd [] args) (inject_Z (Z.of_nat i) + 1);
     SC.switch_core := fun sw xformed m u => (resize 2 0%Q (hd [] xformed), m, m);
     SC.post_transform_block := fun o => map (fun v => v + 1)%Q o;
     SC.post_switch_conv := fun o => map (fun v => v + 2)%Q o;
     SC.torch_stack := @concat Q;
     SC.randn := fun _ => 1%Q |}.

(** A two-branch layer with both learned scales at 0. *)
Definition zero_scale_layer : SC.t :=
  {| SC.has_pre_transform := true;
     SC.transform_count := 2;
     SC.add_noise := false;
     SC.feed_transforms_into_multiplexer := false;
     SC.noise_scale := 1 # 1000;
     SC.switch := BareConvSwitch.__init__ 20;
     SC.switch_scale := 0;
     SC.has_post_transform_block := false;
     SC.has_post_switch_conv := true;
     SC.psc_scale := 0;
     SC.update_norm := true |}.

(** A two-branch layer as the generator builds it, with noise enabled. *)
Definition noisy_layer : SC.t := SC.__init__ true 2 false 20 true false true.

(** Applying a function to the value a computation returns. *)
Definition result_map {A B : Type} (f : A -> B) (r : result A) : result B :=
  match r with
  | Ok a => Ok (f a)
  | Raise e => Raise e
  end.

(** Query/key multiplexers on samples that are integers: joining two
    samples is [10 * a + b], one halving stage and one expansion stage. *)
Definition example_cat1 (a b : Z) : Z := 10 * a + b.

Definition example_qk : QueryKey.QueryKeyMultiplexer Z :=
  {| QueryKey.qk_input_process := Z.succ;
     QueryKey.qk_embedding_process := Z.opp;
     QueryKey.qk_reduction_blocks := [fun v => 2 * v];
     QueryKey.qk_processing_blocks := fun v => v + 3;
     QueryKey.qk_expansion_blocks := [fun v skip => v - skip];
     QueryKey.qk_key_process := fun v => v * v;
     QueryKey.qk_query_key_combine := fun v => v + 7;
     QueryKey.qk_cbl1 := fun v => 3 * v;
     QueryKey.qk_cbl2 := Z.pred |}.

Definition example_qkp : QueryKey.QueryKeyPyramidMultiplexer Z :=
  {| QueryKey.qkp_input_process := Z.succ;
     QueryKey.qkp_reduction_blocks := [fun v => 2 * v];
     QueryKey.qkp_processing_blocks := fun v => v + 3;
     QueryKey.qkp_expansion_blocks := [fun v skip => v - skip];
     QueryKey.qkp_key_process := fun v => v * v;
     QueryKey.qkp_query_key_combine := fun v => v + 7;
     QueryKey.qkp_cbl0 := fun v => v - 5;
     QueryKey.qkp_cbl1 := fun v => 3 * v;
     QueryKey.qkp_cbl2 := Z.pred |}.

(** Two samples with three branch outputs each. *)
Definition example_stack : QueryKey.Tensor5D Z :=
  QueryKey.mkTensor5D 2 3 [[1; 2; 3]; [4; 5; 6]].

(** The generator with the constructor's default schedule
    ([initial_temp=20], [final_temperature_step=50000],
    [heightened_temp_min=1], [heightened_final_step=50000]) and
    [upsample_factor=2], after one forward pass. *)
Definition default_schedule_generator : G.t :=
  match G.__init__ 2 16 2 2 4 3 3 16 true 20 50000 1 50000 2 false with
  | Ok g => fst (G.forward shape_preserving_switch g example_input)
  | Raise _ => fresh_generator
  end.

(** [trained_generator] with the heightened phase switched off
    ([heightened_final_step=1]). *)
Definition plain_anneal_generator : G.t :=
  G.mk (G.initial_conv trained_generator) (G.upconv1 trained_generator)
    (G.upconv2 trained_generator) (G.hr_conv trained_generator)
    (G.final_conv trained_generator) (G.switches trained_generator)
    (G.transformation_counts trained_generator)
    (G.init_temperature trained_generator)
    (G.final_temperature_step trained_generator)
    (G.heightened_temp_min trained_generator) 1
    (G.attentions trained_generator) (G.upsample_factor trained_generator)
    (G.lr trained_generator) (G.training trained_generator).

(** A switching layer on shapes that crops one row off an input of at
    least 32 rows and fails on a smaller one. *)
Definition cropping_switch (sw : SC.t) (x : Tensor4D) : result (Tensor4D * Tensor4D) :=
  if 32 <=? height x
  then Ok (mkTensor4D (batch x) (channels x) (height x - 1) (width x),
           mkTensor4D (batch x) (Z.of_nat (SC.transform_count sw)) (height x) (width x))
  else Raise (RuntimeError "input too small").

(** A model on the base class with two switches, after a forward pass
    that left two attention maps. *)
Definition base_model : SwitchModelBase.t :=
  {| SwitchModelBase.switches :=
       [SC.__init__ true 4 false 10 false false true;
        SC.__init__ true 4 false 10 false false true];
     SwitchModelBase.attentions := [mkTensor4D 1 4 32 32; mkTensor4D 1 4 32 32];
     SwitchModelBase.lr := Some example_input;
     SwitchModelBase.init_temperature := 10;
     SwitchModelBase.final_temperature_step := 10000 |}.

(** The branch calls of a trace, in order: index and arguments. *)
Definition branch_calls (log : list Call) : list (nat * list Tensor) :=
  omap (fun c => match c with
                 | CallTransform i args => Some (i, args)
                 | _ => None
                 end) log.

(** The multiplexer calls of a trace, in order: their arguments. *)
Definition multiplexer_calls (log : list Call) : list (list Tensor) :=
  omap (fun c => match c with
                 | CallMultiplexer args => Some args
                 | _ => None
                 end) log.

(** The residual additions of a trace, in order: identity and update. *)
Definition residual_adds (log : list Call) : list (Tensor * Tensor) :=
  omap (fun c => match c with
                 | ResidualAdd i update => Some (i, update)
                 | _ => None
                 end) log.

(** A batch of two samples with two channels of 2 x 3 entries, numbered in
    storage order. *)
Definition example_image : Gather.Image Z :=
  Gather.mkImage 2 2 2 3 (map Z.of_nat (seq 0 24)).

(** A plain multiplexer on integer samples with one halving and one
    expansion stage, one with an expansion stage too many, and an
    embedding-conditioned one. *)
Definition example_cb : Multiplexers.ConvBasisMultiplexer Z :=
  Multiplexers.mkConvBasisMultiplexer Z.succ [fun v => 2 * v] (fun v => v + 3)
    [fun v skip => v - skip] (fun v => 3 * v) Z.pred Z.opp.

Definition example_cb_unbalanced : Multiplexers.ConvBasisMultiplexer Z :=
  Multiplexers.mkConvBasisMultiplexer Z.succ [fun v => 2 * v] (fun v => v + 3)
    [fun v skip => v - skip; fun v skip => v + skip] (fun v => 3 * v) Z.pred Z.opp.

Definition example_em : Multiplexers.EmbeddingMultiplexer Z :=
  Multiplexers.mkEmbeddingMultiplexer Z.opp Z.succ [fun v => 2 * v] (fun v => v + 3)
    [fun v skip => v - skip] (fun v => 3 * v) Z.pred Z.opp.

(** * Properties *)

(** ** Arithmetic of the schedule *)

Lemma inject_Z_nonzero (z : Z) : z <> 0 -> ~ (inject_Z z == 0)%Q.
Proof. intros Hz H. apply Hz. unfold Qeq in H. simpl in H. lia. Qed.

Lemma py_div_ok (a b : Q) : ~ (b == 0)%Q -> py_div a b = Ok (a / b)%Q.
Proof.
  intros Hb. unfold py_div.
  destruct (Qeq_bool b 0) eqn:E; [| reflexivity].
  apply Qeq_bool_eq in E. contradiction.
Qed.

Lemma py_div_zero (a b : Q) : (b == 0)%Q -> py_div a b = Raise ZeroDivisionError.
Proof. intros Hb. unfold py_div. now rewrite (Qeq_eq_bool _ _ Hb). Qed.

Lemma inject_Z_pos (z : Z) : 0 < z -> (0 < inject_Z z)%Q.
Proof. intros Hz. change 0%Q with (inject_Z 0). now rewrite <- Zlt_Qlt. Qed.

Lemma Qdiv_le_compat_r (a b c : Q) : (0 < c)%Q -> (a <= b)%Q -> (a / c <= b / c)%Q.
Proof.
  intros Hc Hab. unfold Qdiv. apply Qmult_le_compat_r; [assumption |].
  apply Qlt_le_weak, Qinv_lt_0_compat, Hc.
Qed.

(** Up to the final temperature step the code computes the linear anneal
    and nothing else. *)
Lemma scheduled_temperature_linear (g : G.t) (s : Z) :
  0 < G.final_temperature_step g ->
  s <= G.final_temperature_step g ->
  G.scheduled_temperature g s
  = Ok (linear_anneal (G.init_temperature g) (G.final_temperature_step g) s).
Proof.
  intros HS Hs. unfold G.scheduled_temperature.
  rewrite (py_div_ok _ (inject_Z (G.final_temperature_step g)))
    by (apply inject_Z_nonzero; lia).
  cbn [mbind result_bind].
  replace (G.final_temperature_step g <? s) with false
    by (symmetry; apply Z.ltb_ge; exact Hs).
  rewrite andb_false_r. reflexivity.
Qed.

Lemma linear_anneal_start (T0 : Q) (S_final : Z) :
  0 < S_final -> (0 <= T0)%Q -> (linear_anneal T0 S_final 0 == 1 + T0)%Q.
Proof.
  intros HS HT. unfold linear_anneal. rewrite Z.sub_0_r.
  assert (E : (T0 * inject_Z S_final / inject_Z S_final == T0)%Q).
  { field. apply inject_Z_nonzero. lia. }
  rewrite E. apply Q.max_r. lra.
Qed.

Lemma linear_anneal_end (T0 : Q) (S_final : Z) :
  0 < S_final -> (linear_anneal T0 S_final S_final == 1)%Q.
Proof.
  intros HS. unfold linear_anneal. rewrite Z.sub_diag.
  assert (E : (T0 * inject_Z 0 / inject_Z S_final == 0)%Q).
  { change (inject_Z 0) with 0%Q. field. apply inject_Z_nonzero. lia. }
  rewrite E. apply Q.max_l. lra.
Qed.

Lemma linear_anneal_antitone (T0 : Q) (S_final s s' : Z) :
  0 < S_final -> s <= s' -> s' <= S_final ->
  (linear_anneal T0 S_final s' <= linear_anneal T0 S_final s)%Q.
Proof.
  intros HS Hss Hs'. unfold linear_anneal.
  pose proof (inject_Z_pos _ HS) as Hc.
  destruct (Qlt_le_dec T0 0) as [Hneg | Hpos].
  - (* a negative slope would stay under the floor of 1 *)
    assert (Hle : forall u, u <= S_final ->
              (1 + T0 * inject_Z (S_final - u) / inject_Z S_final <= 1)%Q).
    { intros u Hu.
      assert (H0 : (T0 * inject_Z (S_final - u) / inject_Z S_final <= 0 / inject_Z S_final)%Q).
      { apply Qdiv_le_compat_r; [assumption |].
        assert (0 <= inject_Z (S_final - u))%Q
          by (change 0%Q with (inject_Z 0); rewrite <- Zle_Qle; lia).
        nra. }
      assert (E0 : (0 / inject_Z S_final == 0)%Q) by (unfold Qdiv; ring).
      rewrite E0 in H0. lra. }
    rewrite (Q.max_l _ _ (Hle s' Hs')).
    assert (Hs : s <= S_final) by lia.
    rewrite (Q.max_l _ _ (Hle s Hs)). lra.
  - apply Q.max_le_compat_l. apply Qplus_le_r.
    apply Qdiv_le_compat_r; [assumption |].
    rewrite !(Qmult_comm T0). apply Qmult_le_compat_r; [| assumption].
    rewrite <- Zle_Qle. lia.
Qed.

(** ** The concrete instances evaluate as expected *)

Example construct_example_ok : construct_example = Ok fresh_generator.
Proof. reflexivity. Qed.

Example trained_generator_attentions :
  G.attentions trained_generator
  = Some [mkTensor4D 1 4 32 32; mkTensor4D 1 4 32 32].
Proof. reflexivity. Qed.

Example forward_example_shape :
  snd (G.forward shape_preserving_switch fresh_generator example_input)
  = Ok (mkTensor4D 1 3 64 64).
Proof. reflexivity. Qed.

(** ** The heightened phase *)

(** What the code computes after the final temperature step when a
    heightened phase is configured: the reciprocal of
    [(1 / heightened_temp_min) * h_steps_current / h_steps_total], that
    is [heightened_temp_min * h_steps_total / h_steps_current]. *)
Lemma scheduled_temperature_heightened (g : G.t) (s : Z) :
  0 < G.final_temperature_step g ->
  G.final_temperature_step g < s ->
  G.final_temperature_step g < G.heightened_final_step g ->
  (0 <= G.init_temperature g)%Q ->
  (0 < G.heightened_temp_min g)%Q ->
  exists t,
    G.scheduled_temperature g s = Ok t /\
    (t == G.heightened_temp_min g
          * inject_Z (G.heightened_final_step g - G.final_temperature_step g)
          / inject_Z (Z.min (s - G.final_temperature_step g)
                            (G.heightened_final_step g - G.final_temperature_step g)))%Q.
Proof.
  intros HS Hs HH HT Hm.
  set (S_final := G.final_temperature_step g) in *.
  set (H_final := G.heightened_final_step g) in *.
  set (m := G.heightened_temp_min g) in *.
  assert (Hc : (0 < inject_Z S_final)%Q) by now apply inject_Z_pos.
  assert (Htot : (0 < inject_Z (H_final - S_final))%Q) by (apply inject_Z_pos; lia).
  assert (Hcur : (0 < inject_Z (Z.min (s - S_final) (H_final - S_final)))%Q)
    by (apply inject_Z_pos; lia).
  unfold G.scheduled_temperature. fold S_final H_final m.
  rewrite (py_div_ok _ (inject_Z S_final)) by lra.
  cbn [mbind result_bind].
  assert (Hfloor : (Qmax 1 (1 + G.init_temperature g * inject_Z (S_final - s)
                                / inject_Z S_final) == 1)%Q).
  { apply Q.max_l.
    assert (H0 : (G.init_temperature g * inject_Z (S_final - s) / inject_Z S_final
                  <= 0 / inject_Z S_final)%Q).
    { apply Qdiv_le_compat_r; [assumption |].
      assert (inject_Z (S_final - s) <= 0)%Q
        by (change 0%Q with (inject_Z 0); rewrite <- Zle_Qle; lia).
      nra. }
    assert (E0 : (0 / inject_Z S_final == 0)%Q) by (unfold Qdiv; ring).
    rewrite E0 in H0. lra. }
  rewrite (Qeq_eq_bool _ _ Hfloor).
  replace (H_final =? 0) with false by (symmetry; apply Z.eqb_neq; lia).
  replace (S_final <? s) with true by (symmetry; apply Z.ltb_lt; lia).
  replace (H_final =? 1) with false by (symmetry; apply Z.eqb_neq; lia).
  cbn [negb andb].
  rewrite (py_div_ok 1 m) by lra.
  cbn [mbind result_bind].
  rewrite (py_div_ok _ (inject_Z (H_final - S_final))) by lra.
  cbn [mbind result_bind].
  assert (Hne : ~ (1 / m * inject_Z (Z.min (s - S_final) (H_final - S_final))
                   / inject_Z (H_final - S_final) == 0)%Q).
  { intros E.
    assert (E' : (1 / m * inject_Z (Z.min (s - S_final) (H_final - S_final))
                  / inject_Z (H_final - S_final)
                  == inject_Z (Z.min (s - S_final) (H_final - S_final))
                     / (m * inject_Z (H_final - S_final)))%Q)
      by (field; split; lra).
    rewrite E' in E.
    assert (Hpos : (0 < inject_Z (Z.min (s - S_final) (H_final - S_final))
                        / (m * inject_Z (H_final - S_final)))%Q).
    { apply Qlt_shift_div_l; [nra | lra]. }
    lra. }
  rewrite py_div_ok by exact Hne.
  eexists. split; [reflexivity |].
  field. repeat split; lra.
Qed.

(** C1. The code breaks the claim: with [final_temperature_step = 8],
    [heightened_final_step = 16] and [heightened_temp_min = 0.5] the
    schedule gives temperature 1 at step 8 and temperature 4 at step 9,
    and [update_for_step] sets every switch to that 4: the temperature
    just after the final temperature step exceeds the boundary value 1. *)
Theorem C1_boundary_jump :
  G.final_temperature_step trained_generator < G.heightened_final_step trained_generator /\
  G.heightened_final_step trained_generator <> 1 /\
  (G.heightened_temp_min trained_generator < 1)%Q /\
  (exists t8, G.scheduled_temperature trained_generator 8 = Ok t8 /\ (t8 == 1)%Q) /\
  (exists t9, G.scheduled_temperature trained_generator 9 = Ok t9 /\
              (t9 == 4)%Q /\ (1 < t9)%Q) /\
  (exists g' log, G.update_for_step trained_generator 9 = Ok (g', log) /\
                  Forall (fun sw => (1 < SC.temperature sw)%Q) (G.switches g')).
Proof.
  split; [reflexivity |]. split; [discriminate |]. split; [reflexivity |].
  split; [eexists; split; [vm_compute; reflexivity | reflexivity] |].
  split; [eexists; split; [vm_compute; reflexivity | split; reflexivity] |].
  eexists. eexists. split; [vm_compute; reflexivity |].
  repeat constructor.
Qed.

(** ** Broadcasting the temperature *)

Lemma set_temperature_all (g : G.t) (temp : Q) :
  Forall (fun sw => SC.temperature sw = temp) (G.switches (G.set_temperature g temp)).
Proof.
  unfold G.set_temperature. cbn [G.switches G.set_switches].
  induction (G.switches g) as [| sw sws IH]; constructor; [reflexivity | exact IH].
Qed.

Lemma set_temperature_length (g : G.t) (temp : Q) :
  length (G.switches (G.set_temperature g temp)) = length (G.switches g).
Proof. unfold G.set_temperature. cbn [G.switches G.set_switches]. apply length_map. Qed.

(** C3 as stated fails: right after construction no attention map is
    retained, [update_for_step(0)] succeeds and leaves both
    switches at the initial temperature 20, while the schedule gives 21. *)
Lemma C3_fresh_generator_not_updated :
  construct_example = Ok fresh_generator /\
  G.update_for_step fresh_generator 0 = Ok (fresh_generator, []) /\
  (exists t, G.scheduled_temperature fresh_generator 0 = Ok t /\ (t == 21)%Q /\
     ~ Forall (fun sw => (SC.temperature sw == t)%Q) (G.switches fresh_generator)).
Proof.
  split; [reflexivity |]. split; [reflexivity |].
  eexists. split; [vm_compute; reflexivity |]. split; [reflexivity |].
  intros H. inversion H as [| sw sws Hsw _]. vm_compute in Hsw. discriminate.
Qed.

(** C3 (amended). When the generator retains a non-empty list of
    attention maps (a forward pass has run through at least one switch)
    and the schedule yields a temperature [temp] at step [s],
    [update_for_step(s, path)] sets the temperature of every stacked
    switch computer to [temp]; when no attention map is retained (before
    any forward pass) it returns without changing the generator. *)
Theorem C3_update_for_step_broadcast (g : G.t) (s : Z) (temp : Q) :
  G.scheduled_temperature g s = Ok temp ->
  (forall a atts, G.attentions g = Some (a :: atts) ->
     exists g' log,
       G.update_for_step g s = Ok (g', log) /\
       length (G.switches g') = length (G.switches g) /\
       Forall (fun sw => SC.temperature sw = temp) (G.switches g')) /\
  (G.attentions g = None \/ G.attentions g = Some [] ->
     G.update_for_step g s = Ok (g, [])).
Proof.
  intros Hsched. split.
  - intros a atts Hatt. unfold G.update_for_step, G.attentions_truthy.
    rewrite Hatt, Hsched. cbn [mbind result_bind].
    eexists. eexists. split; [reflexivity |]. split.
    + apply set_temperature_length.
    + apply set_temperature_all.
  - intros [Hatt | Hatt]; unfold G.update_for_step, G.attentions_truthy;
      rewrite Hatt; reflexivity.
Qed.

Lemma C3_update_for_step_broadcast_witness :
  G.scheduled_temperature trained_generator 4 = Ok (Qmax 1 (1 + 20 * inject_Z (8 - 4) / inject_Z 8)) /\
  exists g' log,
    G.update_for_step trained_generator 4 = Ok (g', log) /\
    length (G.switches g') = length (G.switches trained_generator) /\
    Forall (fun sw => SC.temperature sw = Qmax 1 (1 + 20 * inject_Z (8 - 4) / inject_Z 8))
           (G.switches g').
Proof.
  assert (Hs : G.scheduled_temperature trained_generator 4
               = Ok (Qmax 1 (1 + 20 * inject_Z (8 - 4) / inject_Z 8)))
    by reflexivity.
  split; [exact Hs |].
  destruct (C3_update_for_step_broadcast trained_generator 4 _ Hs) as [Hrun _].
  apply (Hrun (mkTensor4D 1 4 32 32) [mkTensor4D 1 4 32 32]). reflexivity.
Defined.

(** ** The linear anneal as [update_for_step] applies it *)

(** While attention maps are retained, a call at a step up to the final
    temperature step returns and leaves every switch at the linear
    anneal. *)
Lemma update_for_step_linear (g : G.t) (a : Tensor4D) (atts : list Tensor4D) (s : Z) :
  0 < G.final_temperature_step g ->
  G.attentions g = Some (a :: atts) ->
  s <= G.final_temperature_step g ->
  exists g' log,
    G.update_for_step g s = Ok (g', log) /\
    length (G.switches g') = length (G.switches g) /\
    Forall (fun sw => SC.temperature sw
                      = linear_anneal (G.init_temperature g) (G.final_temperature_step g) s)
           (G.switches g').
Proof.
  intros HS Hatt Hs. unfold G.update_for_step, G.attentions_truthy.
  rewrite Hatt, (scheduled_temperature_linear g s HS Hs). cbn [mbind result_bind].
  eexists. eexists. split; [reflexivity |]. split.
  - apply set_temperature_length.
  - apply set_temperature_all.
Qed.

(** C4 as stated fails. For a negative initial temperature the start
    value is not [1 + T0]: the generator built with [initial_temp = -1] and
    [final_temperature_step = 8], after a forward pass, is left by
    [update_for_step(0)] with both switches at temperature 1, not at
    [1 + T0 = 0]. And before any forward pass no temperature is applied at
    all: [update_for_step(0)] leaves the switches of the freshly built
    generator ([T0 = 20]) at 20, not at [1 + T0 = 21]. *)
Lemma C4_start_value_not_applied :
  (exists g g' log,
     negative_start_generator = Ok g /\
     G.init_temperature g = (-1)%Q /\
     0 < G.final_temperature_step g /\
     G.update_for_step g 0 = Ok (g', log) /\
     length (G.switches g') = 2%nat /\
     Forall (fun sw => (SC.temperature sw == 1)%Q) (G.switches g') /\
     ~ Forall (fun sw => (SC.temperature sw == 1 + G.init_temperature g)%Q)
         (G.switches g')) /\
  (construct_example = Ok fresh_generator /\
   0 < G.final_temperature_step fresh_generator /\
   exists g' log,
     G.update_for_step fresh_generator 0 = Ok (g', log) /\
     length (G.switches g') = 2%nat /\
     Forall (fun sw => (SC.temperature sw == 20)%Q) (G.switches g') /\
     ~ Forall (fun sw => (SC.temperature sw
                          == 1 + G.init_temperature fresh_generator)%Q)
         (G.switches g')).
Proof.
  split.
  - eexists. eexists. eexists.
    split; [vm_compute; reflexivity |].
    split; [reflexivity |]. split; [reflexivity |].
    split; [vm_compute; reflexivity |].
    split; [reflexivity |]. split.
    + repeat constructor.
    + intros H. inversion H as [| sw sws Hsw _]. vm_compute in Hsw. discriminate.
  - split; [reflexivity |]. split; [reflexivity |].
    eexists. eexists. split; [reflexivity |]. split; [reflexivity |]. split.
    + repeat constructor.
    + intros H. inversion H as [| sw sws Hsw _]. vm_compute in Hsw. discriminate.
Qed.

(** C4 (amended). For a generator with initial temperature [T0] and final
    temperature step [S_final > 0] that retains attention maps from a
    forward pass, [update_for_step(s, path)] at a step [s <= S_final]
    returns and leaves every switch at
    [max(1, 1 + T0 * (S_final - s) / S_final)]; the call at step 0 leaves
    every switch at [1 + T0] when [T0] is not negative, the call at
    [S_final] leaves every switch at 1, and of two calls at steps
    [s <= s' <= S_final] the later one sets no higher temperature than
    the earlier one. *)
Theorem C4_update_for_step_linear_anneal (g : G.t) (a : Tensor4D)
    (atts : list Tensor4D) :
  0 < G.final_temperature_step g ->
  G.attentions g = Some (a :: atts) ->
  let T0 := G.init_temperature g in
  let S_final := G.final_temperature_step g in
  (forall s, s <= S_final ->
     exists g' log,
       G.update_for_step g s = Ok (g', log) /\
       length (G.switches g') = length (G.switches g) /\
       Forall (fun sw => SC.temperature sw
                         = Qmax 1 (1 + T0 * inject_Z (S_final - s) / inject_Z S_final))
              (G.switches g')) /\
  ((0 <= T0)%Q ->
     exists g' log,
       G.update_for_step g 0 = Ok (g', log) /\
       length (G.switches g') = length (G.switches g) /\
       Forall (fun sw => (SC.temperature sw == 1 + T0)%Q) (G.switches g')) /\
  (exists g' log,
     G.update_for_step g S_final = Ok (g', log) /\
     length (G.switches g') = length (G.switches g) /\
     Forall (fun sw => (SC.temperature sw == 1)%Q) (G.switches g')) /\
  (forall s s' g1 log1 g2 log2, s <= s' -> s' <= S_final ->
     G.update_for_step g s = Ok (g1, log1) ->
     G.update_for_step g s' = Ok (g2, log2) ->
     forall sw1 sw2, In sw1 (G.switches g1) -> In sw2 (G.switches g2) ->
       (SC.temperature sw2 <= SC.temperature sw1)%Q).
Proof.
  intros HS Hatt T0 S_final. split; [| split; [| split]].
  - intros s Hs. exact (update_for_step_linear g a atts s HS Hatt Hs).
  - intros HT.
    destruct (update_for_step_linear g a atts 0 HS Hatt) as (g' & log & Hrun & Hlen & Hall);
      [subst S_final; lia |].
    exists g', log. split; [exact Hrun |]. split; [exact Hlen |].
    eapply Forall_impl; [exact Hall |]. intros sw Hsw. cbn beta in Hsw.
    rewrite Hsw. now apply linear_anneal_start.
  - destruct (update_for_step_linear g a atts S_final HS Hatt) as (g' & log & Hrun & Hlen & Hall);
      [subst S_final; lia |].
    exists g', log. split; [exact Hrun |]. split; [exact Hlen |].
    eapply Forall_impl; [exact Hall |]. intros sw Hsw. cbn beta in Hsw.
    rewrite Hsw. now apply linear_anneal_end.
  - intros s s' g1 log1 g2 log2 Hss Hs' Hrun1 Hrun2 sw1 sw2 Hin1 Hin2.
    destruct (update_for_step_linear g a atts s HS Hatt) as (g1' & log1' & Hr1 & _ & Hall1);
      [subst S_final; lia |].
    destruct (update_for_step_linear g a atts s' HS Hatt) as (g2' & log2' & Hr2 & _ & Hall2);
      [exact Hs' |].
    rewrite Hrun1 in Hr1. injection Hr1 as <- <-.
    rewrite Hrun2 in Hr2. injection Hr2 as <- <-.
    rewrite Forall_forall in Hall1, Hall2.
    rewrite (Hall1 sw1) by (apply list_elem_of_In; exact Hin1).
    rewrite (Hall2 sw2) by (apply list_elem_of_In; exact Hin2).
    now apply linear_anneal_antitone.
Qed.

Lemma C4_update_for_step_linear_anneal_witness :
  exists g' log,
    G.update_for_step trained_generator 0 = Ok (g', log) /\
    length (G.switches g') = length (G.switches trained_generator) /\
    Forall (fun sw => (SC.temperature sw == 1 + 20)%Q) (G.switches g').
Proof.
  destruct (C4_update_for_step_linear_anneal trained_generator (mkTensor4D 1 4 32 32)
              [mkTensor4D 1 4 32 32] eq_refl eq_refl) as (_ & Hstart & _).
  apply Hstart. discriminate.
Defined.

(** ** The evaluation-mode guard of [forward] *)

(** [forward] tests [self.train], a bound method, which is always true:
    the guarded assertion is never reached. *)
Lemma eval_temperature_guard_passes (g : G.t) : G.eval_temperature_guard g = Ok tt.
Proof. reflexivity. Qed.

(** What the comment above the guard asks for: the mode flag
    [self.training] decides, and a temperature other than 1 in evaluation
    mode is an [AssertionError]. *)
Lemma guard_on_training_flag_fails :
  (if negb (truthy (G.attr_training eval_generator)) then
     match G.switches eval_generator with
     | [] => Raise IndexError
     | sw0 :: _ =>
         if Qeq_bool (SC.temperature sw0) 1 then Ok tt else Raise AssertionError
     end
   else Ok tt) = Raise AssertionError.
Proof. reflexivity. Qed.

(** C2. The code breaks the claim: a generator in evaluation mode whose
    first switch has temperature 20 runs [forward] to the end and returns
    an output; no assertion is raised. (In training mode no assertion is
    raised either, as the claim says.) *)
Theorem C2_eval_forward_returns :
  G.training eval_generator = false /\
  (exists sw0 sws, G.switches eval_generator = sw0 :: sws /\
                   ~ (SC.temperature sw0 == 1)%Q) /\
  snd (G.forward shape_preserving_switch eval_generator example_input)
  = Ok (mkTensor4D 1 3 64 64) /\
  (forall (g : G.t) (x : Tensor4D),
     G.eval_temperature_guard (G.set_lr g (Some x)) = Ok tt).
Proof.
  split; [reflexivity |]. split.
  - eexists. eexists. split; [reflexivity |]. vm_compute. discriminate.
  - split; [reflexivity |]. intros. reflexivity.
Qed.

(** ** Output shape of the generator *)

Section ForwardShape.

Variable switch_forward : SC.t -> Tensor4D -> result (Tensor4D * Tensor4D).

(** A stack of layers that keep the shape of a [tf]-channel input runs
    to the end and returns a tensor of the shape of its input. *)
Lemma run_switches_preserving (tf : Z) (sws : list SC.t) :
  (forall sw x, In sw sws -> channels x = tf ->
     exists att, switch_forward sw x = Ok (x, att)) ->
  forall x atts, channels x = tf ->
    exists atts', G.run_switches switch_forward sws x atts = (atts', Ok x).
Proof.
  induction sws as [| sw sws IH]; intros Hsw x atts Hx.
  - eexists. reflexivity.
  - destruct (Hsw sw x (or_introl eq_refl) Hx) as [att Hatt].
    cbn [G.run_switches]. rewrite Hatt.
    apply IH; [| exact Hx].
    intros sw' x' Hin Hx'. apply Hsw; [right; exact Hin | exact Hx'].
Qed.

Lemma init_fields (switch_depth switch_filters switch_reductions
    switch_processing_layers trans_counts trans_kernel_sizes trans_layers
    transformation_filters : Z) (attention_norm : bool) (initial_temp : Q)
    (final_temperature_step : Z) (heightened_temp_min : Q)
    (heightened_final_step upsample_factor : Z) (add_noise : bool) (g : G.t) :
  G.__init__ switch_depth switch_filters switch_reductions
    switch_processing_layers trans_counts trans_kernel_sizes trans_layers
    transformation_filters attention_norm initial_temp final_temperature_step
    heightened_temp_min heightened_final_step upsample_factor add_noise = Ok g ->
  (upsample_factor = 2 \/ upsample_factor = 4) /\
  G.upsample_factor g = upsample_factor /\
  G.initial_conv g = mkConvBnLelu 3 transformation_filters 7 /\
  G.upconv1 g = mkConvBnLelu transformation_filters transformation_filters 3 /\
  G.upconv2 g = mkConvBnLelu transformation_filters transformation_filters 3 /\
  G.hr_conv g = mkConvBnLelu transformation_filters transformation_filters 3 /\
  G.final_conv g = mkConvBnLelu transformation_filters 3 3 /\
  G.attentions g = None /\
  G.switches g
  = replicate (Z.to_nat switch_depth)
      (SC.__init__ true (Z.to_nat trans_counts) false initial_temp add_noise false true).
Proof.
  unfold G.__init__. intros H.
  destruct ((upsample_factor =? 2) || (upsample_factor =? 4)) eqn:E; [| discriminate].
  injection H as <-. cbn.
  repeat split; try reflexivity.
  apply orb_true_iff in E. destruct E as [E | E]; apply Z.eqb_eq in E; auto.
Qed.

(** C6. A generator constructed with [upsample_factor] 2 or 4, whose
    switching layers keep the shape of their input, maps an input of
    shape [(batch, 3, H, W)] to an output of shape
    [(batch, 3, H * upsample_factor, W * upsample_factor)], in training
    and in evaluation mode; constructing it with any other
    [upsample_factor] raises [AssertionError]. *)
Theorem C6_forward_shape (switch_depth switch_filters switch_reductions
    switch_processing_layers trans_counts trans_kernel_sizes trans_layers
    transformation_filters : Z) (attention_norm : bool) (initial_temp : Q)
    (final_temperature_step : Z) (heightened_temp_min : Q)
    (heightened_final_step upsample_factor : Z) (add_noise : bool) :
  (upsample_factor = 2 \/ upsample_factor = 4 ->
   forall g,
     G.__init__ switch_depth switch_filters switch_reductions
       switch_processing_layers trans_counts trans_kernel_sizes trans_layers
       transformation_filters attention_norm initial_temp final_temperature_step
       heightened_temp_min heightened_final_step upsample_factor add_noise = Ok g ->
     (forall sw x, In sw (G.switches g) -> channels x = transformation_filters ->
        exists att, switch_forward sw x = Ok (x, att)) ->
     forall mode b H W,
       snd (G.forward switch_forward (G.set_training g mode) (mkTensor4D b 3 H W))
       = Ok (mkTensor4D b 3 (H * upsample_factor) (W * upsample_factor))) /\
  (upsample_factor <> 2 -> upsample_factor <> 4 ->
   G.__init__ switch_depth switch_filters switch_reductions
     switch_processing_layers trans_counts trans_kernel_sizes trans_layers
     transformation_filters attention_norm initial_temp final_temperature_step
     heightened_temp_min heightened_final_step upsample_factor add_noise
   = Raise AssertionError).
Proof.
  split.
  - intros Huf g Hinit Hsw mode b H W.
    destruct (init_fields _ _ _ _ _ _ _ _ _ _ _ _ _ _ _ _ Hinit)
      as (_ & Hufg & Hic & Hu1 & Hu2 & Hhr & Hfc & _ & _).
    destruct g as [ic u1 u2 hr fc sws tc T0 Sf hm Hf atts0 uf lr0 tr].
    cbn in Hufg, Hic, Hu1, Hu2, Hhr, Hfc, Hsw. subst ic u1 u2 hr fc uf.
    destruct (run_switches_preserving transformation_filters sws Hsw
                (mkTensor4D b transformation_filters H W) [] eq_refl) as [atts Hrun].
    unfold G.forward, G.eval_temperature_guard, G.upsample_tail, ConvBnLelu_forward,
      F_interpolate.
    cbn. rewrite Hrun. cbn. rewrite !Z.eqb_refl. cbn.
    destruct Huf as [-> | ->]; cbn; repeat (rewrite Z.eqb_refl; cbn);
      f_equal; f_equal; lia.
  - intros H2 H4. unfold G.__init__.
    replace (upsample_factor =? 2) with false by (symmetry; apply Z.eqb_neq; exact H2).
    replace (upsample_factor =? 4) with false by (symmetry; apply Z.eqb_neq; exact H4).
    reflexivity.
Qed.

End ForwardShape.

Lemma C6_forward_shape_witness :
  construct_example = Ok fresh_generator /\
  snd (G.forward shape_preserving_switch (G.set_training fresh_generator false)
         (mkTensor4D 1 3 32 32))
  = Ok (mkTensor4D 1 3 (32 * 2) (32 * 2)).
Proof.
  split; [reflexivity |].
  destruct (C6_forward_shape shape_preserving_switch
              2 16 2 2 4 3 3 16 true 20 8 (1 # 2) 16 2 false) as [Hshape _].
  apply (Hshape (or_introl eq_refl) fresh_generator eq_refl).
  intros sw x _ _. eexists. reflexivity.
Defined.

(** ** Debug values before the first forward pass *)

(** C10. On a freshly constructed generator [get_debug_values] raises
    instead of returning the mapping: with at least one switch the
    comprehension iterates [self.attentions], which is still [None]
    ([TypeError]); with no switch at all [self.switches[0]] already raises
    [IndexError]. *)
Theorem C10_debug_values_before_forward
    (compute_attention_specificity : Tensor4D -> Z -> Q * list Z)
    (switch_depth switch_filters switch_reductions
     switch_processing_layers trans_counts trans_kernel_sizes trans_layers
     transformation_filters : Z) (attention_norm : bool) (initial_temp : Q)
    (final_temperature_step : Z) (heightened_temp_min : Q)
    (heightened_final_step upsample_factor : Z) (add_noise : bool)
    (g : G.t) (step : Z) (net_name : string) :
  G.__init__ switch_depth switch_filters switch_reductions
    switch_processing_layers trans_counts trans_kernel_sizes trans_layers
    transformation_filters attention_norm initial_temp final_temperature_step
    heightened_temp_min heightened_final_step upsample_factor add_noise = Ok g ->
  G.get_debug_values compute_attention_specificity g step net_name
  = Raise (if switch_depth <=? 0
           then IndexError
           else TypeError "'NoneType' object is not iterable").
Proof.
  intros Hinit.
  destruct (init_fields _ _ _ _ _ _ _ _ _ _ _ _ _ _ _ _ Hinit)
    as (_ & _ & _ & _ & _ & _ & _ & Hatt & Hsws).
  unfold G.get_debug_values. rewrite Hsws, Hatt.
  destruct (switch_depth <=? 0) eqn:E.
  - apply Z.leb_le in E. replace (Z.to_nat switch_depth) with 0%nat by lia.
    reflexivity.
  - apply Z.leb_gt in E.
    destruct (Z.to_nat switch_depth) as [| n] eqn:En; [lia |].
    reflexivity.
Qed.

Lemma C10_debug_values_before_forward_witness :
  construct_example = Ok fresh_generator /\
  G.get_debug_values constant_specificity fresh_generator 0 "generator"
  = Raise (TypeError "'NoneType' object is not iterable").
Proof.
  split; [reflexivity |].
  apply (C10_debug_values_before_forward constant_specificity
           2 16 2 2 4 3 3 16 true 20 8 (1 # 2) 16 2 false fresh_generator 0
           "generator" eq_refl).
Defined.

(** After a forward pass the same call returns the mapping. *)
Example debug_values_after_forward :
  is_ok (G.get_debug_values constant_specificity trained_generator 0 "generator") = true.
Proof. reflexivity. Qed.

(** ** The registration entry point always fails *)

Lemma eval_keywords_names (globals opt_net : gmap string Registration.PyVal)
    (kws : list (string * Registration.Expr)) (vs : list (string * Registration.PyVal)) :
  Registration.eval_keywords globals opt_net kws = Ok vs ->
  map fst vs = map fst kws.
Proof.
  unfold Registration.eval_keywords.
  revert vs. induction kws as [| [k e] kws IH]; intros vs H.
  - injection H as <-. reflexivity.
  - cbn [mapM] in H. cbn [fst snd] in H.
    destruct (Registration.eval_expr globals opt_net e) as [v |]; [| discriminate].
    cbn [mbind result_bind] in H.
    destruct (mapM _ kws) as [vs' |] eqn:E; [| discriminate].
    cbn [mbind result_bind] in H. injection H as <-.
    cbn [map fst]. f_equal. apply IH. reflexivity.
Qed.

Lemma check_keywords_unknown (kws : list (string * Registration.PyVal)) (k : string) :
  In k (map fst kws) -> k ∉ Registration.param_names ->
  exists msg, Registration.check_keywords kws = Raise (TypeError msg).
Proof.
  intros Hin Hk. induction kws as [| [k' v] kws IH]; [destruct Hin |].
  cbn [Registration.check_keywords].
  destruct (bool_decide (k' ∈ Registration.param_names)) eqn:E.
  - apply IH. simpl in Hin. destruct Hin as [Heq | Hin]; [| exact Hin].
    subst k'. apply bool_decide_eq_true in E. contradiction.
  - eexists. reflexivity.
Qed.

Lemma for_video_not_a_parameter : "for_video" ∉ Registration.param_names.
Proof. apply (bool_decide_unpack _). vm_compute. exact I. Qed.

Lemma scale_not_in_scope : "scale" ∉ Registration.names_in_scope.
Proof. apply (bool_decide_unpack _). vm_compute. exact I. Qed.

(** C5. The call in the registration function passes the keyword
    [for_video] (its value looked up in the option mapping), which names
    no parameter of the constructor, and reads the bare name [scale],
    which is bound neither as a local nor at module level; whatever the
    option mapping (and whatever a bare name might be bound to), the
    registration function raises instead of returning a generator. *)
Theorem C5_registration_always_fails :
  In "for_video" (map fst Registration.call_keywords) /\
  ("for_video" ∉ Registration.param_names) /\
  In (Registration.Name "scale") (map snd Registration.call_keywords) /\
  ("scale" ∉ Registration.names_in_scope) /\
  forall globals opt_net opt : gmap string Registration.PyVal,
    exists e,
      Registration.register_ConfigurableSwitchedResidualGenerator2 globals opt_net opt
      = Raise e.
Proof.
  split; [cbn; tauto |]. split; [exact for_video_not_a_parameter |].
  split; [cbn; tauto |]. split; [exact scale_not_in_scope |].
  intros globals opt_net opt.
  unfold Registration.register_ConfigurableSwitchedResidualGenerator2.
  destruct (Registration.eval_keywords globals opt_net Registration.call_keywords)
    as [kws | e] eqn:E.
  - cbn [mbind result_bind]. unfold Registration.bind_keywords.
    destruct (check_keywords_unknown kws "for_video") as [msg Hmsg].
    + rewrite (eval_keywords_names _ _ _ _ E). cbn. tauto.
    + exact for_video_not_a_parameter.
    + rewrite Hmsg. eexists. reflexivity.
  - eexists. reflexivity.
Qed.

(** With the module's own bindings (no [scale]) the failure comes while
    the arguments are evaluated: a [KeyError] for the first option that is
    missing before [scale] is reached, a [NameError] otherwise. *)
Lemma registration_fails_before_the_call
    (globals opt_net opt : gmap string Registration.PyVal) :
  globals !! "scale" = None ->
  exists e,
    Registration.eval_keywords globals opt_net Registration.call_keywords = Raise e /\
    (e = NameError "scale" \/ exists key, e = KeyError key).
Proof.
  intros Hscale. unfold Registration.eval_keywords, Registration.call_keywords.
  repeat (cbn [mapM fst snd Registration.eval_expr];
          match goal with
          | |- context [opt_net !! ?k] =>
              destruct (opt_net !! k);
              [cbn [mbind result_bind]
              | eexists; split; [reflexivity | right; eexists; reflexivity]]
          end).
  cbn [mapM fst snd Registration.eval_expr]. rewrite Hscale.
  eexists. split; [reflexivity | left; reflexivity].
Qed.

(** ** Tensor arithmetic *)

Lemma tensor_scale_length (a : Tensor) (s : Q) : length (tensor_scale a s) = length a.
Proof. apply length_map. Qed.

Lemma randn_like_length (M : SC.Modules) (x : Tensor) :
  length (SC.randn_like M x) = length x.
Proof. unfold SC.randn_like. now rewrite length_map, length_seq. Qed.

Lemma tensor_zip_add_length (a b : Tensor) :
  length a = length b -> length (tensor_zip_add a b) = length a.
Proof.
  revert b. induction a as [| v a IH]; intros [| w b] H; try discriminate; [reflexivity |].
  cbn. f_equal. apply IH. now injection H.
Qed.

Lemma tensor_add_same_shape (a b : Tensor) :
  length a = length b -> tensor_add a b = Ok (tensor_zip_add a b).
Proof. intros H. unfold tensor_add. now rewrite H, Nat.eqb_refl. Qed.

(** Scaling by a zero parameter gives a tensor of zeros. *)
Lemma tensor_scale_zero (o : Tensor) (s fixed_scale : Q) :
  (s == 0)%Q ->
  Forall (fun v => (v == 0)%Q) (tensor_scale (tensor_scale o s) fixed_scale).
Proof.
  intros Hs. unfold tensor_scale. rewrite map_map.
  induction o as [| v o IH]; constructor; [| exact IH].
  rewrite Hs. ring.
Qed.

(** Adding zeros changes no entry. *)
Lemma tensor_zip_add_zero (a z : Tensor) :
  length a = length z -> Forall (fun v => (v == 0)%Q) z ->
  tensor_eq (tensor_zip_add a z) a.
Proof.
  revert z. induction a as [| v a IH]; intros [| w z] Hlen Hz; try discriminate.
  - constructor.
  - inversion Hz as [| ? ? Hw Hz']. subst. cbn. constructor.
    + rewrite Hw. ring.
    + apply IH; [now injection Hlen | exact Hz'].
Qed.

Lemma tensor_eq_trans (a b c : Tensor) : tensor_eq a b -> tensor_eq b c -> tensor_eq a c.
Proof.
  unfold tensor_eq. intros Hab. revert c.
  induction Hab as [| x y a b Hxy Hab IH]; intros c Hbc; inversion Hbc; subst; constructor.
  - now rewrite Hxy.
  - now apply IH.
Qed.

Lemma residual_with_zero_scale (idn o : Tensor) (s fixed_scale : Q) :
  (s == 0)%Q -> length o = length idn ->
  exists r, tensor_add idn (tensor_scale (tensor_scale o s) fixed_scale) = Ok r /\
            length r = length idn /\ tensor_eq r idn.
Proof.
  intros Hs Hlen.
  assert (Hl : length idn = length (tensor_scale (tensor_scale o s) fixed_scale))
    by now rewrite !tensor_scale_length.
  exists (tensor_zip_add idn (tensor_scale (tensor_scale o s) fixed_scale)).
  split; [now apply tensor_add_same_shape |]. split.
  - now apply tensor_zip_add_length.
  - apply tensor_zip_add_zero; [exact Hl | now apply tensor_scale_zero].
Qed.

(** The perturbation has the shape of [x1], so adding it never raises. *)
Lemma noise_add_ok (M : SC.Modules) (x1 : Tensor) (s : Q) :
  tensor_add x1 (tensor_scale (SC.randn_like M x1) s)
  = Ok (tensor_zip_add x1 (tensor_scale (SC.randn_like M x1) s)).
Proof.
  apply tensor_add_same_shape. now rewrite tensor_scale_length, randn_like_length.
Qed.

(** ** Stepping through a traced computation *)

Lemma traced_bind_lift_ok {A B : Type} (a : A) (k : A -> Traced B) :
  lift (Ok a) ≫= k = k a.
Proof. unfold mbind, traced_bind, lift. destruct (k a). reflexivity. Qed.

Lemma traced_bind_lift_raise {A B : Type} (e : PyExc) (k : A -> Traced B) :
  lift (Raise e) ≫= k = ([], Raise e).
Proof. reflexivity. Qed.

Lemma traced_bind_mret {A B : Type} (a : A) (k : A -> Traced B) :
  mret a ≫= k = k a.
Proof. unfold mbind, traced_bind, mret, traced_ret. destruct (k a). reflexivity. Qed.

Lemma traced_bind_ok {A B : Type} (l : list Call) (a : A) (k : A -> Traced B) :
  (l, Ok a) ≫= k = (l ++ fst (k a), snd (k a)).
Proof. unfold mbind, traced_bind. destruct (k a). reflexivity. Qed.

Lemma traced_bind_tell {B : Type} (l : list Call) (k : unit -> Traced B) :
  tell l ≫= k = (l ++ fst (k tt), snd (k tt)).
Proof. unfold mbind, traced_bind, tell. destruct (k tt). reflexivity. Qed.

(** C7. In a switching layer whose learned scales [switch_scale] and
    [psc_scale] are both 0, and whose sub-modules agree on the shape of
    the identity, [forward] returns, and the output tensor it returns has
    exactly the entries of the resolved identity. *)
Theorem C7_zero_scales_identity (M : SC.Modules) (self : SC.t) (x : PyArg)
    (att_in : option PyArg) (identity : option Tensor)
    (output_attention_weights : bool) (fixed_scale : Q)
    (do_checkpointing output_att_logits : bool) (x1 : Tensor) :
  (SC.switch_scale self == 0)%Q ->
  (SC.psc_scale self == 0)%Q ->
  SC.first_element x = Ok x1 ->
  shapes_agree M (length (resolved_identity x1 identity)) ->
  exists r,
    snd (SC.forward M self x att_in identity output_attention_weights fixed_scale
           do_checkpointing output_att_logits) = Ok r /\
    tensor_eq (outputs_of r) (resolved_identity x1 identity).
Proof.
  intros Hsw Hpsc Hx1 (Hmix & Hptb & Hpsconv).
  unfold SC.forward. rewrite Hx1, traced_bind_lift_ok.
  assert (Hnoise : exists x2,
            (if SC.add_noise self
             then tensor_add x1 (tensor_scale (SC.randn_like M x1) (SC.noise_scale self))
                  ≫= λ xn, match x with
                           | Single _ => Ok (Single xn)
                           | Tuple xs => Ok (Tuple (xn :: tail xs))
                           end
             else Ok x) = Ok x2).
  { destruct (SC.add_noise self); [| eexists; reflexivity].
    rewrite noise_add_ok. destruct x; eexists; reflexivity. }
  destruct Hnoise as [x2 ->]. rewrite traced_bind_lift_ok.
  set (idn := resolved_identity x1 identity) in *.
  change (match identity with Some i => i | None => x1 end) with idn.
  assert (Hpre : exists l x3,
            (if SC.has_pre_transform self
             then tell [CallPreTransform (as_tuple x2)]
                  ≫= λ _, mret (as_tuple (SC.pre_transform M (as_tuple x2)))
             else mret (as_tuple x2)) = (l, Ok x3)).
  { destruct (SC.has_pre_transform self);
      [rewrite traced_bind_tell |]; eexists; eexists; reflexivity. }
  destruct Hpre as (l & x3 & ->).
  rewrite traced_bind_ok. cbn [snd].
  rewrite !traced_bind_tell. cbn [snd].
  match goal with
  | |- context [SC.switch_core M ?sw ?xf ?m ?u] =>
      pose proof (Hmix sw xf m u) as Hlen;
      destruct (SC.switch_core M sw xf m u) as [[o a] lg]
  end.
  cbn [fst] in Hlen.
  assert (Hpost : exists l' o',
            (if SC.has_post_transform_block self
             then tell [CallPostTransformBlock o]
                  ≫= λ _, mret (SC.post_transform_block M o)
             else mret o) = (l', Ok o') /\ length o' = length idn).
  { destruct (SC.has_post_transform_block self);
      [rewrite traced_bind_tell |]; eexists; eexists; (split; [reflexivity |]).
    - cbn [snd]. now rewrite Hptb.
    - exact Hlen. }
  destruct Hpost as (l' & o' & -> & Hlen').
  rewrite traced_bind_ok. cbn [snd].
  rewrite traced_bind_tell. cbn [snd].
  destruct (residual_with_zero_scale idn o' _ fixed_scale Hsw Hlen')
    as (r & -> & Hr & Heq).
  rewrite traced_bind_lift_ok.
  destruct (SC.has_post_switch_conv self).
  - rewrite traced_bind_tell.
    destruct (residual_with_zero_scale r (SC.post_switch_conv M r) _ fixed_scale
                Hpsc (Hpsconv r)) as (r2 & -> & _ & Heq2).
    unfold lift. cbn [fst snd]. rewrite traced_bind_ok. eexists. split; [reflexivity |].
    destruct output_attention_weights, output_att_logits; cbn [outputs_of];
      exact (tensor_eq_trans _ _ _ Heq2 Heq).
  - rewrite traced_bind_mret. eexists. split; [reflexivity |].
    destruct output_attention_weights, output_att_logits; cbn [outputs_of];
      exact Heq.
Qed.

(** ** One pass through a switching layer *)

Example noisy_layer_trace :
  fst (SC.forward example_modules noisy_layer (Single [1; 2]%Q) None None true 1 false false)
  = [ CallPreTransform [[1 + 1 * (1 # 1000); 2 + 1 * (1 # 1000)]%Q];
      CallTransform 0 [[1 + 1 * (1 # 1000); 2 + 1 * (1 # 1000)]%Q];
      CallTransform 1 [[1 + 1 * (1 # 1000); 2 + 1 * (1 # 1000)]%Q];
      CallMultiplexer [[1; 2]%Q] ]
    ++ drop 4 (fst (SC.forward example_modules noisy_layer (Single [1; 2]%Q)
                      None None true 1 false false)).
Proof. reflexivity. Qed.

Lemma C7_zero_scales_identity_witness :
  (SC.switch_scale zero_scale_layer == 0)%Q /\
  (SC.psc_scale zero_scale_layer == 0)%Q /\
  exists r,
    snd (SC.forward example_modules zero_scale_layer (Single [3; 5]%Q) None None
           true 1 false false) = Ok r /\
    tensor_eq (outputs_of r) [3; 5]%Q.
Proof.
  split; [reflexivity |]. split; [reflexivity |].
  apply (C7_zero_scales_identity example_modules zero_scale_layer (Single [3; 5]%Q)
           None None true 1 false false [3; 5]%Q);
    [reflexivity | reflexivity | reflexivity |].
  split; [| split].
  - intros sw xformed m u. apply length_resize.
  - intros o. apply length_map.
  - intros o. apply length_map.
Defined.

(** ** What the sub-modules receive when noise is enabled *)

(** The trace of [forward] with noise enabled and [att_in], [identity]
    omitted, written out. *)
Lemma noisy_forward_trace (M : SC.Modules) (self : SC.t) (x : PyArg)
    (output_attention_weights : bool) (fixed_scale : Q)
    (do_checkpointing output_att_logits : bool) (x1 : Tensor) :
  SC.add_noise self = true ->
  SC.feed_transforms_into_multiplexer self = false ->
  SC.first_element x = Ok x1 ->
  let noisy := tensor_zip_add x1 (tensor_scale (SC.randn_like M x1) (SC.noise_scale self)) in
  let branch_in := noisy :: tail (as_tuple x) in
  let transform_in :=
    if SC.has_pre_transform self
    then as_tuple (SC.pre_transform M branch_in)
    else branch_in in
  exists xformed m post update rest,
    fst (SC.forward M self x None None output_attention_weights fixed_scale
           do_checkpointing output_att_logits)
    = (if SC.has_pre_transform self then [CallPreTransform branch_in] else [])
      ++ map (fun i => CallTransform i transform_in) (seq 0 (SC.transform_count self))
      ++ [CallMultiplexer (as_tuple x)]
      ++ [CallSwitch xformed m]
      ++ post
      ++ [ResidualAdd x1 update]
      ++ rest /\
    (post = [] \/ exists o, post = [CallPostTransformBlock o]) /\
    (rest = [] \/ exists o, rest = [CallPostSwitchConv o]).
Proof.
  intros Hnoise Hfeed Hx1 noisy branch_in transform_in.
  unfold SC.forward. rewrite Hx1, traced_bind_lift_ok, Hnoise, Hfeed, noise_add_ok.
  fold noisy.
  assert (Hx2 : exists x2,
            (Ok noisy ≫= λ xn, match x with
                               | Single _ => Ok (Single xn)
                               | Tuple xs => Ok (Tuple (xn :: tail xs))
                               end) = Ok x2 /\ as_tuple x2 = branch_in).
  { destruct x; eexists; (split; [reflexivity |]); reflexivity. }
  destruct Hx2 as (x2 & -> & Hx2). rewrite traced_bind_lift_ok, Hx2.
  assert (Hpre : (if SC.has_pre_transform self
                  then tell [CallPreTransform branch_in]
                       ≫= λ _, mret (as_tuple (SC.pre_transform M branch_in))
                  else mret branch_in)
                 = (if SC.has_pre_transform self then [CallPreTransform branch_in] else [],
                    Ok transform_in)).
  { subst transform_in. destruct (SC.has_pre_transform self);
      [rewrite traced_bind_tell |]; reflexivity. }
  rewrite Hpre, traced_bind_ok. cbn [fst].
  rewrite !traced_bind_tell. cbn [fst].
  match goal with
  | |- context [SC.switch_core M ?sw ?xf ?m ?u] =>
      exists xf, m; destruct (SC.switch_core M sw xf m u) as [[o a] lg]
  end.
  assert (Hpost : exists post o',
            (if SC.has_post_transform_block self
             then tell [CallPostTransformBlock o]
                  ≫= λ _, mret (SC.post_transform_block M o)
             else mret o) = (post, Ok o') /\
            (post = [] \/ exists o, post = [CallPostTransformBlock o])).
  { destruct (SC.has_post_transform_block self);
      [rewrite traced_bind_tell |]; eexists; eexists; (split; [reflexivity |]).
    - right. eexists. reflexivity.
    - left. reflexivity. }
  destruct Hpost as (post & o' & -> & Hpost). exists post.
  rewrite traced_bind_ok. cbn [fst].
  rewrite traced_bind_tell. cbn [fst].
  eexists.
  destruct (tensor_add x1 _) as [r | e].
  - rewrite traced_bind_lift_ok.
    destruct (SC.has_post_switch_conv self).
    + rewrite traced_bind_tell. unfold lift. cbn [fst snd].
      destruct (tensor_add r _) as [r2 | e2].
      * rewrite traced_bind_ok. cbn [fst]. eexists. split; [reflexivity |].
        split; [exact Hpost | right; eexists; reflexivity].
      * eexists. split; [reflexivity |].
        split; [exact Hpost | right; eexists; reflexivity].
    + rewrite traced_bind_mret. eexists. split; [reflexivity |].
      split; [exact Hpost | left; reflexivity].
  - rewrite traced_bind_lift_raise. exists []. split; [reflexivity |].
    split; [exact Hpost | left; reflexivity].
Qed.

(** C9. With noise enabled, [att_in] and [identity] omitted and
    [feed_transforms_into_multiplexer] disabled, the perturbed tensor
    [x1 + randn_like(x1) * noise_scale] goes to the pre-transform (or, when
    there is none, straight to the branch transforms) and nowhere else:
    the multiplexer is called on the original [x], and the residual
    addition uses the original [x1] (the first element of [x] when [x] is
    a tuple) as identity. *)
Theorem C9_noise_reaches_branches_only (M : SC.Modules) (self : SC.t) (x : PyArg)
    (output_attention_weights : bool) (fixed_scale : Q)
    (do_checkpointing output_att_logits : bool) (x1 : Tensor) :
  SC.add_noise self = true ->
  SC.feed_transforms_into_multiplexer self = false ->
  SC.first_element x = Ok x1 ->
  let log := fst (SC.forward M self x None None output_attention_weights fixed_scale
                    do_checkpointing output_att_logits) in
  let noisy := tensor_zip_add x1 (tensor_scale (SC.randn_like M x1) (SC.noise_scale self)) in
  let branch_in := noisy :: tail (as_tuple x) in
  let transform_in :=
    if SC.has_pre_transform self
    then as_tuple (SC.pre_transform M branch_in)
    else branch_in in
  (forall args, In (CallMultiplexer args) log <-> args = as_tuple x) /\
  (forall idn update, In (ResidualAdd idn update) log -> idn = x1) /\
  (exists update, In (ResidualAdd x1 update) log) /\
  (forall args, In (CallPreTransform args) log <->
                SC.has_pre_transform self = true /\ args = branch_in) /\
  (forall i args, In (CallTransform i args) log <->
                  (i < SC.transform_count self)%nat /\ args = transform_in).
Proof.
  intros Hnoise Hfeed Hx1 log noisy branch_in transform_in.
  destruct (noisy_forward_trace M self x output_attention_weights fixed_scale
              do_checkpointing output_att_logits x1 Hnoise Hfeed Hx1)
    as (xformed & m & post & update & rest & Hlog & Hpost & Hrest).
  fold noisy branch_in transform_in log in Hlog.
  assert (Hpre : forall c,
            In c (if SC.has_pre_transform self then [CallPreTransform branch_in] else [])
            <-> SC.has_pre_transform self = true /\ c = CallPreTransform branch_in).
  { intros c. destruct (SC.has_pre_transform self); cbn; intuition congruence. }
  assert (Hxf : forall c,
            In c (map (fun i => CallTransform i transform_in)
                      (seq 0 (SC.transform_count self)))
            <-> exists i, (i < SC.transform_count self)%nat /\ c = CallTransform i transform_in).
  { intros c. rewrite in_map_iff. split.
    - intros (i & <- & Hi). apply in_seq in Hi. exists i. split; [lia | reflexivity].
    - intros (i & Hi & ->). exists i. split; [reflexivity |]. apply in_seq. lia. }
  assert (Hp : forall c, In c post -> exists o, c = CallPostTransformBlock o).
  { intros c Hc. destruct Hpost as [-> | [o ->]]; [destruct Hc |].
    destruct Hc as [<- | []]. eexists. reflexivity. }
  assert (Hr : forall c, In c rest -> exists o, c = CallPostSwitchConv o).
  { intros c Hc. destruct Hrest as [-> | [o ->]]; [destruct Hc |].
    destruct Hc as [<- | []]. eexists. reflexivity. }
  assert (Hin : forall c, In c log <->
            (SC.has_pre_transform self = true /\ c = CallPreTransform branch_in) \/
            (exists i, (i < SC.transform_count self)%nat /\ c = CallTransform i transform_in) \/
            c = CallMultiplexer (as_tuple x) \/
            c = CallSwitch xformed m \/
            In c post \/
            c = ResidualAdd x1 update \/
            In c rest).
  { intros c. rewrite Hlog, !in_app_iff, Hpre, Hxf. cbn [In]. intuition auto. }
  repeat split.
  - intros H. apply Hin in H.
    destruct H as [[_ H] | [(i & _ & H) | [H | [H | [H | [H | H]]]]]];
      try discriminate; try (now injection H).
    + apply Hp in H. destruct H as [o H]. discriminate.
    + apply Hr in H. destruct H as [o H]. discriminate.
  - intros ->. apply Hin. tauto.
  - intros idn upd H. apply Hin in H.
    destruct H as [[_ H] | [(i & _ & H) | [H | [H | [H | [H | H]]]]]];
      try discriminate; try (now injection H).
    + apply Hp in H. destruct H as [o H]. discriminate.
    + apply Hr in H. destruct H as [o H]. discriminate.
  - exists update. apply Hin. tauto.
  - apply Hin in H.
    destruct H as [[H _] | [(i & _ & H) | [H | [H | [H | [H | H]]]]]];
      try discriminate; try assumption.
    + apply Hp in H. destruct H as [o H]. discriminate.
    + apply Hr in H. destruct H as [o H]. discriminate.
  - apply Hin in H.
    destruct H as [[_ H] | [(i & _ & H) | [H | [H | [H | [H | H]]]]]];
      try discriminate; try (now injection H).
    + apply Hp in H. destruct H as [o H]. discriminate.
    + apply Hr in H. destruct H as [o H]. discriminate.
  - intros [Hp1 ->]. apply Hin. left. split; [exact Hp1 | reflexivity].
  - apply Hin in H.
    destruct H as [[_ H] | [(j & Hj & H) | [H | [H | [H | [H | H]]]]]];
      try discriminate.
    + injection H as -> _. exact Hj.
    + apply Hp in H. destruct H as [o H]. discriminate.
    + apply Hr in H. destruct H as [o H]. discriminate.
  - apply Hin in H.
    destruct H as [[_ H] | [(j & Hj & H) | [H | [H | [H | [H | H]]]]]];
      try discriminate.
    + now injection H.
    + apply Hp in H. destruct H as [o H]. discriminate.
    + apply Hr in H. destruct H as [o H]. discriminate.
  - intros [Hi ->]. apply Hin. right. left. exists i. split; [exact Hi | reflexivity].
Qed.

Lemma C9_noise_reaches_branches_only_witness :
  SC.add_noise noisy_layer = true /\
  SC.feed_transforms_into_multiplexer noisy_layer = false /\
  let log := fst (SC.forward example_modules noisy_layer (Single [1; 2]%Q) None None
                    true 1 false false) in
  (forall args, In (CallMultiplexer args) log <-> args = [[1; 2]%Q]) /\
  (forall args, In (CallPreTransform args) log <->
                true = true /\ args = [[1 + 1 * (1 # 1000); 2 + 1 * (1 # 1000)]%Q]).
Proof.
  split; [reflexivity |]. split; [reflexivity |].
  destruct (C9_noise_reaches_branches_only example_modules noisy_layer
              (Single [1; 2]%Q) true 1 false false [1; 2]%Q eq_refl eq_refl eq_refl)
    as (Hmux & _ & _ & Hpre & _).
  split; [exact Hmux | exact Hpre].
Defined.

(** ** Query/key multiplexers and the order of the branches *)

Section QueryKeyEquivariance.

Variable Feat : Type.
Variable cat1 : Feat -> Feat -> Feat.

Import QueryKey.

(** Selecting entries commutes with a block applied entry by entry. *)
Lemma select_map (f : Feat -> Feat) (p : list nat) (row : list Feat) :
  select p (map f row) = map f (select p row).
Proof.
  unfold select. induction p as [| j p IH]; [reflexivity |].
  cbn [omap list_omap]. rewrite list_lookup_fmap, IH.
  destruct (row !! j); reflexivity.
Qed.

Lemma select_length (p : list nat) (row : list Feat) :
  Forall (fun j => (j < length row)%nat) p -> length (select p row) = length p.
Proof.
  unfold select. induction 1 as [| j p Hj _ IH]; [reflexivity |].
  cbn [omap list_omap]. destruct (lookup_lt_is_Some_2 row j Hj) as [v ->].
  cbn. now rewrite IH.
Qed.

Lemma permutation_in_range (p : list nat) (t : nat) :
  Permutation p (seq 0 t) -> length p = t /\ Forall (fun j => (j < t)%nat) p.
Proof.
  intros Hp. split.
  - rewrite (Permutation_length Hp). apply length_seq.
  - apply Forall_forall. intros j Hj.
    rewrite Hp in Hj. apply elem_of_seq in Hj. lia.
Qed.

Lemma permute_branches_wf (p : list nat) (T : Tensor5D Feat) :
  wf5 T -> Permutation p (seq 0 (dim_t T)) ->
  wf5 (permute_branches p T).
Proof.
  intros [Hb Ht] Hp. destruct (permutation_in_range _ _ Hp) as [Hlen Hrange].
  split; cbn.
  - now rewrite length_map.
  - apply Forall_map. eapply Forall_impl; [exact Ht |].
    intros row Hrow. cbn. rewrite select_length; [exact Hlen |].
    now rewrite Hrow.
Qed.

Lemma scores_of_row (g key : Feat -> Feat) (qi : Feat) (row : list Feat) :
  map g (zip_with cat1 (replicate (length row) qi) (map key row))
  = row_scores cat1 g key qi row.
Proof. induction row as [| k row IH]; [reflexivity |]. cbn. now rewrite IH. Qed.

(** Flattening the rows, scoring the flat batch against the repeated
    query and cutting the result back into rows scores every row
    against the query of its own sample. *)
Lemma view_rows_scores (g key : Feat -> Feat) (t : nat) (q : list Feat)
    (rows : list (list Feat)) :
  length q = length rows -> Forall (fun r => length r = t) rows ->
  view_rows (length rows) t
    (map g (zip_with cat1 (flat_map (replicate t) q) (map key (concat rows))))
  = zip_with (row_scores cat1 g key) q rows
  /\ length (flat_map (replicate t) q) = length (map key (concat rows))
  /\ length (zip_with cat1 (flat_map (replicate t) q) (map key (concat rows)))
     = (length rows * t)%nat.
Proof.
  revert q. induction rows as [| row rows IH]; intros [| qi q] Hlen Hrows;
    try discriminate.
  - repeat split.
  - inversion Hrows as [| ? ? Hrow Hrows']. subst.
    destruct (IH q ltac:(now injection Hlen) Hrows') as (IHv & IHl & IHz).
    cbn [flat_map concat length view_rows].
    rewrite map_app.
    assert (Hrep : length (replicate (length row) qi) = length (map key row))
      by now rewrite length_replicate, length_map.
    rewrite (zip_with_app cat1 _ _ _ _ Hrep), map_app.
    assert (Hhead : length (map g (zip_with cat1 (replicate (length row) qi) (map key row)))
                    = length row).
    { rewrite scores_of_row. apply length_map. }
    repeat split.
    + rewrite take_app_length' by (symmetry; exact Hhead).
      rewrite drop_app_length' by (symmetry; exact Hhead).
      rewrite IHv, scores_of_row. reflexivity.
    + rewrite !length_app, length_replicate, IHl, !length_map. reflexivity.
    + rewrite length_app, IHz, length_zip_with, length_replicate, length_map. lia.
Qed.

Lemma score_tail_rows (F : list Feat -> list Feat) (g key : Feat -> Feat)
    (q : list Feat) (T : Tensor5D Feat) :
  (forall v, F v = map g v) ->
  wf5 T ->
  score_tail cat1 F key q T
  = if (length q =? dim_b T)%nat
    then Ok (mkTensor5D (dim_b T) (dim_t T)
               (zip_with (row_scores cat1 g key) q (rows T)))
    else Raise (RuntimeError "shape is invalid for input size").
Proof.
  intros HF [Hb Ht]. unfold score_tail, view_repeat.
  destruct (length q =? dim_b T)%nat eqn:E; [| reflexivity].
  apply Nat.eqb_eq in E. cbn [mbind result_bind].
  assert (Hq : length q = length (rows T)) by congruence.
  destruct (view_rows_scores g key _ q _ Hq Ht) as (Hv & Hl & Hz).
  unfold torch_cat, view_flat.
  rewrite Hl, Nat.eqb_refl. cbn [mbind result_bind].
  unfold view_bt. rewrite HF, length_map, Hz, Hb, Nat.eqb_refl.
  rewrite <- Hv, Hb. reflexivity.
Qed.

Lemma zip_with_row_scores_select (g key : Feat -> Feat) (p : list nat)
    (q : list Feat) (rows : list (list Feat)) :
  zip_with (row_scores cat1 g key) q (map (select p) rows)
  = map (select p) (zip_with (row_scores cat1 g key) q rows).
Proof.
  revert q. induction rows as [| row rows IH]; intros [| qi q]; try reflexivity.
  cbn [map zip_with]. rewrite IH. f_equal.
  unfold row_scores. symmetry. apply select_map.
Qed.

(** Reordering the branches of the input reorders the rows of scores in
    the same way. *)
Lemma score_tail_equivariant (F : list Feat -> list Feat) (g key : Feat -> Feat)
    (q : list Feat) (p : list nat) (T : Tensor5D Feat) :
  (forall v, F v = map g v) ->
  wf5 T ->
  Permutation p (seq 0 (dim_t T)) ->
  score_tail cat1 F key q (permute_branches p T)
  = result_map (permute_branches p) (score_tail cat1 F key q T).
Proof.
  intros HF Hwf Hp.
  rewrite (score_tail_rows F g key q _ HF (permute_branches_wf p T Hwf Hp)).
  rewrite (score_tail_rows F g key q _ HF Hwf).
  cbn [dim_b dim_t rows permute_branches].
  destruct (length q =? dim_b T)%nat; [| reflexivity].
  cbn [result_map]. unfold permute_branches.
  cbn [dim_b dim_t rows].
  now rewrite zip_with_row_scores_select.
Qed.

(** C8. For every input [x] (and embedding), every stack of branch
    outputs and every permutation [p] of the branch axis, both query/key
    multiplexers return, on the permuted stack, the logits of the
    original stack permuted by the same [p] (or the same exception): a
    branch keeps its score and only changes place. *)
Theorem C8_query_key_permutation_equivariant
    (qk : QueryKeyMultiplexer Feat) (qkp : QueryKeyPyramidMultiplexer Feat)
    (x embedding : list Feat) (T : Tensor5D Feat) (p : list nat) :
  wf5 T ->
  Permutation p (seq 0 (dim_t T)) ->
  QueryKeyMultiplexer_forward cat1 qk x embedding (permute_branches p T)
  = result_map (permute_branches p)
      (QueryKeyMultiplexer_forward cat1 qk x embedding T) /\
  QueryKeyPyramidMultiplexer_forward cat1 qkp x (permute_branches p T)
  = result_map (permute_branches p)
      (QueryKeyPyramidMultiplexer_forward cat1 qkp x T).
Proof.
  intros Hwf Hp. split.
  - unfold QueryKeyMultiplexer_forward.
    destruct (reduce _ _ _) as [q ids].
    destruct (torch_cat cat1 q _) as [qe | e]; [| reflexivity].
    cbn [mbind result_bind].
    destruct (expand _ _ _ _) as [q' | e]; [| reflexivity].
    cbn [mbind result_bind].
    apply (score_tail_equivariant
             (fun v => map (qk_cbl2 Feat qk)
                         (map (qk_cbl1 Feat qk) (map (qk_query_key_combine Feat qk) v)))
             (fun f => qk_cbl2 Feat qk (qk_cbl1 Feat qk (qk_query_key_combine Feat qk f)))
             (qk_key_process Feat qk) q' p T); [| exact Hwf | exact Hp].
    intros v. now rewrite !map_map.
  - unfold QueryKeyPyramidMultiplexer_forward.
    destruct (reduce _ _ _) as [q ids].
    destruct (expand _ _ _ _) as [q' | e]; [| reflexivity].
    cbn [mbind result_bind].
    apply (score_tail_equivariant
             (fun v => map (qkp_cbl2 Feat qkp)
                         (map (qkp_cbl1 Feat qkp)
                            (map (qkp_cbl0 Feat qkp)
                               (map (qkp_query_key_combine Feat qkp) v))))
             (fun f => qkp_cbl2 Feat qkp
                         (qkp_cbl1 Feat qkp
                            (qkp_cbl0 Feat qkp (qkp_query_key_combine Feat qkp f))))
             (qkp_key_process Feat qkp) q' p T); [| exact Hwf | exact Hp].
    intros v. now rewrite !map_map.
Qed.

End QueryKeyEquivariance.


Example query_key_scores :
  QueryKey.QueryKeyMultiplexer_forward example_cat1 example_qk [1; 2] [0; 0] example_stack
  = Ok (QueryKey.mkTensor5D 2 3 [[1253; 1262; 1277]; [1868; 1895; 1928]]).
Proof. reflexivity. Qed.

Lemma C8_query_key_permutation_equivariant_witness :
  QueryKey.wf5 example_stack /\
  Permutation [2; 0; 1]%nat (seq 0 3) /\
  QueryKey.QueryKeyMultiplexer_forward example_cat1 example_qk [1; 2] [0; 0]
    (QueryKey.permute_branches [2; 0; 1]%nat example_stack)
  = Ok (QueryKey.mkTensor5D 2 3 [[1277; 1253; 1262]; [1928; 1868; 1895]]) /\
  QueryKey.QueryKeyPyramidMultiplexer_forward example_cat1 example_qkp [1; 2]
    (QueryKey.permute_branches [2; 0; 1]%nat example_stack)
  = result_map (QueryKey.permute_branches [2; 0; 1]%nat)
      (QueryKey.QueryKeyPyramidMultiplexer_forward example_cat1 example_qkp [1; 2]
         example_stack).
Proof.
  assert (Hwf : QueryKey.wf5 example_stack)
    by (split; [reflexivity | repeat constructor]).
  assert (Hp : Permutation [2; 0; 1]%nat (seq 0 (QueryKey.dim_t example_stack)))
    by (apply perm_trans with [0; 2; 1]%nat;
        [apply perm_swap | apply perm_skip, perm_swap]).
  split; [exact Hwf |]. split; [exact Hp |].
  destruct (C8_query_key_permutation_equivariant Z example_cat1 example_qk example_qkp
              [1; 2] [0; 0] example_stack [2; 0; 1]%nat Hwf Hp) as [Hqk Hqkp].
  split; [rewrite Hqk; reflexivity | exact Hqkp].
Defined.

(** * Further properties of the schedule *)

(** Inside the heightened branch of [update_for_step] the linear part has
    reached its floor: the step is past the final temperature step. *)
Lemma heightened_branch_inv (S_final H_final s : Z) (q : Q) :
  Qeq_bool (Qmax 1 (1 + q)) 1 && negb (H_final =? 0) && (S_final <? s)
    && negb (H_final =? 1) = true ->
  H_final <> 0 /\ S_final < s /\ H_final <> 1.
Proof.
  intros H. repeat (apply andb_prop in H; destruct H as [H ?]).
  repeat split.
  - apply Z.eqb_neq, negb_true_iff. assumption.
  - now apply Z.ltb_lt.
  - apply Z.eqb_neq, negb_true_iff. assumption.
Qed.

(** X1. A temperature that the schedule returns is positive whenever
    [heightened_temp_min] is positive. *)
Theorem scheduled_temperature_positive (g : G.t) (s : Z) (t : Q) :
  (0 < G.heightened_temp_min g)%Q ->
  G.scheduled_temperature g s = Ok t ->
  (0 < t)%Q.
Proof.
  intros Hm. unfold G.scheduled_temperature.
  set (S_final := G.final_temperature_step g).
  set (H_final := G.heightened_final_step g).
  set (m := G.heightened_temp_min g) in *.
  destruct (py_div _ (inject_Z S_final)) as [q |]; [| discriminate].
  cbn [mbind result_bind].
  destruct (Qeq_bool _ 1 && _ && _ && _) eqn:Hbranch.
  - apply heightened_branch_inv in Hbranch.
    destruct Hbranch as (_ & Hs & _).
    rewrite (py_div_ok 1 m) by lra. cbn [mbind result_bind].
    set (total := H_final - S_final).
    set (cur := Z.min (s - S_final) total).
    unfold py_div.
    destruct (Qeq_bool (inject_Z total) 0) eqn:Etot; [discriminate |].
    cbn [mbind result_bind].
    destruct (Qeq_bool (1 / m * inject_Z cur / inject_Z total) 0) eqn:Etemp;
      [discriminate |].
    intros Ht. injection Ht as <-.
    apply Qeq_bool_neq in Etot.
    assert (Htot : total <> 0).
    { intros E. apply Etot. rewrite E. reflexivity. }
    assert (Hratio : (0 < inject_Z cur / inject_Z total)%Q).
    { destruct (Z.lt_ge_cases 0 total) as [Hpos | Hneg].
      - apply Qlt_shift_div_l; [now apply inject_Z_pos |].
        rewrite Qmult_0_l. apply inject_Z_pos. subst cur. lia.
      - assert (Hcur : cur = total) by (subst cur; lia).
        rewrite Hcur.
        assert (E : (inject_Z total / inject_Z total == 1)%Q)
          by (field; exact Etot).
        rewrite E. reflexivity. }
    assert (Hinv : (0 < / m)%Q) by now apply Qinv_lt_0_compat.
    assert (E : (1 / m * inject_Z cur / inject_Z total
                 == / m * (inject_Z cur / inject_Z total))%Q)
      by (field; split; [exact Etot | lra]).
    assert (Hpos : (0 < 1 / m * inject_Z cur / inject_Z total)%Q).
    { rewrite E. apply Qmult_lt_0_compat; assumption. }
    unfold Qdiv at 1. rewrite Qmult_1_l. now apply Qinv_lt_0_compat.
  - intros Ht. injection Ht as <-.
    apply Qlt_le_trans with 1%Q; [reflexivity | apply Q.le_max_l].
Qed.

Lemma scheduled_temperature_positive_witness :
  (0 < G.heightened_temp_min trained_generator)%Q /\
  exists t, G.scheduled_temperature trained_generator 12 = Ok t /\ (0 < t)%Q.
Proof.
  split; [reflexivity |].
  eexists. split; [vm_compute; reflexivity |].
  apply (scheduled_temperature_positive trained_generator 12); reflexivity.
Defined.

(** X2. With a non-zero [final_temperature_step], a non-zero
    [heightened_temp_min] and [heightened_final_step] different from
    [final_temperature_step], [update_for_step] returns at every step. *)
Theorem update_for_step_returns (g : G.t) (s : Z) :
  G.final_temperature_step g <> 0 ->
  ~ (G.heightened_temp_min g == 0)%Q ->
  G.heightened_final_step g <> G.final_temperature_step g ->
  exists g' log, G.update_for_step g s = Ok (g', log).
Proof.
  intros HS Hm HH.
  assert (Hsched : exists t, G.scheduled_temperature g s = Ok t).
  { unfold G.scheduled_temperature.
    set (S_final := G.final_temperature_step g) in *.
    set (H_final := G.heightened_final_step g) in *.
    set (m := G.heightened_temp_min g) in *.
    rewrite (py_div_ok _ (inject_Z S_final)) by now apply inject_Z_nonzero.
    cbn [mbind result_bind].
    destruct (Qeq_bool _ 1 && _ && _ && _) eqn:Hbranch; [| eexists; reflexivity].
    apply heightened_branch_inv in Hbranch. destruct Hbranch as (_ & Hs & _).
    rewrite (py_div_ok 1 m) by exact Hm. cbn [mbind result_bind].
    assert (Htot : ~ (inject_Z (H_final - S_final) == 0)%Q)
      by (apply inject_Z_nonzero; lia).
    rewrite (py_div_ok _ (inject_Z (H_final - S_final))) by exact Htot.
    cbn [mbind result_bind].
    assert (Hcur : ~ (inject_Z (Z.min (s - S_final) (H_final - S_final)) == 0)%Q)
      by (apply inject_Z_nonzero; lia).
    rewrite py_div_ok; [eexists; reflexivity |].
    intros E.
    assert (E' : (inject_Z (Z.min (s - S_final) (H_final - S_final))
                  == (1 / m * inject_Z (Z.min (s - S_final) (H_final - S_final))
                      / inject_Z (H_final - S_final))
                     * (m * inject_Z (H_final - S_final)))%Q)
      by (field; split; assumption).
    rewrite E in E'. apply Hcur. rewrite E'. ring. }
  destruct Hsched as [t Ht]. unfold G.update_for_step.
  destruct (G.attentions_truthy g); [| eexists; eexists; reflexivity].
  rewrite Ht. eexists. eexists. reflexivity.
Qed.

Lemma update_for_step_returns_witness :
  exists g' log, G.update_for_step trained_generator 12 = Ok (g', log).
Proof.
  apply (update_for_step_returns trained_generator 12).
  - discriminate.
  - intros E. discriminate E.
  - discriminate.
Defined.

(** X3. When [heightened_final_step] equals [final_temperature_step] (as
    with the constructor's defaults, 50000 and 50000), the initial
    temperature is not negative and attention maps are retained, every
    call of [update_for_step] past the final temperature step raises
    [ZeroDivisionError]. *)
Theorem update_for_step_divides_by_zero (g : G.t) (s : Z) (a : Tensor4D)
    (atts : list Tensor4D) :
  1 < G.final_temperature_step g ->
  G.heightened_final_step g = G.final_temperature_step g ->
  (0 <= G.init_temperature g)%Q ->
  G.attentions g = Some (a :: atts) ->
  G.final_temperature_step g < s ->
  G.update_for_step g s = Raise ZeroDivisionError.
Proof.
  intros HS HH HT Hatt Hs.
  unfold G.update_for_step, G.attentions_truthy. rewrite Hatt.
  unfold G.scheduled_temperature. rewrite HH.
  set (S_final := G.final_temperature_step g) in *.
  assert (Hc : (0 < inject_Z S_final)%Q) by (apply inject_Z_pos; lia).
  rewrite (py_div_ok _ (inject_Z S_final)) by lra.
  cbn [mbind result_bind].
  assert (Hfloor : (Qmax 1 (1 + G.init_temperature g * inject_Z (S_final - s)
                                / inject_Z S_final) == 1)%Q).
  { apply Q.max_l.
    assert (H0 : (G.init_temperature g * inject_Z (S_final - s) / inject_Z S_final
                  <= 0 / inject_Z S_final)%Q).
    { apply Qdiv_le_compat_r; [assumption |].
      assert (inject_Z (S_final - s) <= 0)%Q
        by (change 0%Q with (inject_Z 0); rewrite <- Zle_Qle; lia).
      nra. }
    assert (E0 : (0 / inject_Z S_final == 0)%Q) by (unfold Qdiv; ring).
    rewrite E0 in H0. lra. }
  rewrite (Qeq_eq_bool _ _ Hfloor).
  replace (S_final =? 0) with false by (symmetry; apply Z.eqb_neq; lia).
  replace (S_final <? s) with true by (symmetry; apply Z.ltb_lt; lia).
  replace (S_final =? 1) with false by (symmetry; apply Z.eqb_neq; lia).
  cbn [negb andb]. rewrite Z.sub_diag.
  destruct (Qeq_dec (G.heightened_temp_min g) 0) as [Hz | Hnz].
  - rewrite (py_div_zero 1 _ Hz). reflexivity.
  - rewrite (py_div_ok 1 _ Hnz). cbn [mbind result_bind].
    rewrite py_div_zero; reflexivity.
Qed.

Lemma update_for_step_divides_by_zero_witness :
  G.update_for_step default_schedule_generator 50001 = Raise ZeroDivisionError.
Proof.
  apply (update_for_step_divides_by_zero default_schedule_generator 50001
           (mkTensor4D 1 4 32 32) [mkTensor4D 1 4 32 32]);
    try reflexivity.
  discriminate.
Defined.

(** X4. With a heightened phase configured after a positive final
    temperature step, from [heightened_final_step] on the schedule stays
    at [heightened_temp_min]. *)
Theorem heightened_phase_saturates (g : G.t) (s : Z) :
  0 < G.final_temperature_step g ->
  G.final_temperature_step g < G.heightened_final_step g ->
  (0 <= G.init_temperature g)%Q ->
  (0 < G.heightened_temp_min g)%Q ->
  G.heightened_final_step g <= s ->
  exists t, G.scheduled_temperature g s = Ok t /\ (t == G.heightened_temp_min g)%Q.
Proof.
  intros HS HH HT Hm Hs.
  destruct (scheduled_temperature_heightened g s HS ltac:(lia) HH HT Hm)
    as (t & Ht & Heq).
  exists t. split; [exact Ht |]. rewrite Heq.
  rewrite Z.min_r by lia.
  field. apply inject_Z_nonzero. lia.
Qed.

Lemma heightened_phase_saturates_witness :
  exists t, G.scheduled_temperature trained_generator 40 = Ok t /\ (t == 1 # 2)%Q.
Proof.
  apply (heightened_phase_saturates trained_generator 40); try reflexivity;
    discriminate.
Defined.

(** X5. Between the final temperature step and [heightened_final_step]
    the schedule does not increase from one step to a later one. *)
Theorem heightened_phase_antitone (g : G.t) (s s' : Z) (t t' : Q) :
  0 < G.final_temperature_step g ->
  G.final_temperature_step g < G.heightened_final_step g ->
  (0 <= G.init_temperature g)%Q ->
  (0 < G.heightened_temp_min g)%Q ->
  G.final_temperature_step g < s -> s <= s' ->
  G.scheduled_temperature g s = Ok t ->
  G.scheduled_temperature g s' = Ok t' ->
  (t' <= t)%Q.
Proof.
  intros HS HH HT Hm Hs Hss Ht Ht'.
  destruct (scheduled_temperature_heightened g s HS Hs HH HT Hm) as (u & Hu & Eu).
  destruct (scheduled_temperature_heightened g s' HS ltac:(lia) HH HT Hm)
    as (u' & Hu' & Eu').
  rewrite Hu in Ht. injection Ht as <-. rewrite Hu' in Ht'. injection Ht' as <-.
  rewrite Eu, Eu'.
  set (S_final := G.final_temperature_step g) in *.
  set (total := G.heightened_final_step g - S_final) in *.
  assert (Hc : (0 < inject_Z (Z.min (s - S_final) total))%Q)
    by (apply inject_Z_pos; lia).
  assert (Hc' : (0 < inject_Z (Z.min (s' - S_final) total))%Q)
    by (apply inject_Z_pos; lia).
  assert (Hle : (inject_Z (Z.min (s - S_final) total)
                 <= inject_Z (Z.min (s' - S_final) total))%Q)
    by (rewrite <- Zle_Qle; lia).
  assert (Hnum : (0 <= G.heightened_temp_min g * inject_Z total)%Q).
  { apply Qmult_le_0_compat; [lra |].
    apply Qlt_le_weak, inject_Z_pos. subst total. lia. }
  apply Qle_shift_div_l; [assumption |].
  assert (E : (G.heightened_temp_min g * inject_Z total
               / inject_Z (Z.min (s' - S_final) total)
               * inject_Z (Z.min (s - S_final) total)
               == G.heightened_temp_min g * inject_Z total
                  * (inject_Z (Z.min (s - S_final) total)
                     / inject_Z (Z.min (s' - S_final) total)))%Q)
    by (field; lra).
  rewrite E.
  assert (Hfrac : (inject_Z (Z.min (s - S_final) total)
                   / inject_Z (Z.min (s' - S_final) total) <= 1)%Q).
  { apply Qle_shift_div_r; [assumption | lra]. }
  nra.
Qed.

Lemma heightened_phase_antitone_witness :
  exists t t', G.scheduled_temperature trained_generator 9 = Ok t /\
               G.scheduled_temperature trained_generator 12 = Ok t' /\
               (t' <= t)%Q.
Proof.
  eexists. eexists. split; [vm_compute; reflexivity |].
  split; [vm_compute; reflexivity |].
  apply (heightened_phase_antitone trained_generator 9 12); try reflexivity;
    discriminate.
Defined.

(** X6. With [heightened_final_step] 0 or 1 there is no heightened phase:
    at every step the schedule is the linear anneal, which is never below
    1. *)
Theorem heightened_phase_disabled (g : G.t) (s : Z) :
  G.final_temperature_step g <> 0 ->
  G.heightened_final_step g = 0 \/ G.heightened_final_step g = 1 ->
  exists t,
    G.scheduled_temperature g s = Ok t /\
    t = linear_anneal (G.init_temperature g) (G.final_temperature_step g) s /\
    (1 <= t)%Q.
Proof.
  intros HS HH. unfold G.scheduled_temperature.
  rewrite (py_div_ok _ (inject_Z (G.final_temperature_step g)))
    by now apply inject_Z_nonzero.
  cbn [mbind result_bind].
  assert (Hoff : negb (G.heightened_final_step g =? 0)
                 && ((G.final_temperature_step g <? s)
                     && negb (G.heightened_final_step g =? 1)) = false).
  { destruct HH as [-> | ->]; cbn; [reflexivity | apply andb_false_r]. }
  rewrite <- !andb_assoc. rewrite Hoff, andb_false_r.
  eexists. split; [reflexivity |]. split; [reflexivity |]. apply Q.le_max_l.
Qed.

Lemma heightened_phase_disabled_witness :
  exists t, G.scheduled_temperature plain_anneal_generator 30 = Ok t /\ (1 <= t)%Q.
Proof.
  destruct (heightened_phase_disabled plain_anneal_generator 30) as (t & Ht & _ & Hle).
  - discriminate.
  - right. reflexivity.
  - exists t. split; assumption.
Defined.


(** * Further properties of the generator's forward pass *)

Section ForwardState.

Variable switch_forward : SC.t -> Tensor4D -> result (Tensor4D * Tensor4D).

Lemma run_switches_all_ok (sws : list SC.t) :
  (forall sw x, In sw sws -> exists y att, switch_forward sw x = Ok (y, att)) ->
  forall x atts, exists atts' y,
    G.run_switches switch_forward sws x atts = (atts ++ atts', Ok y) /\
    length atts' = length sws.
Proof.
  induction sws as [| sw sws IH]; intros Hsw x atts.
  - exists [], x. cbn. now rewrite app_nil_r.
  - destruct (Hsw sw x (or_introl eq_refl)) as (y & att & Hy).
    cbn [G.run_switches]. rewrite Hy.
    destruct (IH (fun sw' x' Hin => Hsw sw' x' (or_intror Hin)) y (atts ++ [att]))
      as (atts' & z & Hrun & Hlen).
    exists (att :: atts'), z. rewrite Hrun, <- app_assoc. cbn. split; [reflexivity | now rewrite Hlen].
Qed.

(** The loop over the switches, followed along the data: layer [i] of
    [pre] is given the output of layer [i - 1] (the stem output for the
    first) and returns [steps !! i], and the next layer raises on what it
    is given. *)
Lemma run_switches_stops (pre post : list SC.t) (sw : SC.t) (e : PyExc) :
  forall (steps : list (Tensor4D * Tensor4D)) (x0 xk : Tensor4D) (atts : list Tensor4D),
    length steps = length pre ->
    (forall i swi xi, pre !! i = Some swi -> (x0 :: map fst steps) !! i = Some xi ->
       exists step, steps !! i = Some step /\ switch_forward swi xi = Ok step) ->
    (x0 :: map fst steps) !! length pre = Some xk ->
    switch_forward sw xk = Raise e ->
    G.run_switches switch_forward (pre ++ sw :: post) x0 atts
    = (atts ++ map snd steps, Raise e).
Proof.
  induction pre as [| p pre IH]; intros steps x0 xk atts Hlen Hok Hk Hraise.
  - destruct steps; [| discriminate]. cbn in Hk. injection Hk as <-.
    cbn [app G.run_switches map]. rewrite Hraise, app_nil_r. reflexivity.
  - destruct steps as [| [y att] steps]; [discriminate |].
    destruct (Hok 0%nat p x0 eq_refl eq_refl) as (step & Hstep & Hrun).
    cbn in Hstep. injection Hstep as <-.
    cbn [app G.run_switches]. rewrite Hrun.
    rewrite (IH steps y xk (atts ++ [att])).
    + cbn [map snd]. now rewrite <- app_assoc.
    + cbn in Hlen. lia.
    + intros i swi xi Hi Hxi. apply (Hok (S i) swi xi); [exact Hi | exact Hxi].
    + exact Hk.
    + exact Hraise.
Qed.

Lemma forward_retains_one_map_per_switch_aux (g : G.t) (x : Tensor4D) :
  channels x = conv_in (G.initial_conv g) ->
  (forall sw x', In sw (G.switches g) ->
     exists y att, switch_forward sw x' = Ok (y, att)) ->
  exists atts,
    fst (G.forward switch_forward g x)
    = G.set_attentions (G.set_lr g (Some x)) (Some atts) /\
    length atts = length (G.switches g).
Proof.
  intros Hch Hsw. unfold G.forward. rewrite eval_temperature_guard_passes.
  unfold ConvBnLelu_forward. cbn [G.set_lr G.initial_conv G.switches].
  rewrite Hch, Z.eqb_refl.
  destruct (run_switches_all_ok (G.switches g) Hsw
              (mkTensor4D (batch x) (conv_out (G.initial_conv g)) (height x) (width x)) [])
    as (atts & y & Hrun & Hlen).
  rewrite Hrun. exists atts. split; [reflexivity | exact Hlen].
Qed.

(** X7. When the input has the channel count of the stem convolution and
    every switching layer returns, [forward] leaves one attention map per
    switch in [self.attentions] and the input in [self.lr], whether or not
    the upsampling tail then succeeds. *)
Theorem forward_retains_one_map_per_switch (g : G.t) (x : Tensor4D) :
  channels x = conv_in (G.initial_conv g) ->
  (forall sw x', In sw (G.switches g) ->
     exists y att, switch_forward sw x' = Ok (y, att)) ->
  exists atts,
    G.attentions (fst (G.forward switch_forward g x)) = Some atts /\
    length atts = length (G.switches g) /\
    G.lr (fst (G.forward switch_forward g x)) = Some x.
Proof.
  intros Hch Hsw. unfold G.forward. rewrite eval_temperature_guard_passes.
  unfold ConvBnLelu_forward. cbn [G.set_lr G.initial_conv G.switches].
  rewrite Hch, Z.eqb_refl.
  destruct (run_switches_all_ok (G.switches g) Hsw
              (mkTensor4D (batch x) (conv_out (G.initial_conv g)) (height x) (width x)) [])
    as (atts & y & Hrun & Hlen).
  rewrite Hrun. exists atts. cbn. split; [reflexivity |]. split; [exact Hlen | reflexivity].
Qed.

(** X8. When the layers before one switching layer return on the data
    they are given and that layer raises on the output of its predecessor,
    [forward] raises the same exception, and [self.attentions] holds
    exactly the attention maps of the layers that ran, in layer order. *)
Theorem forward_keeps_partial_attentions (g : G.t) (x : Tensor4D)
    (pre post : list SC.t) (sw : SC.t) (steps : list (Tensor4D * Tensor4D))
    (xk : Tensor4D) (e : PyExc) :
  channels x = conv_in (G.initial_conv g) ->
  G.switches g = pre ++ sw :: post ->
  let x0 := mkTensor4D (batch x) (conv_out (G.initial_conv g)) (height x) (width x) in
  length steps = length pre ->
  (forall i swi xi, pre !! i = Some swi -> (x0 :: map fst steps) !! i = Some xi ->
     exists step, steps !! i = Some step /\ switch_forward swi xi = Ok step) ->
  (x0 :: map fst steps) !! length pre = Some xk ->
  switch_forward sw xk = Raise e ->
  snd (G.forward switch_forward g x) = Raise e /\
  G.attentions (fst (G.forward switch_forward g x)) = Some (map snd steps) /\
  G.lr (fst (G.forward switch_forward g x)) = Some x.
Proof.
  intros Hch Hsws x0 Hlen Hok Hk Hraise. unfold G.forward.
  rewrite eval_temperature_guard_passes.
  unfold ConvBnLelu_forward. cbn [G.set_lr G.initial_conv G.switches].
  rewrite Hch, Z.eqb_refl, Hsws. fold x0.
  rewrite (run_switches_stops pre post sw e steps x0 xk [] Hlen Hok Hk Hraise).
  cbn. repeat split.
Qed.

(** X9. After a forward pass through at least one switch in which every
    layer returns, [update_for_step] takes effect: it sets every switch
    to the scheduled temperature, and hands the sink one attention map per
    switch and the input image when the step is a multiple of 100, and
    nothing at other steps. *)
Theorem update_after_forward (g : G.t) (x : Tensor4D) (s : Z) (temp : Q) :
  channels x = conv_in (G.initial_conv g) ->
  G.switches g <> [] ->
  (forall sw x', In sw (G.switches g) ->
     exists y att, switch_forward sw x' = Ok (y, att)) ->
  G.scheduled_temperature g s = Ok temp ->
  exists g' log,
    G.update_for_step (fst (G.forward switch_forward g x)) s = Ok (g', log) /\
    length (G.switches g') = length (G.switches g) /\
    Forall (fun sw => SC.temperature sw = temp) (G.switches g') /\
    length log = if s mod 100 =? 0 then S (length (G.switches g)) else 0%nat.
Proof.
  intros Hch Hne Hsw Hsched.
  destruct (forward_retains_one_map_per_switch_aux g x Hch Hsw)
    as (atts & Hfwd & Hlen).
  rewrite Hfwd.
  destruct atts as [| a atts];
    [destruct (G.switches g); [contradiction | discriminate] |].
  unfold G.update_for_step, G.attentions_truthy.
  cbn [G.attentions G.set_attentions G.set_lr].
  change (G.scheduled_temperature (G.set_attentions (G.set_lr g (Some x)) (Some (a :: atts))) s)
    with (G.scheduled_temperature g s).
  rewrite Hsched. cbn [mbind result_bind].
  eexists. eexists. split; [reflexivity |]. split; [| split].
  - unfold G.set_temperature. cbn. apply length_map.
  - apply (set_temperature_all (G.set_attentions (G.set_lr g (Some x)) (Some (a :: atts)))).
  - unfold G.exports, py_mod_is_zero. cbn [G.attentions G.lr G.set_temperature
      G.set_switches G.set_attentions G.set_lr].
    destruct (s mod 100 =? 0); [| reflexivity].
    rewrite length_app, length_imap, Hlen. cbn [length]. lia.
Qed.

End ForwardState.

Lemma forward_retains_one_map_per_switch_witness :
  exists atts,
    G.attentions (fst (G.forward shape_preserving_switch fresh_generator example_input))
    = Some atts /\
    length atts = length (G.switches fresh_generator) /\
    G.lr (fst (G.forward shape_preserving_switch fresh_generator example_input))
    = Some example_input.
Proof.
  apply (forward_retains_one_map_per_switch shape_preserving_switch
           fresh_generator example_input eq_refl).
  intros sw x' _. eexists. eexists. reflexivity.
Defined.

Lemma forward_keeps_partial_attentions_witness :
  construct_example = Ok fresh_generator /\
  snd (G.forward cropping_switch fresh_generator example_input)
  = Raise (RuntimeError "input too small") /\
  G.attentions (fst (G.forward cropping_switch fresh_generator example_input))
  = Some [mkTensor4D 1 4 32 32] /\
  G.lr (fst (G.forward cropping_switch fresh_generator example_input))
  = Some example_input.
Proof.
  split; [reflexivity |].
  apply (forward_keeps_partial_attentions cropping_switch fresh_generator
           example_input [SC.__init__ true 4 false 20 false false true] []
           (SC.__init__ true 4 false 20 false false true)
           [(mkTensor4D 1 16 31 32, mkTensor4D 1 4 32 32)]
           (mkTensor4D 1 16 31 32) (RuntimeError "input too small")
           eq_refl eq_refl eq_refl).
  - intros [| [| i]] swi xi Hsw Hxi; try discriminate.
    injection Hsw as <-. injection Hxi as <-. eexists. split; reflexivity.
  - reflexivity.
  - reflexivity.
Defined.

Lemma update_after_forward_witness :
  exists g' log,
    G.update_for_step
      (fst (G.forward shape_preserving_switch fresh_generator example_input)) 0
    = Ok (g', log) /\
    length (G.switches g') = length (G.switches fresh_generator) /\
    Forall (fun sw => SC.temperature sw = Qmax 1 (1 + 20 * inject_Z (8 - 0) / inject_Z 8))
           (G.switches g') /\
    length log = 3%nat.
Proof.
  apply (update_after_forward shape_preserving_switch fresh_generator example_input 0
           (Qmax 1 (1 + 20 * inject_Z (8 - 0) / inject_Z 8)) eq_refl).
  - discriminate.
  - intros sw x' _. eexists. eexists. reflexivity.
  - reflexivity.
Defined.


(** * Properties of gather_2d *)

Lemma mapM_all_ok {A B : Type} (f : A -> result B) (l : list A) :
  (forall a, In a l -> exists b, f a = Ok b) ->
  exists l', mapM f l = Ok l' /\
             length l' = length l /\
             forall i a, l !! i = Some a -> exists b, f a = Ok b /\ l' !! i = Some b.
Proof.
  induction l as [| a l IH]; intros Hall.
  - exists []. repeat split. intros i a Hi. discriminate.
  - destruct (Hall a (or_introl eq_refl)) as [b Hb].
    destruct (IH (fun a' Hin => Hall a' (or_intror Hin))) as (l' & Hl' & Hlen & Hlook).
    exists (b :: l'). cbn [mapM]. rewrite Hb. cbn [mbind result_bind].
    rewrite Hl'. cbn [mbind result_bind]. split; [reflexivity |]. split.
    + cbn. now rewrite Hlen.
    + intros [| i] a' Hi.
      * injection Hi as <-. exists b. split; [exact Hb | reflexivity].
      * apply (Hlook i a' Hi).
Qed.

Lemma mapM_one_raises {A B : Type} (f : A -> result B) (l : list A) (a : A) (e : PyExc) :
  In a l -> f a = Raise e -> exists e', mapM f l = Raise e'.
Proof.
  induction l as [| a' l IH]; intros Hin Ha; [destruct Hin |].
  cbn [mapM]. destruct (f a') as [b |] eqn:Hb; [| eexists; reflexivity].
  cbn [mbind result_bind].
  destruct Hin as [-> | Hin]; [congruence |].
  destruct (IH Hin Ha) as [e' ->]. eexists. reflexivity.
Qed.

Lemma concat_lookup_uniform {A : Type} (rows : list (list A)) (c i j : nat) :
  Forall (fun r => length r = c) rows -> (j < c)%nat ->
  concat rows !! (i * c + j)%nat = rows !! i ≫= (fun r => r !! j).
Proof.
  intros Hrows Hj. revert i. induction Hrows as [| r rows Hr _ IH]; intros i.
  - reflexivity.
  - cbn [concat]. destruct i as [| i].
    + cbn. apply lookup_app_l. lia.
    + rewrite lookup_app_r by (rewrite Hr; cbn; lia).
      replace (S i * c + j - length r)%nat with (i * c + j)%nat by (rewrite Hr; cbn; lia).
      apply IH.
Qed.

Lemma concat_length_uniform {A : Type} (rows : list (list A)) (c : nat) :
  Forall (fun r => length r = c) rows -> length (concat rows) = (length rows * c)%nat.
Proof.
  induction 1 as [| r rows Hr _ IH]; [reflexivity |].
  cbn [concat length]. rewrite length_app, IH, Hr. lia.
Qed.

Section GatherFacts.

Variable A : Type.

(** [gather_2d] reads, for sample [i] and channel [j], the entry at
    offset [y * w + x] of the flattened [h * w] image. *)
Lemma gather_2d_reads (t : Gather.Image A) (index : list (Z * Z)) :
  Gather.image_wf t ->
  (length index <= Gather.img_b t)%nat ->
  (forall yx, In yx index ->
     0 <= Gather.flat_index (Gather.img_w t) yx
       < Z.of_nat (Gather.img_h t * Gather.img_w t)) ->
  exists r,
    Gather.gather_2d t index = Ok r /\
    length (Gather.nd_data r) = (length index * Gather.img_c t)%nat /\
    forall i j yx,
      index !! i = Some yx -> (j < Gather.img_c t)%nat ->
      exists v,
        Gather.nd_data r !! (i * Gather.img_c t + j)%nat = Some v /\
        Gather.img_data t
          !! ((i * Gather.img_c t + j) * (Gather.img_h t * Gather.img_w t)
              + Z.to_nat (Gather.flat_index (Gather.img_w t) yx))%nat
        = Some v.
Proof.
  intros Hwf Hn Hrange. unfold Gather.gather_2d, Gather.torch_gather.
  rewrite length_map.
  replace (length index <=? Gather.img_b t)%nat with true
    by (symmetry; apply Nat.leb_le; exact Hn).
  set (ind_nd := map (Gather.flat_index (Gather.img_w t)) index).
  assert (Hrows : forall ik, In ik (imap pair ind_nd) ->
            exists row, Gather.gather_row t (fst ik) (snd ik) = Ok row /\
                        length row = Gather.img_c t /\
                        forall j, (j < Gather.img_c t)%nat ->
                          exists v, row !! j = Some v /\
                            Gather.img_data t
                              !! ((fst ik * Gather.img_c t + j)
                                  * (Gather.img_h t * Gather.img_w t)
                                  + Z.to_nat (snd ik))%nat = Some v).
  { intros [i k] Hik. apply list_elem_of_In, elem_of_lookup_imap in Hik.
    destruct Hik as (i' & k' & Heq & Hk). injection Heq as -> ->.
    subst ind_nd. rewrite list_lookup_fmap in Hk.
    destruct (index !! i') as [yx |] eqn:Hyx; [| discriminate].
    injection Hk as <-.
    assert (Hin : In yx index)
      by (apply list_elem_of_In; eapply list_elem_of_lookup_2; exact Hyx).
    specialize (Hrange yx Hin).
    assert (Hi : (i' < length index)%nat) by (eapply lookup_lt_Some; exact Hyx).
    cbn [fst snd]. unfold Gather.gather_row.
    replace ((0 <=? Gather.flat_index (Gather.img_w t) yx)
             && (Gather.flat_index (Gather.img_w t) yx
                 <? Z.of_nat (Gather.img_h t * Gather.img_w t))) with true
      by (symmetry; apply andb_true_intro; split;
          [apply Z.leb_le | apply Z.ltb_lt]; lia).
    set (k := Z.to_nat (Gather.flat_index (Gather.img_w t) yx)).
    assert (Hk : (k < Gather.img_h t * Gather.img_w t)%nat) by (subst k; lia).
    assert (Hstore : forall j, (j < Gather.img_c t)%nat ->
              exists v, Gather.img_data t
                          !! ((i' * Gather.img_c t + j)
                              * (Gather.img_h t * Gather.img_w t) + k)%nat = Some v).
    { intros j Hj. apply lookup_lt_is_Some_2. rewrite Hwf.
      assert (i' * Gather.img_c t + j + 1 <= Gather.img_b t * Gather.img_c t)%nat by nia.
      nia. }
    destruct (mapM_all_ok
                (fun j => match Gather.img_data t
                                  !! ((i' * Gather.img_c t + j)
                                      * (Gather.img_h t * Gather.img_w t) + k)%nat with
                          | Some v => Ok v
                          | None => Raise (RuntimeError "storage out of range")
                          end)
                (seq 0 (Gather.img_c t)))
      as (row & Hrow & Hlen & Hlook).
    { intros j Hj. apply in_seq in Hj.
      destruct (Hstore j ltac:(lia)) as [v ->]. eexists. reflexivity. }
    exists row. split; [exact Hrow |]. split; [now rewrite Hlen, length_seq |].
    intros j Hj.
    destruct (Hlook j j) as (v & Hv & Hrj).
    { apply lookup_seq. lia. }
    exists v. split; [exact Hrj |].
    destruct (Hstore j Hj) as [v' Hv']. rewrite Hv' in Hv. now injection Hv as <-. }
  destruct (mapM_all_ok (fun ik => Gather.gather_row t (fst ik) (snd ik)) (imap pair ind_nd))
    as (rows & Hmap & Hlen & Hlook).
  { intros ik Hik. destruct (Hrows ik Hik) as (row & Hrow & _). eexists. exact Hrow. }
  rewrite Hmap. cbn [mbind result_bind]. eexists. split; [reflexivity |].
  cbn [Gather.nd_data].
  assert (Huniform : Forall (fun r => length r = Gather.img_c t) rows).
  { apply Forall_forall. intros row Hrow.
    apply list_elem_of_lookup in Hrow. destruct Hrow as [i Hi].
    assert (Hil : (i < length (imap pair ind_nd))%nat)
      by (rewrite <- Hlen; eapply lookup_lt_Some; exact Hi).
    destruct (lookup_lt_is_Some_2 _ _ Hil) as [ik Hik].
    destruct (Hlook i ik Hik) as (row' & Hrow' & Hri).
    rewrite Hi in Hri. injection Hri as <-.
    destruct (Hrows ik) as (row'' & Hrow'' & Hl & _).
    { apply list_elem_of_In. eapply list_elem_of_lookup_2. exact Hik. }
    rewrite Hrow' in Hrow''. now injection Hrow'' as <-. }
  split.
  - rewrite (concat_length_uniform _ _ Huniform), Hlen, length_imap.
    subst ind_nd. now rewrite length_map.
  - intros i j yx Hyx Hj.
    rewrite (concat_lookup_uniform rows _ i j Huniform Hj).
    assert (Hik : imap pair ind_nd !! i
                  = Some (i, Gather.flat_index (Gather.img_w t) yx)).
    { rewrite list_lookup_imap. subst ind_nd. rewrite list_lookup_fmap, Hyx. reflexivity. }
    destruct (Hlook _ _ Hik) as (row & Hrow & Hri). rewrite Hri. cbn.
    destruct (Hrows (i, Gather.flat_index (Gather.img_w t) yx)) as (row' & Hrow' & _ & Hent).
    { apply list_elem_of_In. eapply list_elem_of_lookup_2. exact Hik. }
    cbn beta iota delta [fst snd] in Hrow, Hrow', Hent. rewrite Hrow in Hrow'. injection Hrow' as <-.
    apply (Hent j Hj).
Qed.

(** X10. For a well-formed input, an index with no more rows than the
    input has samples, and rows and columns inside the image,
    [gather_2d] returns for sample [i] and channel [j] the entry
    [input[i, j, y, x]] of the [i]-th index pair [(y, x)]. *)
Theorem gather_2d_in_range (t : Gather.Image A) (index : list (Z * Z)) :
  Gather.image_wf t ->
  (length index <= Gather.img_b t)%nat ->
  (forall yx, In yx index ->
     0 <= fst yx < Z.of_nat (Gather.img_h t) /\
     0 <= snd yx < Z.of_nat (Gather.img_w t)) ->
  exists r,
    Gather.gather_2d t index = Ok r /\
    length (Gather.nd_data r) = (length index * Gather.img_c t)%nat /\
    forall i j yx,
      index !! i = Some yx -> (j < Gather.img_c t)%nat ->
      exists v,
        Gather.nd_data r !! (i * Gather.img_c t + j)%nat = Some v /\
        Gather.at4 t i j (Z.to_nat (fst yx)) (Z.to_nat (snd yx)) = Some v.
Proof.
  intros Hwf Hn Hrange.
  destruct (gather_2d_reads t index Hwf Hn) as (r & Hr & Hlen & Hread).
  { intros yx Hin. destruct (Hrange yx Hin) as [Hy Hx].
    unfold Gather.flat_index. nia. }
  exists r. split; [exact Hr |]. split; [exact Hlen |].
  intros i j yx Hyx Hj. destruct (Hread i j yx Hyx Hj) as (v & Hv & Hsrc).
  exists v. split; [exact Hv |]. unfold Gather.at4. rewrite <- Hsrc. f_equal.
  assert (Hin : In yx index)
    by (apply list_elem_of_In; eapply list_elem_of_lookup_2; exact Hyx).
  destruct (Hrange yx Hin) as [Hy Hx]. unfold Gather.flat_index.
  replace (fst yx * Z.of_nat (Gather.img_w t) + snd yx)
    with (Z.of_nat (Z.to_nat (fst yx) * Gather.img_w t + Z.to_nat (snd yx))) by lia.
  rewrite Nat2Z.id. rewrite Nat.mul_add_distr_r, <- Nat.mul_assoc. lia.
Qed.

(** X11. The column is not checked against the width: any pair [(y, x)]
    whose offset [y * w + x] falls inside the [h * w] image is accepted,
    and the entry read is the one at row [(y * w + x) / w] and column
    [(y * w + x) mod w]. *)
Theorem gather_2d_column_wraps (t : Gather.Image A) (index : list (Z * Z)) :
  Gather.image_wf t ->
  (length index <= Gather.img_b t)%nat ->
  (forall yx, In yx index ->
     0 <= Gather.flat_index (Gather.img_w t) yx
       < Z.of_nat (Gather.img_h t * Gather.img_w t)) ->
  exists r,
    Gather.gather_2d t index = Ok r /\
    forall i j yx,
      index !! i = Some yx -> (j < Gather.img_c t)%nat ->
      exists v,
        Gather.nd_data r !! (i * Gather.img_c t + j)%nat = Some v /\
        Gather.at4 t i j
          (Z.to_nat (Gather.flat_index (Gather.img_w t) yx / Z.of_nat (Gather.img_w t)))
          (Z.to_nat (Gather.flat_index (Gather.img_w t) yx mod Z.of_nat (Gather.img_w t)))
        = Some v.
Proof.
  intros Hwf Hn Hrange.
  destruct (gather_2d_reads t index Hwf Hn Hrange) as (r & Hr & _ & Hread).
  exists r. split; [exact Hr |].
  intros i j yx Hyx Hj. destruct (Hread i j yx Hyx Hj) as (v & Hv & Hsrc).
  exists v. split; [exact Hv |]. unfold Gather.at4. rewrite <- Hsrc. f_equal.
  assert (Hin : In yx index)
    by (apply list_elem_of_In; eapply list_elem_of_lookup_2; exact Hyx).
  specialize (Hrange yx Hin).
  set (k := Gather.flat_index (Gather.img_w t) yx) in *.
  assert (Hw : 0 < Z.of_nat (Gather.img_w t)) by nia.
  pose proof (Z.div_mod k (Z.of_nat (Gather.img_w t)) ltac:(lia)) as Hdm.
  pose proof (Z.mod_pos_bound k (Z.of_nat (Gather.img_w t)) Hw) as Hmod.
  assert (Hdiv : 0 <= k / Z.of_nat (Gather.img_w t)) by (apply Z.div_pos; lia).
  replace (Z.to_nat k)
    with (Z.to_nat (k / Z.of_nat (Gather.img_w t)) * Gather.img_w t
          + Z.to_nat (k mod Z.of_nat (Gather.img_w t)))%nat by nia.
  rewrite Nat.mul_add_distr_r, <- Nat.mul_assoc. lia.
Qed.

(** X12. When a pair of the index has an offset [y * w + x] that fits in
    64 bits (so that torch's integer arithmetic does not wrap around) and
    lies outside the [h * w] image, [gather_2d] raises. *)
Theorem gather_2d_out_of_range (t : Gather.Image A) (index : list (Z * Z))
    (yx : Z * Z) :
  In yx index ->
  - 2 ^ 63 <= Gather.flat_index (Gather.img_w t) yx < 2 ^ 63 ->
  Gather.flat_index (Gather.img_w t) yx < 0 \/
  Z.of_nat (Gather.img_h t * Gather.img_w t) <= Gather.flat_index (Gather.img_w t) yx ->
  exists e, Gather.gather_2d t index = Raise e.
Proof.
  intros Hin _ Hout. unfold Gather.gather_2d, Gather.torch_gather.
  destruct (length _ <=? Gather.img_b t)%nat; [| eexists; reflexivity].
  apply list_elem_of_In, list_elem_of_lookup in Hin. destruct Hin as [i Hi].
  destruct (mapM_one_raises (fun ik => Gather.gather_row t (fst ik) (snd ik))
              (imap pair (map (Gather.flat_index (Gather.img_w t)) index))
              (i, Gather.flat_index (Gather.img_w t) yx)
              (RuntimeError "index out of bounds for dimension 2")) as [e He].
  - apply list_elem_of_In, elem_of_lookup_imap. exists i, (Gather.flat_index (Gather.img_w t) yx).
    split; [reflexivity |]. now rewrite list_lookup_fmap, Hi.
  - cbn [fst snd]. unfold Gather.gather_row.
    replace ((0 <=? Gather.flat_index (Gather.img_w t) yx)
             && (Gather.flat_index (Gather.img_w t) yx
                 <? Z.of_nat (Gather.img_h t * Gather.img_w t))) with false;
      [reflexivity |].
    symmetry. apply andb_false_iff.
    destruct Hout as [Hneg | Hbig]; [left; apply Z.leb_gt | right; apply Z.ltb_ge]; lia.
  - rewrite He. eexists. reflexivity.
Qed.

(** X13. The shape of what [gather_2d] returns for [n] index rows and [c]
    channels: [(n, c)] when both are at least 2, [(1, c)] for a batch of
    one sample, but [(n)] when there is a single channel and [(c)] when
    one index row is used on a larger batch. *)
Theorem gather_2d_shape (t : Gather.Image A) (index : list (Z * Z))
    (r : Gather.NDArray A) :
  Gather.gather_2d t index = Ok r ->
  let n := length index in
  let c := Gather.img_c t in
  (n <= Gather.img_b t)%nat /\
  ((2 <= n)%nat -> (2 <= c)%nat -> Gather.nd_shape r = [n; c]) /\
  (n = 1%nat -> Gather.img_b t = 1%nat -> (2 <= c)%nat -> Gather.nd_shape r = [1%nat; c]) /\
  ((2 <= n)%nat -> c = 1%nat -> Gather.nd_shape r = [n]) /\
  (n = 1%nat -> (2 <= Gather.img_b t)%nat -> (2 <= c)%nat -> Gather.nd_shape r = [c]).
Proof.
  unfold Gather.gather_2d, Gather.torch_gather. rewrite length_map.
  destruct (length index <=? Gather.img_b t)%nat eqn:Hn; [| discriminate].
  apply Nat.leb_le in Hn.
  destruct (mapM _ _) as [rows |]; [| discriminate].
  cbn [mbind result_bind]. intros Hr. injection Hr as <-.
  cbv zeta. cbn [Gather.nd_shape]. unfold Gather.squeeze.
  split; [exact Hn |].
  repeat split; intros; rewrite !filter_cons, filter_nil;
    repeat case_decide; try lia;
    (destruct (Gather.img_b t =? 1)%nat eqn:Eb;
     [apply Nat.eqb_eq in Eb | apply Nat.eqb_neq in Eb]); try lia; try reflexivity;
    congruence.
Qed.

(** X14. [ReferenceImageBranch.forward] returns, for sample [i] and
    channel [j], the feature at the centre point divided by 8 (rounded
    down), for every centre point inside the area that the feature map
    covers at a stride of 8. *)
Theorem reference_branch_reads_center (features : Gather.Image A -> Gather.Image A)
    (x : Gather.Image A) (center_point : list (Z * Z)) :
  Gather.image_wf (features x) ->
  (length center_point <= Gather.img_b (features x))%nat ->
  (forall yx, In yx center_point ->
     0 <= fst yx < 8 * Z.of_nat (Gather.img_h (features x)) /\
     0 <= snd yx < 8 * Z.of_nat (Gather.img_w (features x))) ->
  exists r,
    Gather.ReferenceImageBranch_forward features x center_point = Ok r /\
    forall i j yx,
      center_point !! i = Some yx -> (j < Gather.img_c (features x))%nat ->
      exists v,
        Gather.nd_data r !! (i * Gather.img_c (features x) + j)%nat = Some v /\
        Gather.at4 (features x) i j (Z.to_nat (fst yx / 8)) (Z.to_nat (snd yx / 8))
        = Some v.
Proof.
  intros Hwf Hn Hrange. unfold Gather.ReferenceImageBranch_forward.
  set (t := features x) in *.
  set (index := map (fun yx : Z * Z => (fst yx / 8, snd yx / 8)) center_point).
  assert (Hscaled : forall yx, In yx index ->
            0 <= fst yx < Z.of_nat (Gather.img_h t) /\
            0 <= snd yx < Z.of_nat (Gather.img_w t)).
  { intros yx Hin. subst index. apply in_map_iff in Hin.
    destruct Hin as (yx0 & <- & Hin0). destruct (Hrange yx0 Hin0) as [Hy Hx].
    cbn [fst snd]. split; split;
      try (apply Z.div_pos; lia); apply Z.div_lt_upper_bound; lia. }
  destruct (gather_2d_reads t index Hwf) as (r & Hr & _ & Hread).
  { subst index. now rewrite length_map. }
  { intros yx Hin. destruct (Hscaled yx Hin) as [Hy Hx].
    unfold Gather.flat_index. nia. }
  exists r. split; [exact Hr |].
  intros i j yx Hyx Hj.
  assert (Hi : index !! i = Some (fst yx / 8, snd yx / 8))
    by (subst index; now rewrite list_lookup_fmap, Hyx).
  destruct (Hread i j _ Hi Hj) as (v & Hv & Hsrc).
  exists v. split; [exact Hv |]. unfold Gather.at4. rewrite <- Hsrc. f_equal.
  assert (Hin : In (fst yx / 8, snd yx / 8) index)
    by (apply list_elem_of_In; eapply list_elem_of_lookup_2; exact Hi).
  destruct (Hscaled _ Hin) as [Hy Hx]. cbn [fst snd] in Hy, Hx.
  unfold Gather.flat_index. cbn [fst snd].
  replace (fst yx / 8 * Z.of_nat (Gather.img_w t) + snd yx / 8)
    with (Z.of_nat (Z.to_nat (fst yx / 8) * Gather.img_w t + Z.to_nat (snd yx / 8)))
    by lia.
  rewrite Nat2Z.id. rewrite Nat.mul_add_distr_r, <- Nat.mul_assoc. lia.
Qed.

End GatherFacts.

Lemma gather_2d_in_range_witness :
  exists r,
    Gather.gather_2d example_image [(1, 2); (0, 1)] = Ok r /\
    length (Gather.nd_data r) = 4%nat /\
    Gather.nd_data r !! 3%nat = Gather.at4 example_image 1 1 0 1.
Proof.
  destruct (gather_2d_in_range Z example_image [(1, 2); (0, 1)])
    as (r & Hr & Hlen & Hread).
  - reflexivity.
  - cbn. lia.
  - intros yx [<- | [<- | []]]; cbn; lia.
  - exists r. split; [exact Hr |]. split; [exact Hlen |].
    destruct (Hread 1%nat 1%nat (0, 1) eq_refl) as (v & Hv & Hsrc); [cbn; lia |].
    change (Gather.nd_data r !! 3%nat = Some v) in Hv. rewrite Hv. symmetry. exact Hsrc.
Defined.

Lemma gather_2d_column_wraps_witness :
  exists r,
    Gather.gather_2d example_image [(0, 4)] = Ok r /\
    Gather.nd_data r !! 0%nat = Gather.at4 example_image 0 0 1 1.
Proof.
  destruct (gather_2d_column_wraps Z example_image [(0, 4)]) as (r & Hr & Hread).
  - reflexivity.
  - cbn. lia.
  - intros yx [<- | []]. unfold Gather.flat_index. cbn. lia.
  - exists r. split; [exact Hr |].
    destruct (Hread 0%nat 0%nat (0, 4) eq_refl) as (v & Hv & Hsrc); [cbn; lia |].
    change (Gather.nd_data r !! 0%nat = Some v) in Hv. rewrite Hv. symmetry. exact Hsrc.
Defined.

Lemma gather_2d_out_of_range_witness :
  exists e, Gather.gather_2d example_image [(0, 1); (2, 0)] = Raise e.
Proof.
  apply (gather_2d_out_of_range Z example_image [(0, 1); (2, 0)] (2, 0)).
  - right. left. reflexivity.
  - unfold Gather.flat_index. cbn. lia.
  - right. unfold Gather.flat_index. cbn. lia.
Defined.

Lemma gather_2d_shape_witness :
  exists r,
    Gather.gather_2d example_image [(0, 4)] = Ok r /\ Gather.nd_shape r = [2%nat].
Proof.
  eexists. split; [reflexivity |].
  apply (gather_2d_shape Z example_image [(0, 4)] _ eq_refl); cbn; lia.
Defined.

Lemma reference_branch_reads_center_witness :
  exists r,
    Gather.ReferenceImageBranch_forward (fun t => t) example_image [(9, 17); (0, 8)] = Ok r /\
    Gather.nd_data r !! 1%nat = Gather.at4 example_image 0 1 1 2.
Proof.
  destruct (reference_branch_reads_center Z (fun t => t) example_image [(9, 17); (0, 8)])
    as (r & Hr & Hread).
  - reflexivity.
  - cbn. lia.
  - intros yx [<- | [<- | []]]; cbn; lia.
  - exists r. split; [exact Hr |].
    destruct (Hread 0%nat 1%nat (9, 17) eq_refl) as (v & Hv & Hsrc); [cbn; lia |].
    change (Gather.nd_data r !! 1%nat = Some v) in Hv. rewrite Hv. symmetry. exact Hsrc.
Defined.


(** * Properties of SwitchModelBase *)

(** X15. With a non-zero final temperature step, the base class's
    [update_for_step] returns at every step, whether or not a forward pass
    has run, and leaves every switch at the linear anneal
    [max(1, 1 + T0 * (S_final - step) / S_final)], which is never below 1
    and is 1 from the final temperature step on when [T0] is not
    negative. *)
Theorem base_update_for_step_anneals (m : SwitchModelBase.t) (step : Z) :
  SwitchModelBase.final_temperature_step m <> 0 ->
  let temp := linear_anneal (SwitchModelBase.init_temperature m)
                (SwitchModelBase.final_temperature_step m) step in
  (exists m' log,
     SwitchModelBase.update_for_step m step = Ok (m', log) /\
     length (SwitchModelBase.switches m') = length (SwitchModelBase.switches m) /\
     Forall (fun sw => SC.temperature sw = temp) (SwitchModelBase.switches m')) /\
  (1 <= temp)%Q /\
  (0 < SwitchModelBase.final_temperature_step m ->
   SwitchModelBase.final_temperature_step m <= step ->
   (0 <= SwitchModelBase.init_temperature m)%Q ->
   (temp == 1)%Q).
Proof.
  intros HS temp. split; [| split].
  - unfold SwitchModelBase.update_for_step.
    rewrite py_div_ok by now apply inject_Z_nonzero.
    cbn [mbind result_bind]. eexists. eexists. split; [reflexivity |].
    cbn [SwitchModelBase.switches SwitchModelBase.set_temperature]. split.
    + apply length_map.
    + subst temp. unfold linear_anneal.
      induction (SwitchModelBase.switches m) as [| sw sws IH]; constructor;
        [reflexivity | exact IH].
  - apply Q.le_max_l.
  - intros Hpos Hstep HT. subst temp. unfold linear_anneal. apply Q.max_l.
    assert (Hc : (0 < inject_Z (SwitchModelBase.final_temperature_step m))%Q)
      by now apply inject_Z_pos.
    assert (H0 : (SwitchModelBase.init_temperature m
                  * inject_Z (SwitchModelBase.final_temperature_step m - step)
                  / inject_Z (SwitchModelBase.final_temperature_step m)
                  <= 0 / inject_Z (SwitchModelBase.final_temperature_step m))%Q).
    { apply Qdiv_le_compat_r; [assumption |].
      assert (inject_Z (SwitchModelBase.final_temperature_step m - step) <= 0)%Q
        by (change 0%Q with (inject_Z 0); rewrite <- Zle_Qle; lia).
      nra. }
    assert (E0 : (0 / inject_Z (SwitchModelBase.final_temperature_step m) == 0)%Q)
      by (unfold Qdiv; ring).
    rewrite E0 in H0. lra.
Qed.

Lemma base_update_for_step_anneals_witness :
  exists m' log,
    SwitchModelBase.update_for_step base_model 20000 = Ok (m', log) /\
    length (SwitchModelBase.switches m') = length (SwitchModelBase.switches base_model) /\
    Forall (fun sw => SC.temperature sw = linear_anneal 10 10000 20000)
           (SwitchModelBase.switches m').
Proof.
  destruct (base_update_for_step_anneals base_model 20000) as [Hrun _];
    [discriminate | exact Hrun].
Defined.

(** ** The occupancy histogram *)

Lemma count_occ_replicate (n b x : nat) :
  count_occ Nat.eq_dec (replicate n b) x = if Nat.eq_dec b x then n else 0%nat.
Proof.
  induction n as [| n IH]; cbn [replicate count_occ].
  - now destruct (Nat.eq_dec b x).
  - rewrite IH. now destruct (Nat.eq_dec b x).
Qed.

Lemma count_occ_interleave (repeats : list Z) (k x : nat) :
  count_occ Nat.eq_dec
    (concat (zip_with (fun b r => replicate (Z.to_nat r) b) (seq k (length repeats)) repeats))
    x
  = match repeats !! (x - k)%nat with
    | Some r => if (k <=? x)%nat then Z.to_nat r else 0%nat
    | None => 0%nat
    end.
Proof.
  revert k. induction repeats as [| r repeats IH]; intros k; [reflexivity |].
  cbn [length seq zip_with concat]. rewrite count_occ_app, count_occ_replicate, IH.
  destruct (Nat.eq_dec k x) as [-> | Hne].
  - rewrite Nat.sub_diag. cbn [lookup list_lookup].
    rewrite Nat.leb_refl.
    replace (x - S x)%nat with 0%nat by lia.
    destruct (repeats !! 0%nat); [| lia].
    replace (S x <=? x)%nat with false by (symmetry; apply Nat.leb_gt; lia). lia.
  - destruct (k <=? x)%nat eqn:E.
    + apply Nat.leb_le in E.
      replace (x - k)%nat with (S (x - S k)) by lia. cbn [lookup list_lookup].
      replace (S k <=? x)%nat with true by (symmetry; apply Nat.leb_le; lia).
      reflexivity.
    + apply Nat.leb_gt in E.
      replace (S k <=? x)%nat with false by (symmetry; apply Nat.leb_gt; lia).
      destruct (repeats !! (x - S k)%nat); destruct ((r :: repeats) !! (x - k)%nat);
        reflexivity.
Qed.

Lemma to_long_nonneg (q : Q) : (0 <= q)%Q -> 0 <= SwitchModelBase.to_long q.
Proof.
  intros Hq. unfold SwitchModelBase.to_long. apply Z.quot_pos; [| lia].
  unfold Qle in Hq. simpl in Hq. lia.
Qed.

(** The loop body of [compute_anorm_histogram] on one intensity tensor
    with no negative entry. *)
Lemma anorm_histogram_one (intensity : list Q) :
  Forall (fun v => (0 <= v)%Q) intensity ->
  exists h,
    SwitchModelBase.anorm_histogram intensity = Ok h /\
    forall i,
      count_occ Nat.eq_dec h i
      = match intensity !! i with
        | Some v => Z.to_nat (SwitchModelBase.to_long (v * 10))
        | None => 0%nat
        end.
Proof.
  intros Hpos. unfold SwitchModelBase.anorm_histogram, SwitchModelBase.repeat_interleave.
  assert (Hall : forallb (fun r => 0 <=? r)
                   (map SwitchModelBase.to_long (map (fun v => (v * 10)%Q) intensity)) = true).
  { apply forallb_forall. intros r Hr.
    apply in_map_iff in Hr. destruct Hr as (w & <- & Hw).
    apply in_map_iff in Hw. destruct Hw as (v & <- & Hv).
    apply Z.leb_le, to_long_nonneg.
    rewrite Forall_forall in Hpos. apply list_elem_of_In in Hv.
    specialize (Hpos v Hv). lra. }
  rewrite Hall. eexists. split; [reflexivity |]. intros i.
  replace (length (map (fun v => (v * 10)%Q) intensity))
    with (length (map SwitchModelBase.to_long (map (fun v => (v * 10)%Q) intensity)))
    by now rewrite !length_map.
  rewrite count_occ_interleave, Nat.sub_0_r.
  rewrite !list_lookup_fmap. destruct (intensity !! i); reflexivity.
Qed.

(** X16. When no switch reports a negative occupancy,
    [compute_anorm_histogram] returns one histogram per switch, in switch
    order, and in the histogram of a switch the bin [i] occurs exactly
    [long(10 * intensity[i])] times; no value other than a branch index
    occurs. *)
Theorem compute_anorm_histogram_counts (compute_buffer_norm : SC.t -> list Q)
    (self : SwitchModelBase.t) :
  (forall sw, In sw (SwitchModelBase.switches self) ->
     Forall (fun v => (0 <= v)%Q) (compute_buffer_norm sw)) ->
  exists hs,
    SwitchModelBase.compute_anorm_histogram compute_buffer_norm self = Ok hs /\
    length hs = length (SwitchModelBase.switches self) /\
    forall k sw, SwitchModelBase.switches self !! k = Some sw ->
      exists h, hs !! k = Some h /\
        forall i,
          count_occ Nat.eq_dec h i
          = match compute_buffer_norm sw !! i with
            | Some v => Z.to_nat (SwitchModelBase.to_long (v * 10))
            | None => 0%nat
            end.
Proof.
  intros Hpos. unfold SwitchModelBase.compute_anorm_histogram.
  destruct (mapM_all_ok (fun sw => SwitchModelBase.anorm_histogram (compute_buffer_norm sw))
              (SwitchModelBase.switches self)) as (hs & Hhs & Hlen & Hlook).
  { intros sw Hsw. destruct (anorm_histogram_one _ (Hpos sw Hsw)) as (h & Hh & _).
    exists h. exact Hh. }
  exists hs. split; [exact Hhs |]. split; [exact Hlen |].
  intros k sw Hk. destruct (Hlook k sw Hk) as (h & Hh & Hhk).
  exists h. split; [exact Hhk |].
  assert (Hin : In sw (SwitchModelBase.switches self)).
  { apply list_elem_of_In. eapply list_elem_of_lookup_2. exact Hk. }
  destruct (anorm_histogram_one _ (Hpos sw Hin)) as (h' & Hh' & Hcount).
  rewrite Hh in Hh'. injection Hh' as <-. exact Hcount.
Qed.

Lemma compute_anorm_histogram_counts_witness :
  exists hs,
    SwitchModelBase.compute_anorm_histogram (fun _ => [1 # 4; 0; 3 # 10]%Q) base_model
    = Ok hs /\
    length hs = 2%nat /\
    exists h, hs !! 1%nat = Some h /\ count_occ Nat.eq_dec h 2%nat = 3%nat.
Proof.
  destruct (compute_anorm_histogram_counts (fun _ => [1 # 4; 0; 3 # 10]%Q) base_model)
    as (hs & Hhs & Hlen & Hlook).
  - intros sw _. repeat constructor; discriminate.
  - exists hs. split; [exact Hhs |]. split; [exact Hlen |].
    destruct (Hlook 1%nat _ eq_refl) as (h & Hh & Hcount).
    exists h. split; [exact Hh |]. rewrite Hcount. reflexivity.
Defined.


(** * Further properties of the switching layer *)

(** The trace of [forward], written out for every setting of the flags
    and of the optional arguments. *)
Lemma forward_trace (M : SC.Modules) (self : SC.t) (x : PyArg)
    (att_in : option PyArg) (identity : option Tensor)
    (output_attention_weights : bool) (fixed_scale : Q)
    (do_checkpointing output_att_logits : bool) (x1 : Tensor) :
  SC.first_element x = Ok x1 ->
  let noisy := tensor_zip_add x1 (tensor_scale (SC.randn_like M x1) (SC.noise_scale self)) in
  let branch_in := if SC.add_noise self then noisy :: tail (as_tuple x) else as_tuple x in
  let transform_in :=
    if SC.has_pre_transform self
    then as_tuple (SC.pre_transform M branch_in)
    else branch_in in
  let xformed := map (fun i => SC.transform M i transform_in)
                     (seq 0 (SC.transform_count self)) in
  let att := as_tuple (match att_in with None => x | Some a => a end) in
  let att := if SC.feed_transforms_into_multiplexer self
             then att ++ [SC.torch_stack M xformed]
             else att in
  exists post update rest,
    fst (SC.forward M self x att_in identity output_attention_weights fixed_scale
           do_checkpointing output_att_logits)
    = (if SC.has_pre_transform self then [CallPreTransform branch_in] else [])
      ++ map (fun i => CallTransform i transform_in) (seq 0 (SC.transform_count self))
      ++ [CallMultiplexer att]
      ++ [CallSwitch xformed (SC.multiplexer M att)]
      ++ post
      ++ [ResidualAdd (resolved_identity x1 identity) update]
      ++ rest /\
    (post = [] \/ exists o, post = [CallPostTransformBlock o]) /\
    (rest = [] \/ exists o, rest = [CallPostSwitchConv o]).
Proof.
  intros Hx1 noisy branch_in transform_in xformed att0 att.
  unfold SC.forward. rewrite Hx1, traced_bind_lift_ok.
  assert (Hx2 : exists x2,
            (if SC.add_noise self
             then tensor_add x1 (tensor_scale (SC.randn_like M x1) (SC.noise_scale self))
                  ≫= λ xn, match x with
                           | Single _ => Ok (Single xn)
                           | Tuple xs => Ok (Tuple (xn :: tail xs))
                           end
             else Ok x) = Ok x2 /\ as_tuple x2 = branch_in).
  { subst branch_in. destruct (SC.add_noise self).
    - rewrite noise_add_ok. fold noisy.
      destruct x; eexists; (split; [reflexivity |]); reflexivity.
    - eexists. split; reflexivity. }
  destruct Hx2 as (x2 & -> & Hx2). rewrite traced_bind_lift_ok, Hx2.
  assert (Hpre : (if SC.has_pre_transform self
                  then tell [CallPreTransform branch_in]
                       ≫= λ _, mret (as_tuple (SC.pre_transform M branch_in))
                  else mret branch_in)
                 = (if SC.has_pre_transform self then [CallPreTransform branch_in] else [],
                    Ok transform_in)).
  { subst transform_in. destruct (SC.has_pre_transform self);
      [rewrite traced_bind_tell |]; reflexivity. }
  rewrite Hpre, traced_bind_ok. cbn [fst].
  rewrite !traced_bind_tell. cbn [fst].
  fold xformed. fold att0. fold att.
  destruct (SC.switch_core M (SC.switch self) xformed (SC.multiplexer M att)
              (SC.update_norm self)) as [[o a] lg].
  assert (Hpost : exists post o',
            (if SC.has_post_transform_block self
             then tell [CallPostTransformBlock o]
                  ≫= λ _, mret (SC.post_transform_block M o)
             else mret o) = (post, Ok o') /\
            (post = [] \/ exists o, post = [CallPostTransformBlock o])).
  { destruct (SC.has_post_transform_block self);
      [rewrite traced_bind_tell |]; eexists; eexists; (split; [reflexivity |]).
    - right. eexists. reflexivity.
    - left. reflexivity. }
  destruct Hpost as (post & o' & -> & Hpost). exists post.
  rewrite traced_bind_ok. cbn [fst].
  rewrite traced_bind_tell. cbn [fst].
  change (match identity with Some i => i | None => x1 end)
    with (resolved_identity x1 identity).
  eexists.
  destruct (tensor_add (resolved_identity x1 identity) _) as [r | e].
  - rewrite traced_bind_lift_ok.
    destruct (SC.has_post_switch_conv self).
    + rewrite traced_bind_tell. unfold lift. cbn [fst snd].
      destruct (tensor_add r _) as [r2 | e2].
      * rewrite traced_bind_ok. cbn [fst]. eexists. split; [reflexivity |].
        split; [exact Hpost | right; eexists; reflexivity].
      * eexists. split; [reflexivity |].
        split; [exact Hpost | right; eexists; reflexivity].
    + rewrite traced_bind_mret. eexists. split; [reflexivity |].
      split; [exact Hpost | left; reflexivity].
  - rewrite traced_bind_lift_raise. exists []. split; [reflexivity |].
    split; [exact Hpost | left; reflexivity].
Qed.

Lemma branch_calls_of_transforms (args : list Tensor) (l : list nat) :
  branch_calls (map (fun i => CallTransform i args) l) = map (fun i => (i, args)) l.
Proof.
  induction l as [| i l IH]; [reflexivity |]. cbn. f_equal. exact IH.
Qed.

(** X17. The [T] branch transforms are each called once, in index order
    and all on the same arguments: the output of the pre-transform when
    there is one, the (possibly perturbed) input otherwise. *)
Theorem branch_calls_in_order (M : SC.Modules) (self : SC.t) (x : PyArg)
    (att_in : option PyArg) (identity : option Tensor)
    (output_attention_weights : bool) (fixed_scale : Q)
    (do_checkpointing output_att_logits : bool) (x1 : Tensor) :
  SC.first_element x = Ok x1 ->
  let noisy := tensor_zip_add x1 (tensor_scale (SC.randn_like M x1) (SC.noise_scale self)) in
  let branch_in := if SC.add_noise self then noisy :: tail (as_tuple x) else as_tuple x in
  let transform_in :=
    if SC.has_pre_transform self
    then as_tuple (SC.pre_transform M branch_in)
    else branch_in in
  branch_calls (fst (SC.forward M self x att_in identity output_attention_weights
                       fixed_scale do_checkpointing output_att_logits))
  = map (fun i => (i, transform_in)) (seq 0 (SC.transform_count self)).
Proof.
  intros Hx1 noisy branch_in transform_in.
  destruct (forward_trace M self x att_in identity output_attention_weights fixed_scale
              do_checkpointing output_att_logits x1 Hx1)
    as (post & update & rest & Hlog & Hpost & Hrest).
  rewrite Hlog. fold noisy branch_in transform_in.
  unfold branch_calls. rewrite !omap_app.
  assert (Hpre : omap (fun c => match c with
                                | CallTransform i args => Some (i, args)
                                | _ => None
                                end)
                   (if SC.has_pre_transform self then [CallPreTransform branch_in] else [])
                 = []) by (destruct (SC.has_pre_transform self); reflexivity).
  assert (Hp : omap (fun c => match c with
                              | CallTransform i args => Some (i, args)
                              | _ => None
                              end) post = [])
    by (destruct Hpost as [-> | [o ->]]; reflexivity).
  assert (Hr : omap (fun c => match c with
                              | CallTransform i args => Some (i, args)
                              | _ => None
                              end) rest = [])
    by (destruct Hrest as [-> | [o ->]]; reflexivity).
  rewrite Hpre, Hp, Hr. cbn [omap list_omap app]. rewrite app_nil_r.
  apply branch_calls_of_transforms.
Qed.

Lemma branch_calls_in_order_witness :
  branch_calls (fst (SC.forward example_modules noisy_layer (Single [1; 2]%Q) None None
                       true 1 false false))
  = [ (0%nat, [[1 + 1 * (1 # 1000); 2 + 1 * (1 # 1000)]%Q]);
      (1%nat, [[1 + 1 * (1 # 1000); 2 + 1 * (1 # 1000)]%Q]) ].
Proof.
  apply (branch_calls_in_order example_modules noisy_layer (Single [1; 2]%Q) None None
           true 1 false false [1; 2]%Q eq_refl).
Defined.

Lemma multiplexer_calls_of_transforms (args : list Tensor) (l : list nat) :
  multiplexer_calls (map (fun i => CallTransform i args) l) = [].
Proof. induction l as [| i l IH]; [reflexivity | exact IH]. Qed.

Lemma residual_adds_of_transforms (args : list Tensor) (l : list nat) :
  residual_adds (map (fun i => CallTransform i args) l) = [].
Proof. induction l as [| i l IH]; [reflexivity | exact IH]. Qed.

(** X18. When [att_in] and [identity] are passed, the multiplexer is
    called exactly once, on [att_in] (followed by the stacked branch
    outputs when [feed_transforms_into_multiplexer] is set), and there is
    exactly one residual addition, which uses the given [identity]: [x]
    only reaches the branches. *)
Theorem explicit_attention_input_and_identity (M : SC.Modules) (self : SC.t)
    (x a : PyArg) (idn : Tensor) (output_attention_weights : bool) (fixed_scale : Q)
    (do_checkpointing output_att_logits : bool) (x1 : Tensor) :
  SC.first_element x = Ok x1 ->
  let log := fst (SC.forward M self x (Some a) (Some idn) output_attention_weights
                    fixed_scale do_checkpointing output_att_logits) in
  let noisy := tensor_zip_add x1 (tensor_scale (SC.randn_like M x1) (SC.noise_scale self)) in
  let branch_in := if SC.add_noise self then noisy :: tail (as_tuple x) else as_tuple x in
  let transform_in :=
    if SC.has_pre_transform self
    then as_tuple (SC.pre_transform M branch_in)
    else branch_in in
  let xformed := map (fun i => SC.transform M i transform_in)
                     (seq 0 (SC.transform_count self)) in
  let att :=
    if SC.feed_transforms_into_multiplexer self
    then as_tuple a ++ [SC.torch_stack M xformed]
    else as_tuple a in
  multiplexer_calls log = [att] /\
  (exists update, residual_adds log = [(idn, update)]) /\
  branch_calls log = map (fun i => (i, transform_in)) (seq 0 (SC.transform_count self)).
Proof.
  intros Hx1 log noisy branch_in transform_in xformed att.
  destruct (forward_trace M self x (Some a) (Some idn) output_attention_weights fixed_scale
              do_checkpointing output_att_logits x1 Hx1)
    as (post & update & rest & Hlog & Hpost & Hrest).
  fold log noisy branch_in transform_in xformed att in Hlog.
  cbn [resolved_identity] in Hlog.
  assert (Hp : multiplexer_calls post = [] /\ residual_adds post = []
               /\ branch_calls post = []).
  { destruct Hpost as [-> | [o ->]]; repeat split. }
  assert (Hr : multiplexer_calls rest = [] /\ residual_adds rest = []
               /\ branch_calls rest = []).
  { destruct Hrest as [-> | [o ->]]; repeat split. }
  destruct Hp as (Hp1 & Hp2 & Hp3). destruct Hr as (Hr1 & Hr2 & Hr3).
  split; [| split].
  - rewrite Hlog. unfold multiplexer_calls. rewrite !omap_app.
    fold (multiplexer_calls post). fold (multiplexer_calls rest).
    fold (multiplexer_calls (map (fun i => CallTransform i transform_in)
                               (seq 0 (SC.transform_count self)))).
    rewrite multiplexer_calls_of_transforms, Hp1, Hr1.
    destruct (SC.has_pre_transform self); reflexivity.
  - exists update. rewrite Hlog. unfold residual_adds. rewrite !omap_app.
    fold (residual_adds post). fold (residual_adds rest).
    fold (residual_adds (map (fun i => CallTransform i transform_in)
                           (seq 0 (SC.transform_count self)))).
    rewrite residual_adds_of_transforms, Hp2, Hr2.
    destruct (SC.has_pre_transform self); reflexivity.
  - rewrite Hlog. unfold branch_calls. rewrite !omap_app.
    fold (branch_calls post). fold (branch_calls rest).
    fold (branch_calls (map (fun i => CallTransform i transform_in)
                          (seq 0 (SC.transform_count self)))).
    rewrite branch_calls_of_transforms, Hp3, Hr3.
    destruct (SC.has_pre_transform self); cbn [omap app]; now rewrite app_nil_r.
Qed.

Lemma explicit_attention_input_and_identity_witness :
  let log := fst (SC.forward example_modules noisy_layer (Single [1; 2]%Q)
                    (Some (Single [7; 8]%Q)) (Some [5; 6]%Q) true 1 false false) in
  multiplexer_calls log = [[[7; 8]%Q]] /\
  (exists update, residual_adds log = [([5; 6]%Q, update)]) /\
  map fst (branch_calls log) = [0%nat; 1%nat].
Proof.
  destruct (explicit_attention_input_and_identity example_modules noisy_layer
              (Single [1; 2]%Q) (Single [7; 8]%Q) [5; 6]%Q true 1 false false
              [1; 2]%Q eq_refl) as (Hmux & Hres & Hbranch).
  split; [exact Hmux |]. split; [exact Hres |].
  exact (f_equal (map fst) Hbranch).
Defined.

Lemma tensor_scale_zero_fixed (o : Tensor) (s fixed_scale : Q) :
  (fixed_scale == 0)%Q ->
  Forall (fun v => (v == 0)%Q) (tensor_scale (tensor_scale o s) fixed_scale).
Proof.
  intros Hs. unfold tensor_scale. rewrite map_map.
  induction o as [| v o IH]; constructor; [| exact IH].
  rewrite Hs. ring.
Qed.

Lemma residual_with_zero_fixed_scale (idn o : Tensor) (s fixed_scale : Q) :
  (fixed_scale == 0)%Q -> length o = length idn ->
  exists r, tensor_add idn (tensor_scale (tensor_scale o s) fixed_scale) = Ok r /\
            length r = length idn /\ tensor_eq r idn.
Proof.
  intros Hs Hlen.
  assert (Hl : length idn = length (tensor_scale (tensor_scale o s) fixed_scale))
    by now rewrite !tensor_scale_length.
  exists (tensor_zip_add idn (tensor_scale (tensor_scale o s) fixed_scale)).
  split; [now apply tensor_add_same_shape |]. split.
  - now apply tensor_zip_add_length.
  - apply tensor_zip_add_zero; [exact Hl | now apply tensor_scale_zero_fixed].
Qed.

(** X19. Called with [fixed_scale = 0], a layer whose sub-modules agree on
    the shape of the identity returns the resolved identity entry for
    entry, whatever its learned scales are. *)
Theorem zero_fixed_scale_identity (M : SC.Modules) (self : SC.t) (x : PyArg)
    (att_in : option PyArg) (identity : option Tensor)
    (output_attention_weights : bool) (fixed_scale : Q)
    (do_checkpointing output_att_logits : bool) (x1 : Tensor) :
  (fixed_scale == 0)%Q ->
  SC.first_element x = Ok x1 ->
  shapes_agree M (length (resolved_identity x1 identity)) ->
  exists r,
    snd (SC.forward M self x att_in identity output_attention_weights fixed_scale
           do_checkpointing output_att_logits) = Ok r /\
    tensor_eq (outputs_of r) (resolved_identity x1 identity).
Proof.
  intros Hfs Hx1 (Hmix & Hptb & Hpsconv).
  unfold SC.forward. rewrite Hx1, traced_bind_lift_ok.
  assert (Hnoise : exists x2,
            (if SC.add_noise self
             then tensor_add x1 (tensor_scale (SC.randn_like M x1) (SC.noise_scale self))
                  ≫= λ xn, match x with
                           | Single _ => Ok (Single xn)
                           | Tuple xs => Ok (Tuple (xn :: tail xs))
                           end
             else Ok x) = Ok x2).
  { destruct (SC.add_noise self); [| eexists; reflexivity].
    rewrite noise_add_ok. destruct x; eexists; reflexivity. }
  destruct Hnoise as [x2 ->]. rewrite traced_bind_lift_ok.
  set (idn := resolved_identity x1 identity) in *.
  change (match identity with Some i => i | None => x1 end) with idn.
  assert (Hpre : exists l x3,
            (if SC.has_pre_transform self
             then tell [CallPreTransform (as_tuple x2)]
                  ≫= λ _, mret (as_tuple (SC.pre_transform M (as_tuple x2)))
             else mret (as_tuple x2)) = (l, Ok x3)).
  { destruct (SC.has_pre_transform self);
      [rewrite traced_bind_tell |]; eexists; eexists; reflexivity. }
  destruct Hpre as (l & x3 & ->).
  rewrite traced_bind_ok. cbn [snd].
  rewrite !traced_bind_tell. cbn [snd].
  match goal with
  | |- context [SC.switch_core M ?sw ?xf ?m ?u] =>
      pose proof (Hmix sw xf m u) as Hlen;
      destruct (SC.switch_core M sw xf m u) as [[o a] lg]
  end.
  cbn [fst] in Hlen.
  assert (Hpost : exists l' o',
            (if SC.has_post_transform_block self
             then tell [CallPostTransformBlock o]
                  ≫= λ _, mret (SC.post_transform_block M o)
             else mret o) = (l', Ok o') /\ length o' = length idn).
  { destruct (SC.has_post_transform_block self);
      [rewrite traced_bind_tell |]; eexists; eexists; (split; [reflexivity |]).
    - cbn [snd]. now rewrite Hptb.
    - exact Hlen. }
  destruct Hpost as (l' & o' & -> & Hlen').
  rewrite traced_bind_ok. cbn [snd].
  rewrite traced_bind_tell. cbn [snd].
  destruct (residual_with_zero_fixed_scale idn o' (SC.switch_scale self) fixed_scale
              Hfs Hlen') as (r & -> & Hr & Heq).
  rewrite traced_bind_lift_ok.
  destruct (SC.has_post_switch_conv self).
  - rewrite traced_bind_tell.
    destruct (residual_with_zero_fixed_scale r (SC.post_switch_conv M r)
                (SC.psc_scale self) fixed_scale Hfs (Hpsconv r))
      as (r2 & -> & _ & Heq2).
    unfold lift. cbn [fst snd]. rewrite traced_bind_ok. eexists.
    split; [reflexivity |].
    destruct output_attention_weights, output_att_logits; cbn [outputs_of];
      exact (tensor_eq_trans _ _ _ Heq2 Heq).
  - rewrite traced_bind_mret. eexists. split; [reflexivity |].
    destruct output_attention_weights, output_att_logits; cbn [outputs_of];
      exact Heq.
Qed.

Lemma zero_fixed_scale_identity_witness :
  exists r,
    snd (SC.forward example_modules noisy_layer (Single [3; 5]%Q) None None
           true 0 false false) = Ok r /\
    tensor_eq (outputs_of r) [3; 5]%Q.
Proof.
  apply (zero_fixed_scale_identity example_modules noisy_layer (Single [3; 5]%Q)
           None None true 0 false false [3; 5]%Q);
    [reflexivity | reflexivity |].
  split; [| split].
  - intros sw xformed m u. apply length_resize.
  - intros o. apply length_map.
  - intros o. apply length_map.
Defined.


(** * The multiplexers as nested U-nets *)

Section UNet.

Variable Feat : Type.
Variable cat1 : Feat -> Feat -> Feat.

Import QueryKey Multiplexers.

Lemma reduce_spec (reds : list (Feat -> Feat)) (x : list Feat)
    (pre : list (list Feat)) :
  reduce reds x pre = (map (descend reds) x, pre ++ skips reds x).
Proof.
  revert x pre. induction reds as [| r reds IH]; intros x pre.
  - cbn. now rewrite map_id, app_nil_r.
  - cbn [reduce skips]. rewrite IH, map_map, <- app_assoc. reflexivity.
Qed.

Lemma skips_length (reds : list (Feat -> Feat)) (x : list Feat) :
  length (skips reds x) = length reds.
Proof.
  revert x. induction reds as [| r reds IH]; intros x; [reflexivity |].
  cbn. now rewrite IH.
Qed.

Lemma expand_app (l1 l2 : list (Feat -> Feat -> Feat)) (i : nat) (q : list Feat)
    (ids : list (list Feat)) :
  expand (l1 ++ l2) i q ids
  = q' ← expand l1 i q ids; expand l2 (i + length l1) q' ids.
Proof.
  revert i q. induction l1 as [| b l1 IH]; intros i q.
  - cbn. now rewrite Nat.add_0_r.
  - cbn [app expand length].
    destruct (from_end Feat ids i) as [skip |]; [| reflexivity].
    cbn [mbind result_bind].
    destruct (expansion_apply Feat b q skip) as [q1 |]; [| reflexivity].
    cbn [mbind result_bind]. rewrite IH.
    replace (S i + length l1)%nat with (i + S (length l1))%nat by lia. reflexivity.
Qed.

Lemma zip_with_climb_step (e : Feat -> Feat -> Feat) (r : Feat -> Feat)
    (f : Feat -> Feat -> Feat) (x bottom : list Feat) :
  zip_with e (zip_with f (map r x) bottom) x
  = zip_with (fun v b => e (f (r v) b) v) x bottom.
Proof.
  revert bottom. induction x as [| v x IH]; intros [| b bottom]; try reflexivity.
  cbn. now rewrite IH.
Qed.

(** The decoder loop, run on the skips recorded by the encoder, builds
    the nest. *)
Lemma expand_skips (reds : list (Feat -> Feat)) :
  forall (exps : list (Feat -> Feat -> Feat)) (x : list Feat)
         (pre : list (list Feat)) (bottom : list Feat),
    length exps = length reds -> length bottom = length x ->
    expand exps 0 bottom (pre ++ skips reds x)
    = Ok (zip_with (climb reds (rev exps)) x bottom).
Proof.
  induction reds as [| r reds IH]; intros exps x pre bottom Hexps Hlen.
  - destruct exps; [| discriminate]. cbn. f_equal.
    clear Hexps. revert bottom Hlen.
    induction x as [| v x IHx]; intros [| b bottom] Hlen; try discriminate;
      [reflexivity |].
    cbn. f_equal. apply IHx. now injection Hlen.
  - destruct exps as [| e0 exps0] using rev_ind; [discriminate |]. clear IHexps0.
    rewrite length_app in Hexps. cbn in Hexps.
    assert (Hexps' : length exps0 = length reds) by lia.
    rewrite expand_app. cbn [skips].
    replace (pre ++ x :: skips reds (map r x))
      with ((pre ++ [x]) ++ skips reds (map r x)) by now rewrite <- app_assoc.
    rewrite (IH exps0 (map r x) (pre ++ [x]) bottom Hexps')
      by now rewrite length_map.
    cbn [mbind result_bind expand]. unfold from_end.
    cbn [Nat.add].
    match goal with
    | |- context [match ?look with Some _ => _ | None => _ end] =>
        assert (Hskip : look = Some x)
    end.
    { rewrite !rev_app_distr. cbn [rev app].
      rewrite lookup_app_r by (rewrite length_rev, skips_length; lia).
      rewrite length_rev, skips_length.
      replace (length exps0 - length reds)%nat with 0%nat by lia. reflexivity. }
    rewrite Hskip. cbn [mbind result_bind]. unfold expansion_apply.
    rewrite length_zip_with, length_map, Hlen, Nat.min_id, Nat.eqb_refl.
    cbn [mbind result_bind]. f_equal.
    rewrite rev_app_distr. cbn [rev app climb]. apply zip_with_climb_step.
Qed.

(** With more expansion blocks than reduction blocks the decoder runs
    out of skips. *)
Lemma expand_too_many (reds : list (Feat -> Feat))
    (exps : list (Feat -> Feat -> Feat)) (x bottom : list Feat) :
  (length reds < length exps)%nat -> length bottom = length x ->
  expand exps 0 bottom (skips reds x) = Raise IndexError.
Proof.
  intros Hmore Hlen.
  rewrite <- (take_drop (length reds) exps).
  rewrite expand_app.
  pose proof (expand_skips reds (take (length reds) exps) x [] bottom) as Hfirst.
  cbn [app] in Hfirst. rewrite Hfirst by (try rewrite length_take; lia).
  cbn [mbind result_bind].
  destruct (drop (length reds) exps) as [| e rest] eqn:Hdrop.
  { apply (f_equal length) in Hdrop. rewrite length_drop in Hdrop. cbn in Hdrop. lia. }
  cbn [expand]. unfold from_end.
  match goal with
  | |- context [match ?look with Some _ => _ | None => _ end] =>
      assert (Hnone : look = None)
  end.
  { apply lookup_ge_None_2. rewrite length_rev, skips_length, length_take. lia. }
  rewrite Hnone. reflexivity.
Qed.

(** X20. With as many expansion blocks as reduction blocks (as the
    constructor builds them), [ConvBasisMultiplexer.forward] returns, and
    what it returns is the nested U-net applied to every sample: the
    expansion block used last is fed the input of the first reduction
    block, and so on inwards. *)
Theorem conv_basis_multiplexer_is_unet (self : ConvBasisMultiplexer Feat)
    (x : list Feat) :
  length (cb_expansion_blocks Feat self) = length (cb_reduction_blocks Feat self) ->
  ConvBasisMultiplexer_forward self x
  = Ok (map (fun v =>
               cb_cbl3 Feat self
                 (cb_cbl2 Feat self
                    (cb_cbl1 Feat self
                       (unet (cb_reduction_blocks Feat self) (cb_expansion_blocks Feat self)
                          (cb_processing_blocks Feat self)
                          (cb_filter_conv Feat self v)))))
            x).
Proof.
  intros Hlen. unfold ConvBasisMultiplexer_forward. rewrite reduce_spec.
  cbn [app].
  pose proof (expand_skips (cb_reduction_blocks Feat self) (cb_expansion_blocks Feat self)
                (map (cb_filter_conv Feat self) x) []
                (map (cb_processing_blocks Feat self)
                   (map (descend (cb_reduction_blocks Feat self))
                      (map (cb_filter_conv Feat self) x))) Hlen) as Hexp.
  cbn [app] in Hexp. rewrite Hexp by now rewrite !length_map.
  cbn [mbind result_bind]. f_equal. unfold unet. clear Hexp.
  induction x as [| v x IH]; [reflexivity |].
  cbn [map zip_with]. f_equal. exact IH.
Qed.

(** X21. With more expansion blocks than reduction blocks the decoder
    runs out of recorded skip tensors and [ConvBasisMultiplexer.forward]
    raises [IndexError]. *)
Theorem conv_basis_multiplexer_too_many_expansions (self : ConvBasisMultiplexer Feat)
    (x : list Feat) :
  (length (cb_reduction_blocks Feat self) < length (cb_expansion_blocks Feat self))%nat ->
  ConvBasisMultiplexer_forward self x = Raise IndexError.
Proof.
  intros Hmore. unfold ConvBasisMultiplexer_forward. rewrite reduce_spec.
  cbn [app]. rewrite expand_too_many; [reflexivity | exact Hmore |].
  now rewrite !length_map.
Qed.

(** X22. [EmbeddingMultiplexer.forward] raises when the embedding has
    another batch size than the input; with equal batch sizes (and as many
    expansion as reduction blocks) it is the U-net whose bottleneck joins
    each sample with its own embedding. *)
Theorem embedding_multiplexer_is_unet (self : EmbeddingMultiplexer Feat)
    (x embedding : list Feat) :
  length (em_expansion_blocks Feat self) = length (em_reduction_blocks Feat self) ->
  EmbeddingMultiplexer_forward cat1 self x embedding
  = if (length x =? length embedding)%nat
    then Ok (zip_with
               (fun v e =>
                  em_cbl3 Feat self
                    (em_cbl2 Feat self
                       (em_cbl1 Feat self
                          (climb (em_reduction_blocks Feat self)
                             (rev (em_expansion_blocks Feat self))
                             (em_filter_conv Feat self v)
                             (em_processing_blocks Feat self
                                (cat1 (descend (em_reduction_blocks Feat self)
                                         (em_filter_conv Feat self v))
                                      (em_embedding_process Feat self e)))))))
               x embedding)
    else Raise (RuntimeError "Sizes of tensors must match except in dimension 1").
Proof.
  intros Hlen. unfold EmbeddingMultiplexer_forward. rewrite reduce_spec.
  cbn [app]. unfold torch_cat. rewrite !length_map.
  destruct (length x =? length embedding)%nat eqn:E; [| reflexivity].
  apply Nat.eqb_eq in E. cbn [mbind result_bind].
  pose proof (expand_skips (em_reduction_blocks Feat self) (em_expansion_blocks Feat self)
                (map (em_filter_conv Feat self) x) []
                (map (em_processing_blocks Feat self)
                   (zip_with cat1
                      (map (descend (em_reduction_blocks Feat self))
                         (map (em_filter_conv Feat self) x))
                      (map (em_embedding_process Feat self) embedding))) Hlen) as Hexp.
  cbn [app] in Hexp. rewrite Hexp
    by (rewrite length_map, length_zip_with, !length_map; lia).
  cbn [mbind result_bind]. f_equal.
  clear Hexp. revert embedding E.
  induction x as [| v x IH]; intros [| e embedding] E; try discriminate;
    [reflexivity |].
  cbn. f_equal. apply IH. now injection E.
Qed.

(** X23. For a rectangular stack of branch outputs with the batch size of
    the input (and as many expansion as reduction blocks),
    [QueryKeyPyramidMultiplexer.forward] returns, and the logit of branch
    [j] of sample [i] is the head applied to the U-net query of sample [i]
    joined with the key of that one branch output. *)
Theorem query_key_pyramid_logits (self : QueryKeyPyramidMultiplexer Feat)
    (x : list Feat) (T : Tensor5D Feat) :
  length (qkp_expansion_blocks Feat self) = length (qkp_reduction_blocks Feat self) ->
  wf5 T ->
  length x = dim_b T ->
  QueryKeyPyramidMultiplexer_forward cat1 self x T
  = Ok (mkTensor5D (dim_b T) (dim_t T)
          (zip_with
             (row_scores cat1
                (fun f => qkp_cbl2 Feat self
                            (qkp_cbl1 Feat self
                               (qkp_cbl0 Feat self (qkp_query_key_combine Feat self f))))
                (qkp_key_process Feat self))
             (map (fun v => unet (qkp_reduction_blocks Feat self)
                              (qkp_expansion_blocks Feat self)
                              (qkp_processing_blocks Feat self)
                              (qkp_input_process Feat self v)) x)
             (rows T))).
Proof.
  intros Hlen Hwf Hb.
  assert (Hmodel :
            QueryKeyPyramidMultiplexer_forward cat1 self x T
            = if (length x =? dim_b T)%nat
              then Ok (mkTensor5D (dim_b T) (dim_t T)
                         (zip_with
                            (row_scores cat1
                               (fun f => qkp_cbl2 Feat self
                                           (qkp_cbl1 Feat self
                                              (qkp_cbl0 Feat self (qkp_query_key_combine Feat self f))))
                               (qkp_key_process Feat self))
                            (map (fun v => unet (qkp_reduction_blocks Feat self)
                                             (qkp_expansion_blocks Feat self)
                                             (qkp_processing_blocks Feat self)
                                             (qkp_input_process Feat self v)) x)
                            (rows T)))
              else Raise (RuntimeError "shape is invalid for input size")).
  { clear Hb. unfold QueryKeyPyramidMultiplexer_forward. rewrite reduce_spec.
    cbn [app].
    pose proof (expand_skips (qkp_reduction_blocks Feat self) (qkp_expansion_blocks Feat self)
                  (map (qkp_input_process Feat self) x) []
                  (map (qkp_processing_blocks Feat self)
                     (map (descend (qkp_reduction_blocks Feat self))
                        (map (qkp_input_process Feat self) x))) Hlen) as Hexp.
    cbn [app] in Hexp. rewrite Hexp by now rewrite !length_map.
    cbn [mbind result_bind].
    assert (Hq : zip_with (climb (qkp_reduction_blocks Feat self)
                             (rev (qkp_expansion_blocks Feat self)))
                   (map (qkp_input_process Feat self) x)
                   (map (qkp_processing_blocks Feat self)
                      (map (descend (qkp_reduction_blocks Feat self))
                         (map (qkp_input_process Feat self) x)))
                 = map (fun v => unet (qkp_reduction_blocks Feat self)
                                   (qkp_expansion_blocks Feat self)
                                   (qkp_processing_blocks Feat self)
                                   (qkp_input_process Feat self v)) x).
    { unfold unet. clear Hexp. induction x as [| v x IH]; [reflexivity |].
      cbn [map zip_with]. f_equal. exact IH. }
    rewrite Hq.
    pose proof (score_tail_rows Feat cat1
                  (fun v => map (qkp_cbl2 Feat self)
                              (map (qkp_cbl1 Feat self)
                                 (map (qkp_cbl0 Feat self)
                                    (map (qkp_query_key_combine Feat self) v))))
                  (fun f => qkp_cbl2 Feat self
                              (qkp_cbl1 Feat self
                                 (qkp_cbl0 Feat self (qkp_query_key_combine Feat self f))))
                  (qkp_key_process Feat self)
                  (map (fun v => unet (qkp_reduction_blocks Feat self)
                                   (qkp_expansion_blocks Feat self)
                                   (qkp_processing_blocks Feat self)
                                   (qkp_input_process Feat self v)) x)
                  T) as Htail.
    unfold score_tail in Htail. rewrite length_map in Htail.
    apply Htail; [| exact Hwf].
    intros v. now rewrite !map_map. }
  rewrite Hmodel, Hb, Nat.eqb_refl. reflexivity.
Qed.

End UNet.

Lemma conv_basis_multiplexer_is_unet_witness :
  Multiplexers.ConvBasisMultiplexer_forward example_cb [1; 2] = Ok [-14; -17].
Proof.
  apply (conv_basis_multiplexer_is_unet Z example_cb [1; 2] eq_refl).
Defined.

Lemma conv_basis_multiplexer_too_many_expansions_witness :
  Multiplexers.ConvBasisMultiplexer_forward example_cb_unbalanced [1; 2]
  = Raise IndexError.
Proof.
  apply (conv_basis_multiplexer_too_many_expansions Z example_cb_unbalanced [1; 2]).
  cbn. lia.
Defined.

Lemma embedding_multiplexer_is_unet_witness :
  Multiplexers.EmbeddingMultiplexer_forward example_cat1 example_em [1; 2] [5]
  = Raise (RuntimeError "Sizes of tensors must match except in dimension 1").
Proof.
  apply (embedding_multiplexer_is_unet Z example_cat1 example_em [1; 2] [5] eq_refl).
Defined.

Lemma query_key_pyramid_logits_witness :
  QueryKey.QueryKeyPyramidMultiplexer_forward example_cat1 example_qkp [1; 2] example_stack
  = Ok (QueryKey.mkTensor5D 2 3 [[158; 167; 182]; [233; 260; 293]]).
Proof.
  rewrite (query_key_pyramid_logits Z example_cat1 example_qkp [1; 2] example_stack eq_refl).
  - reflexivity.
  - split; [reflexivity | repeat constructor].
  - reflexivity.
Defined.


(** * Channel counts *)

(** X24. For a multiplexer with [4 <= multiplexer_channels <=
    base_filters], the two intermediate widths of the reduction head built
    by [ConvBasisMultiplexer.__init__] are positive multiples of 4 that
    step down from [base_filters]: [4 <= cbl2_out <= cbl1_out <=
    base_filters], and [cbl2_out] is within 3 of [multiplexer_channels]
    from below. *)
Theorem reduction_head_widths (input_channels base_filters : Z)
    (reductions processing_depth : nat) (multiplexer_channels : Z) :
  4 <= multiplexer_channels -> multiplexer_channels <= base_filters ->
  let self := Channels.ConvBasisMultiplexer_init input_channels base_filters reductions
                processing_depth multiplexer_channels in
  let cbl1_out := Channels.gn_out (Channels.cbl1 self) in
  let cbl2_out := Channels.gn_out (Channels.cbl2 self) in
  cbl1_out mod 4 = 0 /\ cbl2_out mod 4 = 0 /\
  4 <= cbl2_out /\ cbl2_out <= cbl1_out /\ cbl1_out <= base_filters /\
  multiplexer_channels - 3 <= cbl2_out /\
  Channels.gn_in (Channels.cbl2 self) = cbl1_out /\
  Channels.gn_in (Channels.cbl3 self) = cbl2_out /\
  Channels.gn_out (Channels.cbl3 self) = multiplexer_channels.
Proof.
  intros Hmc Hbase. cbv zeta. unfold Channels.ConvBasisMultiplexer_init.
  cbn [Channels.cbl1 Channels.cbl2 Channels.cbl3 Channels.gn_out Channels.gn_in].
  repeat split; try (apply Z_mod_mult); try reflexivity;
    Z.div_mod_to_equations; lia.
Qed.

Lemma reduction_head_widths_witness :
  Channels.gn_out (Channels.cbl1 (Channels.ConvBasisMultiplexer_init 16 16 2 2 4)) mod 4 = 0 /\
  4 <= Channels.gn_out (Channels.cbl2 (Channels.ConvBasisMultiplexer_init 16 16 2 2 4)).
Proof.
  destruct (reduction_head_widths 16 16 2 2 4 ltac:(lia) ltac:(lia))
    as (H1 & _ & H3 & _).
  split; [exact H1 | exact H3].
Defined.

Lemma halving_chain (base_filters : Z) (n k : nat) :
  Channels.Sequential_forward
    (map Channels.Halving
       (map (fun i => Channels.HalvingProcessingBlock_init (base_filters * 2 ^ Z.of_nat i))
            (seq k n)))
    (base_filters * 2 ^ Z.of_nat k)
  = Ok (base_filters * 2 ^ Z.of_nat (k + n)).
Proof.
  revert k. induction n as [| n IH]; intros k.
  - cbn. now rewrite Nat.add_0_r.
  - cbn [seq map Channels.Sequential_forward Channels.Layer_forward].
    unfold Channels.HalvingProcessingBlock_forward, Channels.HalvingProcessingBlock_init,
      Channels.ConvGnSilu_forward.
    cbn [Channels.bnconv1 Channels.bnconv2 Channels.gn_in Channels.gn_out].
    rewrite Z.eqb_refl. cbn [mbind result_bind]. rewrite Z.eqb_refl.
    cbn [mbind result_bind].
    replace (base_filters * 2 ^ Z.of_nat k * 2) with (base_filters * 2 ^ Z.of_nat (S k))
      by (rewrite Nat2Z.inj_succ, Z.pow_succ_r by lia; ring).
    rewrite IH. now replace (S k + n)%nat with (k + S n)%nat by lia.
Qed.

Lemma processing_chain (filters : Z) (n k : nat) :
  Channels.Sequential_forward
    (map Channels.Conv (map (fun _ => Channels.mkConvGnSilu filters filters) (seq k n)))
    filters
  = Ok filters.
Proof.
  revert k. induction n as [| n IH]; intros k; [reflexivity |].
  cbn [seq map Channels.Sequential_forward Channels.Layer_forward].
  unfold Channels.ConvGnSilu_forward. cbn [Channels.gn_in Channels.gn_out].
  rewrite Z.eqb_refl. cbn [mbind result_bind]. apply IH.
Qed.

(** X25. The encoder that [ConvBasisMultiplexer.__init__] builds is wired
    consistently: a tensor with [input_channels] channels passes the stem,
    the [reductions] halving blocks and the processing blocks and comes
    out with [base_filters * 2 ** reductions] channels; any other channel
    count is rejected by the stem; and expansion block [i] is built for
    exactly [base_filters * 2 ** (reductions - i)] channels. *)
Theorem conv_basis_encoder_channels (input_channels base_filters : Z)
    (reductions processing_depth : nat) (multiplexer_channels : Z) :
  let self := Channels.ConvBasisMultiplexer_init input_channels base_filters reductions
                processing_depth multiplexer_channels in
  Channels.encoder_forward self input_channels
  = Ok (base_filters * 2 ^ Z.of_nat reductions) /\
  (forall x, x <> input_channels ->
     Channels.encoder_forward self x = Raise (RuntimeError "channel mismatch")) /\
  Channels.expansion_filters self
  = map (fun i => base_filters * 2 ^ Z.of_nat (reductions - i)) (seq 0 reductions).
Proof.
  cbv zeta. unfold Channels.encoder_forward, Channels.ConvBasisMultiplexer_init.
  cbn [Channels.filter_conv Channels.reduction_blocks Channels.processing_blocks
       Channels.expansion_filters].
  split; [| split].
  - unfold Channels.ConvGnSilu_forward at 1. cbn [Channels.gn_in Channels.gn_out].
    rewrite Z.eqb_refl. cbn [mbind result_bind].
    pose proof (halving_chain base_filters reductions 0) as Hred.
    cbn [Z.of_nat Nat.add] in Hred. rewrite Z.pow_0_r, Z.mul_1_r in Hred.
    rewrite Hred. cbn [mbind result_bind]. apply processing_chain.
  - intros x Hx.
    unfold Channels.ConvGnSilu_forward at 1. cbn [Channels.gn_in Channels.gn_out].
    replace (x =? input_channels) with false by (symmetry; apply Z.eqb_neq; exact Hx).
    reflexivity.
  - apply map_ext_in. intros i Hi. apply in_seq in Hi.
    replace (Z.of_nat reductions) with (Z.of_nat (reductions - i) + Z.of_nat i) by lia.
    rewrite Z.pow_add_r by lia.
    rewrite Z.mul_assoc. apply Z.div_mul.
    apply Z.pow_nonzero; lia.
Qed.

Lemma conv_basis_encoder_channels_witness :
  Channels.encoder_forward (Channels.ConvBasisMultiplexer_init 3 64 2 2 8) 3 = Ok 256 /\
  Channels.encoder_forward (Channels.ConvBasisMultiplexer_init 3 64 2 2 8) 4
  = Raise (RuntimeError "channel mismatch") /\
  Channels.expansion_filters (Channels.ConvBasisMultiplexer_init 3 64 2 2 8) = [256; 128].
Proof.
  destruct (conv_basis_encoder_channels 3 64 2 2 8) as (Hrun & Hreject & Hexp).
  split; [exact Hrun |]. split; [apply Hreject; discriminate | exact Hexp].
Defined.

Lemma stem_rejects (c : Channels.ConvGnSilu) (rest : list Channels.Layer) (x : Z) :
  x <> Channels.gn_in c ->
  Channels.Sequential_forward (Channels.Conv c :: rest) x
  = Raise (RuntimeError "channel mismatch").
Proof.
  intros Hx. cbn [Channels.Sequential_forward Channels.Layer_forward].
  unfold Channels.ConvGnSilu_forward.
  apply Z.eqb_neq in Hx. rewrite Hx. reflexivity.
Qed.

(** X26. The feature stack of [ReferenceImageBranch] is wired
    consistently: a 4-channel input passes all eight layers and comes out
    with [base_filters * 8] channels; an input with another channel count
    is rejected. *)
Theorem reference_branch_feature_channels (base_filters : Z) :
  Channels.Sequential_forward (Channels.ReferenceImageBranch_features base_filters) 4
  = Ok (base_filters * 8) /\
  (forall x, x <> 4 ->
     Channels.Sequential_forward (Channels.ReferenceImageBranch_features base_filters) x
     = Raise (RuntimeError "channel mismatch")).
Proof.
  split.
  - unfold Channels.ReferenceImageBranch_features.
    cbn [Channels.Sequential_forward Channels.Layer_forward].
    unfold Channels.HalvingProcessingBlock_forward, Channels.HalvingProcessingBlock_init,
      Channels.ConvGnSilu_forward.
    cbn [Channels.bnconv1 Channels.bnconv2 Channels.gn_in Channels.gn_out].
    replace (base_filters * 2 * 2) with (base_filters * 4) by lia.
    replace (base_filters * 4 * 2) with (base_filters * 8) by lia.
    repeat (rewrite ?Z.eqb_refl; cbn [mbind result_bind]). reflexivity.
  - intros x Hx. now apply stem_rejects.
Qed.

Lemma reference_branch_feature_channels_witness :
  Channels.Sequential_forward (Channels.ReferenceImageBranch_features 64) 4 = Ok 512 /\
  Channels.Sequential_forward (Channels.ReferenceImageBranch_features 64) 3
  = Raise (RuntimeError "channel mismatch").
Proof.
  destruct (reference_branch_feature_channels 64) as (Hrun & Hreject).
  split; [exact Hrun | apply Hreject; discriminate].
Defined.
